(** * Attention and sequence-encoding components of the SQuAD model

    A shallow embedding of [code/modules.py]: the masked softmax, the
    recurrent encoder, the output layer and the three attention modules,
    together with the TensorFlow operations they are written with; and of
    the entry point [code/main.py].

    Tensors are a shape and an index function.  Floating-point entries
    are modelled by real numbers (exact arithmetic); integer tensors
    (the padding masks) by [Z].  Every random draw is made explicit as a
    noise tensor with entries in [[0,1)].

    Rounding, underflow and absorption are not part of the model.  Where
    the code computes a float32, the model has the real number that the
    float32 approximates: a probability that underflows to 0.0 in the
    code is here a real number between 0 and a bound far below the least
    positive float32.  What a mask suppresses is therefore stated with
    bounds and non-strict inequalities, never as the strict positivity of
    a probability; an equality between entries is an equality of the
    exact values; and whether two float32 values are equal bit for bit,
    as [tf.assert_equal] tests, is not expressible. *)

From Stdlib Require Import Ascii String DecimalString Reals Lra Lia ZArith Bool List.
From Stdlib Require Import FunctionalExtensionality.
Import ListNotations.
Open Scope R_scope.

(** ** Tensors *)

Definition shape := list nat.
Definition index := list nat.

Record Tensor (A : Type) : Type := mkTensor {
  tshape : shape;
  tdata : index -> A
}.
Arguments mkTensor {A} _ _.
Arguments tshape {A} _.
Arguments tdata {A} _ _.

(** [in_bounds s i]: the index [i] addresses an entry of a tensor of shape [s]. *)
Fixpoint in_bounds (s : shape) (i : index) : Prop :=
  match s, i with
  | [], [] => True
  | d :: s', k :: i' => (k < d)%nat /\ in_bounds s' i'
  | _, _ => False
  end.

(** The element types of the tensors of the program: float and int32. *)
Class Num (A : Type) : Type := {
  nzero : A;
  nadd : A -> A -> A;
  nsub : A -> A -> A;
  nmul : A -> A -> A
}.

#[export] Instance Num_R : Num R :=
  {| nzero := 0; nadd := Rplus; nsub := Rminus; nmul := Rmult |}.
#[export] Instance Num_Z : Num Z :=
  {| nzero := 0%Z; nadd := Z.add; nsub := Z.sub; nmul := Z.mul |}.

(** [nsum n f] is [f 0 + ... + f (n-1)]. *)
Fixpoint nsum {A} `{Num A} (n : nat) (f : nat -> A) : A :=
  match n with
  | O => nzero
  | S n' => nadd (nsum n' f) (f n')
  end.

(** [rmax n f] is the largest of [f 0 .. f (n-1)].  TensorFlow gives
    minus infinity on an empty axis, which has no real counterpart: the
    value there is 0. *)
Fixpoint rmax (n : nat) (f : nat -> R) : R :=
  match n with
  | O => 0
  | S O => f O
  | S n' => Rmax (rmax n' f) (f n')
  end.

(** ** Index arithmetic *)

Definition numel (s : shape) : nat := fold_right Nat.mul 1%nat s.

(** Row-major offset of an index, and its inverse. *)
Fixpoint ravel (s : shape) (i : index) : nat :=
  match s, i with
  | _ :: s', k :: i' => (k * numel s' + ravel s' i')%nat
  | _, _ => O
  end.

Fixpoint unravel (s : shape) (off : nat) : index :=
  match s with
  | [] => []
  | _ :: s' => (off / numel s')%nat :: unravel s' (off mod numel s')
  end.

(** A negative axis counts from the end. *)
Definition norm_axis (rank : nat) (axis : Z) : nat :=
  Z.to_nat (if (axis <? 0)%Z then Z.of_nat rank + axis else axis).

Fixpoint set_nth (n : nat) (k : nat) (i : index) {struct i} : index :=
  match i, n with
  | [], _ => []
  | _ :: i', O => k :: i'
  | x :: i', S n' => x :: set_nth n' k i'
  end.

Fixpoint insert_nth (n : nat) (k : nat) (i : list nat) : list nat :=
  match n, i with
  | O, _ => k :: i
  | S n', x :: i' => x :: insert_nth n' k i'
  | S _, [] => [k]
  end.

Fixpoint remove_nth (n : nat) (i : list nat) {struct i} : list nat :=
  match n, i with
  | _, [] => []
  | O, _ :: i' => i'
  | S n', x :: i' => x :: remove_nth n' i'
  end.

(** Broadcasting aligns shapes at their last axis; an axis of size 1 is
    stretched.  Both functions work on reversed lists. *)
Fixpoint bshape_r (s1 s2 : list nat) : list nat :=
  match s1, s2 with
  | [], s => s
  | s, [] => s
  | a :: s1', b :: s2' => (if (a =? 1)%nat then b else a) :: bshape_r s1' s2'
  end.

Definition broadcast_shape (s1 s2 : shape) : shape :=
  rev (bshape_r (rev s1) (rev s2)).

Fixpoint bidx_r (s : list nat) (i : list nat) : list nat :=
  match s, i with
  | d :: s', k :: i' => (if (d =? 1)%nat then O else k) :: bidx_r s' i'
  | _, _ => []
  end.

(** The entry of an operand of shape [s] that the entry [i] of the
    broadcast result reads. *)
Definition bidx (s : shape) (i : index) : index :=
  rev (bidx_r (rev s) (rev i)).

(** Position of [p] in a permutation. *)
Fixpoint index_of (p : nat) (perm : list nat) : nat :=
  match perm with
  | [] => O
  | q :: perm' => if (q =? p)%nat then O else S (index_of p perm')
  end.

(** ** TensorFlow operations used by the modules *)

Module tf.

Definition constant {A} (x : A) : Tensor A := mkTensor [] (fun _ => x).

Definition map {A B} (f : A -> B) (t : Tensor A) : Tensor B :=
  mkTensor (tshape t) (fun i => f (tdata t i)).

Definition binop {A} (f : A -> A -> A) (a b : Tensor A) : Tensor A :=
  mkTensor (broadcast_shape (tshape a) (tshape b))
           (fun i => f (tdata a (bidx (tshape a) i)) (tdata b (bidx (tshape b) i))).

Definition add {A} `{Num A} := binop (A:=A) nadd.
Definition subtract {A} `{Num A} := binop (A:=A) nsub.
Definition multiply {A} `{Num A} := binop (A:=A) nmul.

(** [tf.cast(mask, 'float')] on an integer tensor. *)
Definition cast (t : Tensor Z) : Tensor R := map IZR t.

Definition tanh (t : Tensor R) : Tensor R := map Rtrigo_def.tanh t.

(** [tf.shape]. *)
Definition shape {A} (t : Tensor A) : list nat := tshape t.

(** [tf.expand_dims(t, axis)]. *)
Definition expand_dims {A} (t : Tensor A) (axis : Z) : Tensor A :=
  let ax := norm_axis (S (length (tshape t))) axis in
  mkTensor (insert_nth ax 1%nat (tshape t)) (fun i => tdata t (remove_nth ax i)).

(** [tf.squeeze(t, axis=[ax])]. *)
Definition squeeze {A} (t : Tensor A) (ax : nat) : Tensor A :=
  mkTensor (remove_nth ax (tshape t)) (fun i => tdata t (insert_nth ax O i)).

(** [tf.transpose(t, perm)]: axis [k] of the result is axis [perm[k]] of [t]. *)
Definition transpose {A} (t : Tensor A) (perm : list nat) : Tensor A :=
  mkTensor (List.map (fun p => nth p (tshape t) O) perm)
           (fun i => tdata t (List.map (fun p => nth (index_of p perm) i O)
                                       (seq 0 (length perm)))).

(** [tf.reshape(t, dims)]; an entry -1 of [dims] is inferred from the
    number of elements.  Entries keep their row-major order. *)
Definition infer_shape (total : nat) (dims : list Z) : list nat :=
  let known := fold_right (fun d acc => if (d <? 0)%Z then acc else (Z.to_nat d * acc)%nat)
                          1%nat dims in
  List.map (fun d => if (d <? 0)%Z then (total / known)%nat else Z.to_nat d) dims.

Definition reshape {A} (t : Tensor A) (dims : list Z) : Tensor A :=
  let s := infer_shape (numel (tshape t)) dims in
  mkTensor s (fun i => tdata t (unravel (tshape t) (ravel s i))).

(** [tf.matmul(a, b)] on the last two axes, batched over the others. *)
Definition matmul {A} `{Num A} (a b : Tensor A) : Tensor A :=
  let K := last (tshape a) O in
  mkTensor (removelast (tshape a) ++ [last (tshape b) O])
           (fun i => match rev i with
                     | c :: r :: p =>
                         nsum K (fun k => nmul (tdata a (rev p ++ [r; k]))
                                               (tdata b (rev p ++ [k; c])))
                     | _ => nzero
                     end).

(** [tf.reduce_sum(t, axis)] and [tf.reduce_max(t, axis)]. *)
Definition reduce_sum {A} `{Num A} (t : Tensor A) (axis : Z) : Tensor A :=
  let ax := norm_axis (length (tshape t)) axis in
  mkTensor (remove_nth ax (tshape t))
           (fun i => nsum (nth ax (tshape t) O) (fun k => tdata t (insert_nth ax k i))).

Definition reduce_max (t : Tensor R) (axis : Z) : Tensor R :=
  let ax := norm_axis (length (tshape t)) axis in
  mkTensor (remove_nth ax (tshape t))
           (fun i => rmax (nth ax (tshape t) O) (fun k => tdata t (insert_nth ax k i))).

(** [tf.nn.softmax(t, dim)], in exact arithmetic: an entry that the
    float32 code rounds to 0.0 is a small positive real here, and a row
    sums to 1 where the float32 row sums to 1 up to rounding. *)
Definition softmax (t : Tensor R) (dim : Z) : Tensor R :=
  let ax := norm_axis (length (tshape t)) dim in
  mkTensor (tshape t)
           (fun i => exp (tdata t i) /
                     nsum (nth ax (tshape t) O) (fun k => exp (tdata t (set_nth ax k i)))).

(** [tf.tile(t, multiples)]. *)
Fixpoint tile_idx (s : list nat) (i : list nat) : list nat :=
  match s, i with
  | d :: s', k :: i' => (k mod d)%nat :: tile_idx s' i'
  | _, _ => []
  end.

Fixpoint tile_shape (s m : list nat) : list nat :=
  match s, m with
  | d :: s', k :: m' => (d * k)%nat :: tile_shape s' m'
  | _, _ => []
  end.

Definition tile {A} (t : Tensor A) (multiples : list nat) : Tensor A :=
  mkTensor (tile_shape (tshape t) multiples) (fun i => tdata t (tile_idx (tshape t) i)).

(** [tf.concat(ts, axis)]. *)
Fixpoint concat_data {A} (d : A) (ts : list (Tensor A)) (ax : nat) (i : index) : A :=
  match ts with
  | [] => d
  | t :: ts' =>
      let n := nth ax (tshape t) O in
      let k := nth ax i O in
      if (k <? n)%nat then tdata t i else concat_data d ts' ax (set_nth ax (k - n)%nat i)
  end.

Definition concat {A} `{Num A} (ts : list (Tensor A)) (ax : nat) : Tensor A :=
  mkTensor (set_nth ax (fold_right (fun t acc => (nth ax (tshape t) O + acc)%nat) O ts)
                    (match ts with t :: _ => tshape t | [] => [] end))
           (concat_data nzero ts ax).

(** [tf.nn.dropout(x, keep_prob)]: the uniform draw in [[0,1)] of every
    entry is the matching entry of [noise]; an entry is kept, scaled by
    [1/keep_prob], when [keep_prob + noise] reaches 1. *)
Definition dropout (x : Tensor R) (keep_prob : R) (noise : index -> R) : Tensor R :=
  mkTensor (tshape x)
           (fun i => tdata x i / keep_prob * IZR (Int_part (keep_prob + noise i))).

(** [tf.ones(shape)]. *)
Definition ones (s : list nat) : Tensor R := mkTensor s (fun _ => 1).

(** The condition checked by [tf.assert_equal(x, y)]: the two tensors
    agree entry by entry, after broadcasting. *)
Definition assert_equal {A} (x y : Tensor A) : Prop :=
  forall i, in_bounds (broadcast_shape (tshape x) (tshape y)) i ->
            tdata x (bidx (tshape x) i) = tdata y (bidx (tshape y) i).

End tf.

(** ** masked_softmax

    The mask is added as [(1 - mask) * (-1e30)], in exact arithmetic: a
    padded logit is the logit minus 1e30, where float32 addition returns
    the float32 nearest to it (the nearest to -1e30 for every logit of
    ordinary size). *)

Definition masked_softmax (logits : Tensor R) (mask : Tensor Z) (dim : Z)
  : Tensor R * Tensor R :=
  let exp_mask := tf.multiply (tf.subtract (tf.constant 1) (tf.cast mask))
                              (tf.constant (-1e30)) in
  let masked_logits := tf.add logits exp_mask in
  let prob_dist := tf.softmax masked_logits dim in
  (masked_logits, prob_dist).

(** ** Learned parameters

    [tf.get_variable(name, shape, ...)] under a variable scope: the
    values of every trainable variable are held by a store keyed by the
    scoped name. *)

Definition Variables := string -> index -> R.

Definition get_variable (vars : Variables) (scope name : string) (s : list nat)
  : Tensor R :=
  mkTensor s (vars (scope ++ "/" ++ name)%string).

(** ** The attention modules

    Each class is a module: its record holds the fields set by
    [__init__], [nodes] builds the tensors of [build_graph] under their
    Python names and [build_graph] returns the ones the method returns.
    The [print] calls write to the standard output, and the
    [tf.assert_equal] calls add check operations on which no returned
    tensor depends: neither changes a returned value, and both are left
    out.  The condition that the assertion on [sum_alpha] checks is
    [tf.assert_equal]. *)

(** ** SelfAttn *)

Module SelfAttn.

Record t : Type := mk {
  keep_prob : R;
  hidden_size : nat;
  attention_size : nat
}.

(** The nodes that [build_graph] adds to the graph, by their Python names
    ([E0] is [E] before it is reshaped to (BS, N, N)). *)
Record graph : Type := mkGraph {
  values_1 : Tensor R;
  values_2 : Tensor R;
  additive_value : Tensor R;
  E0 : Tensor R;
  E : Tensor R;
  E_mask : Tensor Z;
  attn_p : Tensor R;
  attn_out : Tensor R;
  output : Tensor R
}.

Definition nodes (self : t) (vars : Variables) (noise : index -> R)
    (contexts : Tensor R) (contexts_mask : Tensor Z) : graph :=
  let B := nth 0 (tf.shape contexts) O in
  let N := nth 1 (tf.shape contexts) O in
  let C := attention_size self in
  let weights_1 := get_variable vars "SelfAttn" "W1" [hidden_size self; attention_size self] in
  let weights_2 := get_variable vars "SelfAttn" "W2" [hidden_size self; attention_size self] in
  let v := get_variable vars "SelfAttn" "v" [attention_size self; 1%nat] in
  let values_1 :=
    tf.reshape (tf.matmul (tf.reshape contexts [Z.of_nat (B * N); (-1)%Z]) weights_1)
               [(-1)%Z; Z.of_nat N; Z.of_nat C] in
  let values_2 :=
    tf.reshape (tf.matmul (tf.reshape contexts [Z.of_nat (B * N); (-1)%Z]) weights_2)
               [(-1)%Z; Z.of_nat N; Z.of_nat C] in
  let values_1' := tf.expand_dims values_1 1 in
  let values_2' := tf.expand_dims values_2 2 in
  let additive_value := tf.tanh (tf.add values_1' values_2') in
  let E0 := tf.matmul (tf.reshape additive_value [Z.of_nat (B * N * N); Z.of_nat C]) v in
  let E := tf.reshape E0 [(-1)%Z; Z.of_nat N; Z.of_nat N] in
  let contexts_mask' := tf.expand_dims contexts_mask 2 in
  let E_mask := tf.multiply contexts_mask' (tf.transpose contexts_mask' [0; 2; 1]%nat) in
  let attn_p := snd (masked_softmax E E_mask 2) in
  let attn_out := tf.matmul attn_p contexts in
  let output := tf.dropout attn_out (keep_prob self) noise in
  mkGraph values_1 values_2 additive_value E0 E E_mask attn_p attn_out output.

Definition build_graph (self : t) (vars : Variables) (noise : index -> R)
    (contexts : Tensor R) (contexts_mask : Tensor Z) : Tensor R * Tensor R :=
  let g := nodes self vars noise contexts contexts_mask in
  (attn_p g, output g).

End SelfAttn.

(** ** BidirectionAttn *)

Module BidirectionAttn.

Record t : Type := mk {
  keep_prob : R;
  hidden_size : nat
}.

Definition build_similarity_matrix (self : t) (vars : Variables) (scope : string)
    (questions contexts : Tensor R) : Tensor R :=
  let H := hidden_size self in
  let BS := nth 0 (tf.shape questions) O in
  let N := nth 1 (tf.shape contexts) O in
  let M := nth 1 (tf.shape questions) O in
  let w_sim_1 := get_variable vars scope "w_sim_1" [(2 * H)%nat] in
  let w_sim_2 := get_variable vars scope "w_sim_2" [(2 * H)%nat] in
  let w_sim_3 := get_variable vars scope "w_sim_3" [(2 * H)%nat] in
  let CW :=
    tf.reshape (tf.multiply (tf.reshape contexts [(-1)%Z; Z.of_nat (2 * H)])
                            (tf.expand_dims w_sim_3 0))
               [(-1)%Z; Z.of_nat N; Z.of_nat (2 * H)] in
  let term1 :=
    tf.reshape (tf.matmul (tf.reshape contexts [Z.of_nat (BS * N); Z.of_nat (2 * H)])
                          (tf.expand_dims w_sim_1 (-1)))
               [(-1)%Z; Z.of_nat N] in
  let term2 :=
    tf.reshape (tf.matmul (tf.reshape questions [Z.of_nat (BS * M); Z.of_nat (2 * H)])
                          (tf.expand_dims w_sim_2 (-1)))
               [(-1)%Z; Z.of_nat M] in
  let term3 := tf.matmul CW (tf.transpose questions [0; 2; 1]%nat) in
  tf.add (tf.add (tf.reshape term1 [(-1)%Z; Z.of_nat N; 1%Z]) term3)
         (tf.reshape term2 [(-1)%Z; 1%Z; Z.of_nat M]).

(** The nodes that [build_graph] adds to the graph, by their Python names
    ([S0] is [S] before it is rebound to the masked logits, [beta_t] and
    [q2c_tiled] the rebound [beta] and [q2c_output]). *)
Record graph : Type := mkGraph {
  S0 : Tensor R;
  S_mask : Tensor Z;
  S : Tensor R;
  alpha : Tensor R;
  sum_alpha : Tensor R;
  c2q_output : Tensor R;
  m : Tensor R;
  beta : Tensor R;
  beta_t : Tensor R;
  q2c_output : Tensor R;
  q2c_tiled : Tensor R;
  fused : Tensor R;
  output : Tensor R
}.

Definition nodes (self : t) (vars : Variables) (noise : index -> R)
    (questions : Tensor R) (questions_mask : Tensor Z)
    (contexts : Tensor R) (contexts_mask : Tensor Z) : graph :=
  let H := hidden_size self in
  let BS := nth 0 (tf.shape questions) O in
  let N := nth 1 (tf.shape contexts) O in
  let M := nth 1 (tf.shape questions) O in
  let S0 := build_similarity_matrix self vars "BidirectionAttn" questions contexts in
  let questions_mask' := tf.expand_dims questions_mask (-1) in
  let contexts_mask' := tf.expand_dims contexts_mask (-1) in
  let S_mask := tf.matmul contexts_mask' (tf.transpose questions_mask' [0; 2; 1]%nat) in
  let '(S, alpha) := masked_softmax S0 S_mask 2 in
  let sum_alpha := tf.reduce_sum alpha 2 in
  let c2q_output := tf.matmul alpha questions in
  let m := tf.reduce_max S 2 in
  let beta := tf.expand_dims (tf.softmax m (-1)) (-1) in
  let beta_t := tf.transpose beta [0; 2; 1]%nat in
  let q2c_output := tf.matmul beta_t contexts in
  let q2c_tiled := tf.tile q2c_output [1; N; 1]%nat in
  let fused :=
    tf.concat [c2q_output; tf.multiply c2q_output contexts;
               tf.multiply q2c_tiled contexts] 2 in
  let output := tf.dropout fused (keep_prob self) noise in
  mkGraph S0 S_mask S alpha sum_alpha c2q_output m beta beta_t q2c_output
          q2c_tiled fused output.

Definition build_graph (self : t) (vars : Variables) (noise : index -> R)
    (questions : Tensor R) (questions_mask : Tensor Z)
    (contexts : Tensor R) (contexts_mask : Tensor Z)
  : Tensor R * Tensor R * Tensor R :=
  let g := nodes self vars noise questions questions_mask contexts contexts_mask in
  let N := nth 1 (tf.shape contexts) O in
  (alpha g, tf.reshape (beta_t g) [(-1)%Z; Z.of_nat N], output g).

End BidirectionAttn.

(** ** BasicAttn *)

Module BasicAttn.

Record t : Type := mk {
  keep_prob : R;
  key_vec_size : nat;
  value_vec_size : nat
}.

Record graph : Type := mkGraph {
  attn_logits : Tensor R;
  attn_logits_mask : Tensor Z;
  attn_dist : Tensor R;
  attn_out : Tensor R;
  output : Tensor R
}.

Definition nodes (self : t) (noise : index -> R)
    (values : Tensor R) (values_mask : Tensor Z) (keys : Tensor R) : graph :=
  let values_t := tf.transpose values [0; 2; 1]%nat in
  let attn_logits := tf.matmul keys values_t in
  let attn_logits_mask := tf.expand_dims values_mask 1 in
  let attn_dist := snd (masked_softmax attn_logits attn_logits_mask 2) in
  let attn_out := tf.matmul attn_dist values in
  let output := tf.dropout attn_out (keep_prob self) noise in
  mkGraph attn_logits attn_logits_mask attn_dist attn_out output.

Definition build_graph (self : t) (noise : index -> R)
    (values : Tensor R) (values_mask : Tensor Z) (keys : Tensor R)
  : Tensor R * Tensor R :=
  let g := nodes self noise values values_mask keys in
  (attn_dist g, output g).

End BasicAttn.

(** ** Errors

    The Python exceptions that the encoder can raise. *)

Inductive exn : Type := IndexError | ValueError.

Inductive result (A : Type) : Type :=
| Ok (a : A)
| Raise (e : exn).
Arguments Ok {A} _.
Arguments Raise {A} _.

Definition bind {A B} (r : result A) (f : A -> result B) : result B :=
  match r with
  | Ok a => f a
  | Raise e => Raise e
  end.

Notation "x <- r ;; k" := (bind r (fun x => k))
  (at level 61, r at next level, right associativity).

(** [l[n]] for a non-negative [n]. *)
Definition list_get {A} (l : list A) (n : nat) : result A :=
  match nth_error l n with
  | Some a => Ok a
  | None => Raise IndexError
  end.

(** ** Recurrent cells and the recurrent drivers of TensorFlow *)

Inductive rnn_cell : Type :=
| GRUCell (num_units : nat)
| BasicLSTMCell (num_units : nat)
| DropoutWrapper (cell : rnn_cell) (input_keep_prob : R).

(** The state of a cell: one tensor (B, H) for a GRU, two for an LSTM. *)
Definition State := list (Tensor R).

(** What the trained weights of the basic cells compute in one time step:
    from the variable scope of the cell, a batch of inputs (B, D) and a
    state, the outputs (B, H) and the next state. *)
Record Kernels : Type := mkKernels {
  gru_step : nat -> string -> Tensor R -> State -> Tensor R * State;
  lstm_step : nat -> string -> Tensor R -> State -> Tensor R * State
}.

(** The uniform draws of every dropout operation of a graph, keyed by
    the operation. *)
Definition Noise := list nat -> index -> R.

(** One call of a cell; [DropoutWrapper] drops inputs before the call. *)
Fixpoint cell_call (K : Kernels) (c : rnn_cell) (scope : string)
    (noise : index -> R) (x : Tensor R) (st : State) : Tensor R * State :=
  match c with
  | GRUCell n => gru_step K n scope x st
  | BasicLSTMCell n => lstm_step K n scope x st
  | DropoutWrapper c' kp => cell_call K c' scope noise (tf.dropout x kp noise) st
  end.

Fixpoint output_size (c : rnn_cell) : nat :=
  match c with
  | GRUCell n => n
  | BasicLSTMCell n => n
  | DropoutWrapper c' _ => output_size c'
  end.

Definition zeros (s : list nat) : Tensor R := mkTensor s (fun _ => 0).

Fixpoint zero_state (c : rnn_cell) (batch : nat) : State :=
  match c with
  | GRUCell n => [zeros [batch; n]]
  | BasicLSTMCell n => [zeros [batch; n]; zeros [batch; n]]
  | DropoutWrapper c' _ => zero_state c' batch
  end.

(** [inputs[:, t, :]]. *)
Definition time_slice (inputs : Tensor R) (t : nat) : Tensor R :=
  mkTensor [nth 0 (tshape inputs) O; nth 2 (tshape inputs) O]
           (fun i => match i with
                     | [b; k] => tdata inputs [b; t; k]
                     | _ => 0
                     end).

(** [tf.where(cond, a, b)] with a condition on the batch row. *)
Definition where_rows (cond : nat -> bool) (a b : Tensor R) : Tensor R :=
  mkTensor (tshape b) (fun i => if cond (hd O i) then tdata a i else tdata b i).

(** Whether step [t] is past the length of the sequence of row [b]. *)
Definition finished (lens : Tensor Z) (t : nat) (b : nat) : bool :=
  (tdata lens [b] <=? Z.of_nat t)%Z.

(** The state of [dynamic_rnn] before step [t]: a row whose sequence has
    ended keeps its state. *)
Fixpoint rnn_state (K : Kernels) (c : rnn_cell) (scope : string)
    (noise : nat -> index -> R) (inputs : Tensor R) (lens : Tensor Z)
    (t : nat) : State :=
  match t with
  | O => zero_state c (nth 0 (tshape inputs) O)
  | S t' =>
      let st := rnn_state K c scope noise inputs lens t' in
      let st' := snd (cell_call K c scope (noise t') (time_slice inputs t') st) in
      List.map (fun p => where_rows (finished lens t') (fst p) (snd p))
               (combine st st')
  end.

(** [tf.nn.dynamic_rnn(cell, inputs, sequence_length)], outputs only:
    zero past the length of a sequence. *)
Definition dynamic_rnn (K : Kernels) (c : rnn_cell) (scope : string)
    (noise : nat -> index -> R) (inputs : Tensor R) (lens : Tensor Z) : Tensor R :=
  mkTensor [nth 0 (tshape inputs) O; nth 1 (tshape inputs) O; output_size c]
           (fun i => match i with
                     | [b; t; k] =>
                         if finished lens t b then 0
                         else tdata (fst (cell_call K c scope (noise t)
                                            (time_slice inputs t)
                                            (rnn_state K c scope noise inputs lens t)))
                                    [b; k]
                     | _ => 0
                     end).

(** [tf.reverse_sequence(x, lens, seq_axis=1, batch_axis=0)]. *)
Definition reverse_sequence (x : Tensor R) (lens : Tensor Z) : Tensor R :=
  mkTensor (tshape x)
           (fun i => match i with
                     | b :: t :: rest =>
                         if finished lens t b then tdata x i
                         else tdata x (b :: (Z.to_nat (tdata lens [b]) - 1 - t)%nat :: rest)
                     | _ => tdata x i
                     end).

(** [tf.nn.bidirectional_dynamic_rnn], outputs only.  The draws of the
    forward pass have the key [0 :: key], those of the backward pass
    [1 :: key], followed by the time step. *)
Definition bidirectional_dynamic_rnn (K : Kernels) (cell_fw cell_bw : rnn_cell)
    (scope : string) (noise : Noise) (key : list nat)
    (inputs : Tensor R) (sequence_length : Tensor Z) : Tensor R * Tensor R :=
  let fw_out := dynamic_rnn K cell_fw (scope ++ "/fw")%string
                            (fun t => noise (O :: key ++ [t]))
                            inputs sequence_length in
  let bw_tmp := dynamic_rnn K cell_bw (scope ++ "/bw")%string
                            (fun t => noise (1%nat :: key ++ [t]))
                            (reverse_sequence inputs sequence_length)
                            sequence_length in
  (fw_out, reverse_sequence bw_tmp sequence_length).

(** The layers of [stack_bidirectional_dynamic_rnn]: each one reads the
    concatenated outputs of the one before. *)
Fixpoint stack_layers (K : Kernels) (cells : list (rnn_cell * rnn_cell))
    (scope : string) (noise : Noise) (layer : nat)
    (prev_layer : Tensor R) (sequence_length : Tensor Z) : Tensor R :=
  match cells with
  | [] => prev_layer
  | (cell_fw, cell_bw) :: cells' =>
      let outputs :=
        bidirectional_dynamic_rnn K cell_fw cell_bw scope noise [layer]
                                  prev_layer sequence_length in
      stack_layers K cells' scope noise (S layer)
                   (tf.concat [fst outputs; snd outputs] 2) sequence_length
  end.

(** [tf.contrib.rnn.stack_bidirectional_dynamic_rnn], outputs only. *)
Definition stack_bidirectional_dynamic_rnn (K : Kernels)
    (cells_fw cells_bw : list rnn_cell) (scope : string) (noise : Noise)
    (inputs : Tensor R) (sequence_length : Tensor Z) : result (Tensor R) :=
  match cells_fw, cells_bw with
  | [], _ => Raise ValueError
  | _, [] => Raise ValueError
  | _, _ =>
      if (length cells_fw =? length cells_bw)%nat
      then Ok (stack_layers K (combine cells_fw cells_bw)
                            (scope ++ "/stack_bidirectional_rnn")%string noise O
                            inputs sequence_length)
      else Raise ValueError
  end.

(** ** RNNEncoder *)

Module RNNEncoder.

Record t : Type := mk {
  hidden_size : nat;
  keep_prob : R;
  num_layers : Z;
  mode : string;
  name : option string;
  rnn_cells_fw : list rnn_cell;
  rnn_cells_bw : list rnn_cell
}.

(** The loop of [__init__]: [n] rounds, each appending one cell to each
    list when the mode is 'GRU' or 'LSTM', and nothing otherwise. *)
Fixpoint init_cells (n : nat) (hidden_size : nat) (keep_prob : R) (mode : string)
    (fw bw : list rnn_cell) : list rnn_cell * list rnn_cell :=
  match n with
  | O => (fw, bw)
  | S n' =>
      if (mode =? "GRU")%string then
        init_cells n' hidden_size keep_prob mode
                   (fw ++ [DropoutWrapper (GRUCell hidden_size) keep_prob])
                   (bw ++ [DropoutWrapper (GRUCell hidden_size) keep_prob])
      else if (mode =? "LSTM")%string then
        init_cells n' hidden_size keep_prob mode
                   (fw ++ [DropoutWrapper (BasicLSTMCell hidden_size) keep_prob])
                   (bw ++ [DropoutWrapper (BasicLSTMCell hidden_size) keep_prob])
      else init_cells n' hidden_size keep_prob mode fw bw
  end.

(** [RNNEncoder(hidden_size, keep_prob, num_layers, mode, name)];
    [range(num_layers)] is empty for a negative number. *)
Definition init (hidden_size : nat) (keep_prob : R) (num_layers : Z)
    (mode : string) (name : option string) : result t :=
  let cells := init_cells (Z.to_nat num_layers) hidden_size keep_prob mode [] [] in
  Ok (mk hidden_size keep_prob num_layers mode name (fst cells) (snd cells)).

Definition build_graph (self : t) (K : Kernels) (noise : Noise)
    (inputs : Tensor R) (masks : Tensor Z) : result (Tensor R) :=
  let scope := match name self with
               | None => "RNNEncoder"%string
               | Some s => s
               end in
  let input_lens := tf.reduce_sum masks 1 in
  out <- (if (num_layers self =? 1)%Z then
            cell_fw <- list_get (rnn_cells_fw self) 0 ;;
            cell_bw <- list_get (rnn_cells_bw self) 0 ;;
            let outs := bidirectional_dynamic_rnn K cell_fw cell_bw
                          (scope ++ "/bidirectional_rnn")%string noise [O]
                          inputs input_lens in
            Ok (tf.concat [fst outs; snd outs] 2)
          else
            stack_bidirectional_dynamic_rnn K (rnn_cells_fw self) (rnn_cells_bw self)
                                            scope noise inputs input_lens) ;;
  Ok (tf.dropout out (keep_prob self) (noise [])).

End RNNEncoder.

(** ** Dropout draws *)

(** Draws of [random_uniform]: every entry lies in [[0, 1)]. *)
Definition valid_draws (u : index -> R) : Prop := forall i, 0 <= u i < 1.

Definition valid_noise (n : Noise) : Prop := forall key, valid_draws (n key).

(** A cell whose every dropout wrapper keeps all its inputs. *)
Fixpoint keeps_all (c : rnn_cell) : Prop :=
  match c with
  | DropoutWrapper c' kp => kp = 1 /\ keeps_all c'
  | _ => True
  end.

(** ** Notions used in the statements *)

(** The masked logits of a row [x] under the mask row [mk], as
    [masked_softmax] computes them entry by entry. *)
Definition masked_row (x : nat -> R) (mk : nat -> Z) (k : nat) : R :=
  x k + (1 - IZR (mk k)) * (-1e30).

Definition softmax_row (n : nat) (x : nat -> R) (k : nat) : R :=
  exp (x k) / nsum n (fun j => exp (x j)).

(** The entries of the row through [i] along the normalisation axis
    [dim] of [logits], and the logits and mask entries of that row. *)
Definition row_of (logits : Tensor R) (dim : Z) (i : index) (k : nat) : index :=
  set_nth (norm_axis (length (tshape logits)) dim) k i.
Definition row_logits (logits : Tensor R) (dim : Z) (i : index) (k : nat) : R :=
  tdata logits (row_of logits dim i k).
Definition row_mask (logits : Tensor R) (mask : Tensor Z) (dim : Z) (i : index)
    (k : nat) : Z :=
  tdata mask (row_of logits dim i k).

(** The scalar product of two vectors of length [n]. *)
Definition dot (n : nat) (u v : nat -> R) : R := nsum n (fun k => u k * v k).

(** The learned vector [name] of a scope, entry by entry. *)
Definition weight (vars : Variables) (scope name : string) (k : nat) : R :=
  vars (scope ++ "/" ++ name)%string [k].

(** The hidden vector at one position of a batch element. *)
Definition vec_at (t : Tensor R) (b i : nat) (k : nat) : R := tdata t [b; i; k].

(** The sub-expressions of [build_similarity_matrix], for a batch size
    [B], a context length [N] and a width [D]: [proj t L w] is [term1]
    (for the contexts) and [term2] (for the questions), [w3e] the expanded
    [w_sim_3], [flat] the contexts reshaped to (-1, 2H). *)
Definition proj (vars : Variables) (scope : string) (B D : nat)
    (t : Tensor R) (L : nat) (w : string) : Tensor R :=
  tf.reshape (tf.matmul (tf.reshape t [Z.of_nat (B * L); Z.of_nat D])
                        (tf.expand_dims (get_variable vars scope w [D]) (-1)))
             [(-1)%Z; Z.of_nat L].
Definition w3e (vars : Variables) (scope : string) (D : nat) : Tensor R :=
  tf.expand_dims (get_variable vars scope "w_sim_3" [D]) 0.
Definition flat (contexts : Tensor R) (D : nat) : Tensor R :=
  tf.reshape contexts [(-1)%Z; Z.of_nat D].
Definition CW (vars : Variables) (scope : string) (contexts : Tensor R)
    (N D : nat) : Tensor R :=
  tf.reshape (tf.multiply (flat contexts D) (w3e vars scope D))
             [(-1)%Z; Z.of_nat N; Z.of_nat D].
Definition term3 (vars : Variables) (scope : string)
    (questions contexts : Tensor R) (N D : nat) : Tensor R :=
  tf.matmul (CW vars scope contexts N D) (tf.transpose questions [0; 2; 1]%nat).

(** ** Concrete inputs

    The inputs at which the statements below are evaluated. *)
Module Examples.




(** A batch of one question and one context position of width 2, all
    entries and all learned weights 1, both positions padding. *)
Definition ones3 (a b c : nat) : Tensor R := mkTensor [a; b; c] (fun _ => 1).
Definition zeros2 (a b : nat) : Tensor Z := mkTensor [a; b] (fun _ => 0%Z).
Definition unit_vars : Variables := fun _ _ => 1.
Definition bidaf : BidirectionAttn.t := BidirectionAttn.mk 1 1.
Definition no_noise : index -> R := fun _ => 0.

(** One key attending to two values, the second one padding with the
    logit 2e30; half of the units are kept and the draw is 0. *)
Definition ba_keys : Tensor R := mkTensor [1; 1; 1]%nat (fun _ => 1).
Definition ba_values : Tensor R :=
  mkTensor [1; 2; 1]%nat (fun i => match i with [_; 1%nat; _] => 2e30 | _ => 0 end).
Definition ba_mask : Tensor Z :=
  mkTensor [1; 2]%nat (fun i => match i with [_; O] => 1%Z | _ => 0%Z end).
Definition ba_half : BasicAttn.t := BasicAttn.mk (1 / 2) 1 1.
Definition ba_full : BasicAttn.t := BasicAttn.mk 1 1 1.

(** The same key and mask with the values 1 and 2. *)
Definition ba_plain_values : Tensor R :=
  mkTensor [1; 2; 1]%nat (fun i => match i with [_; 1%nat; _] => 2 | _ => 1 end).

(** A single context position, which is padding. *)
Definition sa_layer : SelfAttn.t := SelfAttn.mk 1 1 1.
Definition sa_contexts : Tensor R := mkTensor [1; 1; 1]%nat (fun _ => 1).
Definition sa_padded : Tensor Z := mkTensor [1; 1]%nat (fun _ => 0%Z).
Definition sa_real : Tensor Z := mkTensor [1; 1]%nat (fun _ => 1%Z).


(** Two sources of draws, and a batch of one sequence of one step. *)
Definition noise_zero : Noise := fun _ _ => 0.
Definition noise_half : Noise := fun _ _ => 1 / 2.
Definition id_kernels : Kernels :=
  mkKernels (fun _ _ x st => (x, st)) (fun _ _ x st => (x, st)).
Definition one_mask : Tensor Z := mkTensor [1; 1]%nat (fun _ => 1%Z).

End Examples.

(** ** Notions used in the statements about the encoder and SelfAttn *)

(** The basic cell of a supported mode. *)
Definition basic_cell (mode : string) (hidden_size : nat) : rnn_cell :=
  if (mode =? "GRU")%string then GRUCell hidden_size else BasicLSTMCell hidden_size.

(** An output that is zero wherever the sequence of its row has ended. *)
Definition zero_past (lens : Tensor Z) (x : Tensor R) : Prop :=
  forall b t k, (tdata lens [b] <= Z.of_nat t)%Z -> tdata x [b; t; k] = 0.

(** The learned matrix [name] of SelfAttn, entry by entry. *)
Definition sa_weight (vars : Variables) (name : string) (h c : nat) : R :=
  vars ("SelfAttn/" ++ name)%string [h; c].

(** The projection of the hidden vector at position [i] of batch element
    [b] by the learned matrix [name]. *)
Definition sa_projection (vars : Variables) (name : string) (contexts : Tensor R)
    (Hd : nat) (b i c : nat) : R :=
  nsum Hd (fun h => tdata contexts [b; i; h] * sa_weight vars name h c).

(** ** SimpleSoftmaxLayer *)

Module contrib.

(** [tf.contrib.layers.fully_connected(inputs, num_outputs,
    activation_fn=None)]: the last axis of the inputs is multiplied by the
    learned weights (D, num_outputs) and the learned biases (num_outputs)
    are added. *)
Definition fully_connected (vars : Variables) (scope : string)
    (inputs : Tensor R) (num_outputs : nat) : Tensor R :=
  let D := last (tshape inputs) O in
  let weights := get_variable vars (scope ++ "/fully_connected") "weights"
                              [D; num_outputs] in
  let biases := get_variable vars (scope ++ "/fully_connected") "biases"
                             [num_outputs] in
  mkTensor (removelast (tshape inputs) ++ [num_outputs])
           (fun i => match rev i with
                     | c :: p =>
                         nsum D (fun k => tdata inputs (rev p ++ [k])
                                          * tdata weights [k; c])
                         + tdata biases [c]
                     | [] => 0
                     end).

End contrib.

Module SimpleSoftmaxLayer.

Definition build_graph (vars : Variables) (inputs : Tensor R) (masks : Tensor Z)
  : Tensor R * Tensor R :=
  let logits := contrib.fully_connected vars "SimpleSoftmaxLayer" inputs 1 in
  let logits := tf.squeeze logits 2 in
  let '(masked_logits, prob_dist) := masked_softmax logits masks 1 in
  (masked_logits, prob_dist).

End SimpleSoftmaxLayer.

(** The score that the layer gives to position [t] of batch element [b]:
    the learned linear form of its hidden vector. *)
Definition position_score (vars : Variables) (inputs : Tensor R) (D : nat)
    (b t : nat) : R :=
  nsum D (fun k => tdata inputs [b; t; k]
                   * vars "SimpleSoftmaxLayer/fully_connected/weights"%string [k; O])
  + vars "SimpleSoftmaxLayer/fully_connected/biases"%string [O].

(** ** The entry point ([main.py])

    [main] and [initialize_model] act on the file system, on TensorFlow
    and on the model classes.  Every such action is an event of a trace,
    in the order the code performs it; what the actions return to the
    code (whether a path exists, which checkpoint a directory holds, what
    a JSON file contains) is read from an environment.  The actions are
    taken to return normally, and the [print] calls and the opening and
    closing of sessions are left out. *)

Module Main.

(** The flags that [main] itself reads. *)
Record Flags : Type := mkFlags {
  mode : string;
  experiment_name : string;
  model_name : string;
  embedding_size : Z;
  train_dir : string;
  glove_path : string;
  data_dir : string;
  ckpt_load_dir : string;
  json_in_path : string;
  json_out_path : string;
  ensemble_dir : string;
  ensemble_name : string
}.

(** The model classes that [main] instantiates. *)
Inductive qa_class : Type :=
| QABaselineModel | QABidafModel | QASelfAttnModel | QAStackModel | QAPointerModel.

(** A dictionary from JSON: keys in some order, each bound once. *)
Definition dict := list (string * Tensor R).

Fixpoint dict_get (d : dict) (key : string) : option (Tensor R) :=
  match d with
  | [] => None
  | (k, v) :: d' => if (k =? key)%string then Some v else dict_get d' key
  end.

Fixpoint dict_set (d : dict) (key : string) (v : Tensor R) : dict :=
  match d with
  | [] => [(key, v)]
  | (k, w) :: d' =>
      if (k =? key)%string then (k, v) :: d' else (k, w) :: dict_set d' key v
  end.

(** What the machine answers: [MAIN_DIR]; [os.path.exists];
    the [model_checkpoint_path] of [tf.train.get_checkpoint_state], if the
    directory has a checkpoint state; [tf.gfile.Exists]; the values of
    [len(q2c_attn > 0)] and [len(self_attn > 0)] for the arrays that the
    model returns; and the dictionary that [json.load] reads from a file,
    its arrays being arrays of floats. *)
Record Env : Type := mkEnv {
  main_dir : string;
  path_exists : string -> bool;
  checkpoint_state : string -> option string;
  gfile_exists : string -> bool;
  q2c_attn_len : nat;
  self_attn_len : nat;
  json_load : string -> dict
}.

(** The exceptions that leave [main]. *)
Inductive error : Type :=
| BadFlags (argv : list string)
| WrongPython (major : Z)
| NeedExperimentName
| NoCheckpoint (dir : string)
| EnsembleNeedsJsonIn
| EnsembleNeedsCkptLoadDir
| EnsembleNeedsName
| OfficialEvalNeedsJsonIn
| OfficialEvalNeedsCkptLoadDir
| UnexpectedMode (mode : string)
| NoneAttribute (attr : string)
| ArrayShapeMismatch
| ArrayIndexError.

Inductive event : Type :=
| GetGlove (glove_path : string) (embedding_size : Z)
| NewModel (cls : qa_class)
| Makedirs (path : string)
| AddLogFile (path : string)
| DumpFlags (path : string)
| RestoreModel (ckpt_path : string)
| InitFreshParams
| Train (context qn ans dev_qn dev_context dev_ans : string)
| CheckF1EM (context qn ans dataset : string) (num_samples : Z)
            (print_to_screen : bool)
| GetSpans (context qn ans dataset : string)
| GetC2QAttention (context qn ans dataset : string) (num_samples : Z)
| GetQ2CAttention (context qn ans dataset : string) (num_samples : Z)
| GetSelfAttention (context qn ans dataset : string) (num_samples : Z)
| NpSave (path : string)
| GetJsonData (path : string)
| OpenJson (path : string)
| GenerateDistributions (model : option qa_class)
| GenerateAnswers (model : option qa_class)
| GenerateAnswersFromDist (model : option qa_class) (total_dict : dict)
| WriteJson (path : string).

(** A run: the actions performed, then a value or the exception raised. *)
Inductive outcome (A : Type) : Type :=
| Returns (a : A)
| Raises (e : error).
Arguments Returns {A} _.
Arguments Raises {A} _.

Definition Run (A : Type) : Type := list event * outcome A.

Definition ret {A} (a : A) : Run A := ([], Returns a).
Definition raise {A} (e : error) : Run A := ([], Raises e).
Definition emit (e : event) : Run unit := ([e], Returns tt).

Definition seq {A B} (r : Run A) (k : A -> Run B) : Run B :=
  match snd r with
  | Returns a => (fst r ++ fst (k a), snd (k a))
  | Raises e => (fst r, Raises e)
  end.

Notation "r >> k" := (seq r (fun _ => k)) (at level 62, right associativity).

(** [os.path.join(a, b)] (posixpath). *)
Definition starts_with_slash (s : string) : bool :=
  match s with
  | String c _ => Ascii.eqb c "/"%char
  | EmptyString => false
  end.

Fixpoint ends_with_slash (s : string) : bool :=
  match s with
  | EmptyString => false
  | String c EmptyString => Ascii.eqb c "/"%char
  | String _ s' => ends_with_slash s'
  end.

Definition path_join (a b : string) : string :=
  if starts_with_slash b then b
  else if (a =? "")%string || ends_with_slash a then (a ++ b)%string
  else (a ++ "/" ++ b)%string.

(** [s or t] on strings. *)
Definition str_or (s t : string) : string := if (s =? "")%string then t else s.

Definition DEFAULT_DATA_DIR (env : Env) : string := path_join (main_dir env) "data".
Definition EXPERIMENTS_DIR (env : Env) : string :=
  path_join (main_dir env) "experiments".

(** A method call [model.attr(...)]: on [None] it raises AttributeError. *)
Definition method (model : option qa_class) (attr : string) (e : event) : Run unit :=
  match model with
  | Some _ => emit e
  | None => raise (NoneAttribute attr)
  end.

Definition initialize_model (env : Env) (model : option qa_class)
    (train_dir : string) (expect_exists : bool) : Run unit :=
  let ckpt := checkpoint_state env train_dir in
  let v2_path := match ckpt with
                 | Some p => (p ++ ".index")%string
                 | None => ""%string
                 end in
  match ckpt with
  | Some p =>
      if gfile_exists env p || gfile_exists env v2_path
      then method model "saver" (RestoreModel p)
      else if expect_exists then raise (NoCheckpoint train_dir)
           else emit InitFreshParams
  | None =>
      if expect_exists then raise (NoCheckpoint train_dir)
      else emit InitFreshParams
  end.

(** [a += b] on arrays of floats: [b] must broadcast to the shape of [a],
    which the sum keeps.  The shapes are compared from the last axis. *)
Fixpoint broadcastable_r (sb sa : list nat) : bool :=
  match sb, sa with
  | [], _ => true
  | _ :: _, [] => false
  | db :: sb', da :: sa' =>
      ((db =? da)%nat || (db =? 1)%nat) && broadcastable_r sb' sa'
  end.

Definition broadcastable (sb sa : shape) : bool :=
  broadcastable_r (rev sb) (rev sa).

Definition iadd (a b : Tensor R) : outcome (Tensor R) :=
  if broadcastable (tshape b) (tshape a)
  then Returns (mkTensor (tshape a)
                  (fun i => tdata a i + tdata b (bidx (tshape b) i)))
  else Raises ArrayShapeMismatch.

(** The loop over the items of one prediction file. *)
Fixpoint accumulate (total_dict : dict) (predictions : dict) : outcome dict :=
  match predictions with
  | [] => Returns total_dict
  | (key, item) :: rest =>
      match dict_get total_dict key with
      | None => accumulate (dict_set total_dict key item) rest
      | Some a =>
          match iadd a item with
          | Returns s => accumulate (dict_set total_dict key s) rest
          | Raises e => Raises e
          end
      end
  end.

(** [a[0] /= n; a[1] /= n]. *)
Definition divide_rows (a : Tensor R) (n : R) : outcome (Tensor R) :=
  if (nth 0 (tshape a) O <? 2)%nat then Raises ArrayIndexError
  else Returns (mkTensor (tshape a)
                  (fun i => match i with
                            | r :: _ => if (r <? 2)%nat then tdata a i / n
                                        else tdata a i
                            | [] => tdata a i
                            end)).

Fixpoint divide_all (d : dict) (n : R) : outcome dict :=
  match d with
  | [] => Returns []
  | (key, a) :: rest =>
      match divide_rows a n with
      | Raises e => Raises e
      | Returns a' =>
          match divide_all rest n with
          | Raises e => Raises e
          | Returns rest' => Returns ((key, a') :: rest')
          end
      end
  end.

Definition lift {A} (o : outcome A) : Run A := ([], o).

(** The loop over the prediction files: each is opened and its items are
    added to [total_dict]. *)
Fixpoint read_all (env : Env) (total_dict : dict) (paths : list string) : Run dict :=
  match paths with
  | [] => ret total_dict
  | d :: rest =>
      emit (OpenJson d) >>
      seq (lift (accumulate total_dict (json_load env d)))
          (fun total_dict' => read_all env total_dict' rest)
  end.

(** The two loops of the mode 'ensemble_predict' that build [total_dict]. *)
Definition ensemble_total (env : Env) (ensemble_dir : string) : Run dict :=
  let models := ["stack"; "pointer"]%string in
  let distributions :=
    List.map (fun m => path_join ensemble_dir ("distribution_" ++ m ++ ".json"))
             models in
  seq (read_all env [] distributions)
      (fun total_dict => lift (divide_all total_dict (INR (length models)))).

Definition model_of (model_name : string) : option qa_class :=
  if (model_name =? "baseline")%string then Some QABaselineModel
  else if (model_name =? "bidaf")%string then Some QABidafModel
  else if (model_name =? "selfattn")%string then Some QASelfAttnModel
  else if (model_name =? "stack")%string then Some QAStackModel
  else if (model_name =? "pointer")%string then Some QAPointerModel
  else None.

(** The set-up shared by the modes 'train' and 'test'. *)
Definition setup_train_dir (env : Env) (train_dir bestmodel_dir : string) : Run unit :=
  (if path_exists env train_dir then ret tt else emit (Makedirs train_dir)) >>
  emit (AddLogFile (path_join train_dir "log.txt")) >>
  emit (DumpFlags (path_join train_dir "flags.json")) >>
  (if path_exists env bestmodel_dir then ret tt else emit (Makedirs bestmodel_dir)).

Definition main (env : Env) (unused_argv : list string) (python_major : Z)
    (FLAGS : Flags) : Run unit :=
  if negb (length unused_argv =? 1)%nat then raise (BadFlags unused_argv)
  else if negb (python_major =? 2)%Z then raise (WrongPython python_major)
  else if (experiment_name FLAGS =? "")%string && (train_dir FLAGS =? "")%string
          && negb (mode FLAGS =? "official_eval")%string
          && negb (mode FLAGS =? "ensemble_write")%string
          && negb (mode FLAGS =? "ensemble_predict")%string
  then raise NeedExperimentName
  else
  let train_dir := str_or (train_dir FLAGS)
                          (path_join (EXPERIMENTS_DIR env) (experiment_name FLAGS)) in
  let bestmodel_dir := path_join train_dir "best_checkpoint" in
  let glove_path :=
    str_or (glove_path FLAGS)
           (path_join (DEFAULT_DATA_DIR env)
              ("glove.6B." ++ NilZero.string_of_int (Z.to_int (embedding_size FLAGS))
               ++ "d.txt")) in
  let train_context_path := path_join (data_dir FLAGS) "train.context" in
  let train_qn_path := path_join (data_dir FLAGS) "train.question" in
  let train_ans_path := path_join (data_dir FLAGS) "train.span" in
  let dev_context_path := path_join (data_dir FLAGS) "dev.context" in
  let dev_qn_path := path_join (data_dir FLAGS) "dev.question" in
  let dev_ans_path := path_join (data_dir FLAGS) "dev.span" in
  let small_context_path := path_join (data_dir FLAGS) "small.context" in
  let small_qn_path := path_join (data_dir FLAGS) "small.question" in
  let small_ans_path := path_join (data_dir FLAGS) "small.span" in
  let qa_model := model_of (model_name FLAGS) in
  emit (GetGlove glove_path (embedding_size FLAGS)) >>
  match qa_model with
  | Some cls => emit (NewModel cls)
  | None => ret tt
  end >>
  if (mode FLAGS =? "train")%string then
    setup_train_dir env train_dir bestmodel_dir >>
    initialize_model env qa_model train_dir false >>
    method qa_model "train"
      (Train train_context_path train_qn_path train_ans_path
             dev_qn_path dev_context_path dev_ans_path)
  else if (mode FLAGS =? "test")%string then
    setup_train_dir env train_dir bestmodel_dir >>
    initialize_model env qa_model train_dir false >>
    method qa_model "train"
      (Train small_context_path small_qn_path small_ans_path
             dev_qn_path dev_context_path dev_ans_path)
  else if (mode FLAGS =? "show_examples")%string then
    initialize_model env qa_model bestmodel_dir true >>
    method qa_model "check_f1_em"
      (CheckF1EM dev_context_path dev_qn_path dev_ans_path "dev" 10 true)
  else if (mode FLAGS =? "visualize")%string then
    initialize_model env qa_model bestmodel_dir true >>
    method qa_model "get_spans"
      (GetSpans dev_context_path dev_qn_path dev_ans_path "dev") >>
    emit (NpSave (path_join train_dir "begin_span")) >>
    emit (NpSave (path_join train_dir "end_span")) >>
    emit (NpSave (path_join train_dir "f1_em")) >>
    method qa_model "get_c2q_attention"
      (GetC2QAttention dev_context_path dev_qn_path dev_ans_path "dev" 0) >>
    emit (NpSave (path_join train_dir "c2q_attn")) >>
    method qa_model "get_q2c_attention"
      (GetQ2CAttention dev_context_path dev_qn_path dev_ans_path "dev" 0) >>
    (if (0 <? q2c_attn_len env)%nat
     then emit (NpSave (path_join train_dir "q2c_attn")) else ret tt) >>
    method qa_model "get_self_attention"
      (GetSelfAttention dev_context_path dev_qn_path dev_ans_path "dev" 20) >>
    (if (0 <? self_attn_len env)%nat
     then emit (NpSave (path_join train_dir "self_attn")) else ret tt)
  else if (mode FLAGS =? "ensemble_write")%string then
    if (json_in_path FLAGS =? "")%string then raise EnsembleNeedsJsonIn
    else if (ckpt_load_dir FLAGS =? "")%string then raise EnsembleNeedsCkptLoadDir
    else if (ensemble_name FLAGS =? "")%string then raise EnsembleNeedsName
    else
      emit (GetJsonData (json_in_path FLAGS)) >>
      initialize_model env qa_model (ckpt_load_dir FLAGS) true >>
      emit (GenerateDistributions qa_model) >>
      emit (WriteJson (path_join (ensemble_dir FLAGS)
                         ("distribution_" ++ ensemble_name FLAGS ++ ".json")))
  else if (mode FLAGS =? "ensemble_predict")%string then
    if (json_in_path FLAGS =? "")%string then raise EnsembleNeedsJsonIn
    else
      seq (ensemble_total env (ensemble_dir FLAGS))
          (fun total_dict =>
             emit (GetJsonData (json_in_path FLAGS)) >>
             emit (GenerateAnswersFromDist qa_model total_dict) >>
             emit (WriteJson (json_out_path FLAGS)))
  else if (mode FLAGS =? "official_eval")%string then
    if (json_in_path FLAGS =? "")%string then raise OfficialEvalNeedsJsonIn
    else if (ckpt_load_dir FLAGS =? "")%string then raise OfficialEvalNeedsCkptLoadDir
    else
      emit (GetJsonData (json_in_path FLAGS)) >>
      initialize_model env qa_model (ckpt_load_dir FLAGS) true >>
      emit (GenerateAnswers qa_model) >>
      emit (WriteJson (json_out_path FLAGS))
  else raise (UnexpectedMode (mode FLAGS)).

(** *** Notions used in the statements about the entry point *)

(** Whether [initialize_model] finds a checkpoint to restore in [dir]:
    the directory names one, and its file or its ".index" file exists. *)
Definition has_checkpoint (env : Env) (dir : string) : bool :=
  match checkpoint_state env dir with
  | Some p => gfile_exists env p || gfile_exists env (p ++ ".index")%string
  | None => false
  end.

(** The flags pass the checks at the head of [main]. *)
Definition checks_pass (unused_argv : list string) (python_major : Z)
    (FLAGS : Flags) : Prop :=
  length unused_argv = 1%nat /\ python_major = 2%Z
  /\ (experiment_name FLAGS <> ""%string \/ train_dir FLAGS <> ""%string
      \/ mode FLAGS = "official_eval"%string \/ mode FLAGS = "ensemble_write"%string
      \/ mode FLAGS = "ensemble_predict"%string).

(** The training directory, the directory of the best checkpoint and the
    path of the word vectors that [main] computes from the flags. *)
Definition train_dir_of (env : Env) (FLAGS : Flags) : string :=
  str_or (train_dir FLAGS) (path_join (EXPERIMENTS_DIR env) (experiment_name FLAGS)).
Definition bestmodel_dir_of (env : Env) (FLAGS : Flags) : string :=
  path_join (train_dir_of env FLAGS) "best_checkpoint".
Definition glove_path_of (env : Env) (FLAGS : Flags) : string :=
  str_or (glove_path FLAGS)
         (path_join (DEFAULT_DATA_DIR env)
            ("glove.6B." ++ NilZero.string_of_int (Z.to_int (embedding_size FLAGS))
             ++ "d.txt")).

(** The actions that every run of [main] past the checks starts with. *)
Definition loading (env : Env) (FLAGS : Flags) : list event :=
  GetGlove (glove_path_of env FLAGS) (embedding_size FLAGS)
  :: match model_of (model_name FLAGS) with
     | Some cls => [NewModel cls]
     | None => []
     end.

(** The mode is one of those that [main] dispatches on. *)
Definition known_mode (m : string) : Prop :=
  In m ["train"; "test"; "show_examples"; "visualize"; "ensemble_write";
        "ensemble_predict"; "official_eval"]%string.

(** The actions of training: creating the directories of the experiment,
    logging to it, recording the flags, initialising fresh parameters and
    training. *)
Definition training_action (e : event) : bool :=
  match e with
  | Makedirs _ | AddLogFile _ | DumpFlags _ | InitFreshParams
  | Train _ _ _ _ _ _ => true
  | _ => false
  end.

(** The modes that evaluate a trained model. *)
Definition evaluation_mode (m : string) : Prop :=
  In m ["show_examples"; "visualize"; "ensemble_write"; "ensemble_predict";
        "official_eval"]%string.

(** A trace without any action of training. *)
Definition no_training (tr : list event) : Prop :=
  Forall (fun e => training_action e = false) tr.

(** The model names that [main] knows. *)
Definition model_names : list string :=
  ["baseline"; "bidaf"; "selfattn"; "stack"; "pointer"]%string.

(** The keys of a dictionary, in its order. *)
Definition keys (d : dict) : list string := List.map fst d.

(** The first dimension of every array of [d] is at least 2. *)
Definition two_rows (d : dict) : Prop :=
  Forall (fun kv => (2 <= nth 0 (tshape (snd kv)) O)%nat) d.

(** The arrays that two files give to the same key have the same shape. *)
Definition same_shapes (d1 d2 : dict) : Prop :=
  forall key a b, dict_get d1 key = Some a -> dict_get d2 key = Some b ->
                  tshape b = tshape a.

(** The files that the mode 'ensemble_predict' reads. *)
Definition distribution_file (ensemble_dir m : string) : string :=
  path_join ensemble_dir ("distribution_" ++ m ++ ".json").

(** The value of [total_dict] at a key after the two loops, from the
    entries of the two files at that key. *)
Definition halve_rows (a : Tensor R) : Tensor R :=
  mkTensor (tshape a)
    (fun i => match i with
              | r :: _ => if (r <? 2)%nat then tdata a i / 2 else tdata a i
              | [] => tdata a i
              end).

(** The array after [a += b]. *)
Definition sum_arrays (a b : Tensor R) : Tensor R :=
  mkTensor (tshape a) (fun i => tdata a i + tdata b (bidx (tshape b) i)).

(** The entry of a key after both loops, from its entries in the two files. *)
Definition averaged (x y : option (Tensor R)) : option (Tensor R) :=
  match x, y with
  | Some a, Some b => Some (halve_rows (sum_arrays a b))
  | Some a, None => Some (halve_rows a)
  | None, Some b => Some (halve_rows b)
  | None, None => None
  end.

(** A machine on which no experiment has been run. *)
Definition fresh_env : Env :=
  mkEnv "." (fun _ => false) (fun _ => None) (fun _ => false) 0 0 (fun _ => []).

(** A machine that has a checkpoint in every directory. *)
Definition trained_env : Env :=
  mkEnv "." (fun _ => false) (fun _ => Some "best.ckpt"%string) (fun _ => true) 1 0
        (fun _ => []).

(** A machine with the two prediction files of an ensemble: both answer
    the question q1, only the second answers q2. *)
Definition two_files : Env :=
  mkEnv "." (fun _ => false) (fun _ => None) (fun _ => false) 0 0
        (fun f => if (f =? "ens/distribution_stack.json")%string
                  then [("q1"%string, mkTensor [2; 1]%nat (fun _ => 1))]
                  else [("q1"%string, mkTensor [2; 1]%nat (fun _ => 0));
                        ("q2"%string, mkTensor [2; 1]%nat (fun _ => 1))]).

End Main.

(** * Properties *)

(** ** Sums and maxima *)

Lemma nsum_ext {A} `{Num A} (n : nat) (f g : nat -> A) :
  (forall k, (k < n)%nat -> f k = g k) -> nsum n f = nsum n g.
Proof.
  induction n as [|n IH]; intros Hfg; simpl; [reflexivity|].
  rewrite IH by (intros; apply Hfg; lia).
  rewrite Hfg by lia. reflexivity.
Qed.

Lemma nsum_div (n : nat) (f : nat -> R) (c : R) :
  nsum n (fun k => f k / c) = nsum n f / c.
Proof.
  induction n as [|n IH]; simpl.
  - unfold Rdiv. now rewrite Rmult_0_l.
  - rewrite IH. unfold Rdiv. now rewrite Rmult_plus_distr_r.
Qed.


Lemma nsum_nonneg (n : nat) (f : nat -> R) :
  (forall k, (k < n)%nat -> 0 <= f k) -> 0 <= nsum n f.
Proof.
  induction n as [|n IH]; intros Hf; simpl; [lra|].
  assert (0 <= nsum n f) by (apply IH; intros; apply Hf; lia).
  assert (0 <= f n) by (apply Hf; lia). lra.
Qed.

Lemma nsum_ge_term (n : nat) (f : nat -> R) (k : nat) :
  (forall j, (j < n)%nat -> 0 <= f j) -> (k < n)%nat -> f k <= nsum n f.
Proof.
  induction n as [|n IH]; intros Hf Hk; [lia|]. simpl.
  assert (0 <= nsum n f) by (apply nsum_nonneg; intros; apply Hf; lia).
  assert (0 <= f n) by (apply Hf; lia).
  destruct (Nat.eq_dec k n) as [->|Hne]; [lra|].
  assert (f k <= nsum n f) by (apply IH; [intros; apply Hf|]; lia). lra.
Qed.

Lemma nsum_exp_pos (n : nat) (x : nat -> R) :
  (0 < n)%nat -> 0 < nsum n (fun k => exp (x k)).
Proof.
  intros Hn.
  apply Rlt_le_trans with (exp (x O)); [apply exp_pos|].
  apply (nsum_ge_term n (fun k => exp (x k)) O); [|assumption].
  intros; left; apply exp_pos.
Qed.

Lemma Rabs_le_both (a b : R) : Rabs a <= b -> - b <= a <= b.
Proof. unfold Rabs. destruct (Rcase_abs a); lra. Qed.

(** The softmax of a non-empty row sums to 1. *)
Lemma softmax_row_sum (n : nat) (x : nat -> R) :
  (0 < n)%nat ->
  nsum n (fun k => exp (x k) / nsum n (fun j => exp (x j))) = 1.
Proof.
  intros Hn. rewrite nsum_div.
  pose proof (nsum_exp_pos n x Hn). now field_simplify_eq; [|lra].
Qed.


Lemma rmax_upper (n : nat) (f : nat -> R) (k : nat) :
  (k < n)%nat -> f k <= rmax n f.
Proof.
  induction n as [|n IH]; intros Hk; [lia|].
  destruct n as [|n'].
  - replace k with O by lia. simpl. lra.
  - change (rmax (S (S n')) f) with (Rmax (rmax (S n') f) (f (S n'))).
    destruct (Nat.eq_dec k (S n')) as [->|Hne]; [apply Rmax_r|].
    eapply Rle_trans; [apply IH; lia | apply Rmax_l].
Qed.

Lemma rmax_attained (n : nat) (f : nat -> R) :
  (0 < n)%nat -> exists k, (k < n)%nat /\ rmax n f = f k.
Proof.
  induction n as [|n IH]; intros Hn; [lia|].
  destruct n as [|n'].
  - exists O. split; [lia | reflexivity].
  - change (rmax (S (S n')) f) with (Rmax (rmax (S n') f) (f (S n'))).
    destruct (IH ltac:(lia)) as [k [Hk Hm]].
    apply Rmax_case_strong; intros _.
    + exists k. split; [lia | assumption].
    + exists (S n'). split; [lia | reflexivity].
Qed.

(** ** Indices and broadcasting *)

Lemma in_bounds_Forall2 (s : shape) (i : index) :
  in_bounds s i <-> Forall2 lt i s.
Proof.
  revert i; induction s as [|d s IH]; intros [|k i]; simpl.
  - split; [constructor | trivial].
  - split; [contradiction | intros Hb; inversion Hb].
  - split; [contradiction | intros Hb; inversion Hb].
  - rewrite IH. split.
    + intros [Hk Hb]. now constructor.
    + intros Hb. inversion Hb; subst. now split.
Qed.

Lemma Forall2_lt_rev (i s : list nat) :
  Forall2 lt i s -> Forall2 lt (rev i) (rev s).
Proof.
  induction 1; simpl; [constructor|].
  apply Forall2_app; [assumption | repeat constructor; assumption].
Qed.

Lemma bidx_r_same (s i : list nat) : Forall2 lt i s -> bidx_r s i = i.
Proof.
  induction 1 as [|k d i s Hk _ IH]; simpl; [reflexivity|].
  rewrite IH. destruct (Nat.eqb_spec d 1); [f_equal; lia | reflexivity].
Qed.

(** An operand that already has the shape of the result is read in place. *)
Lemma bidx_same (s : shape) (i : index) : in_bounds s i -> bidx s i = i.
Proof.
  intros Hb. unfold bidx.
  rewrite bidx_r_same by (apply Forall2_lt_rev, in_bounds_Forall2, Hb).
  apply rev_involutive.
Qed.

Lemma bidx_nil (i : index) : bidx [] i = [].
Proof. reflexivity. Qed.

Lemma bshape_r_nil_r (s : list nat) : bshape_r s [] = s.
Proof. destruct s; reflexivity. Qed.

Lemma bshape_r_same (s : list nat) : bshape_r s s = s.
Proof.
  induction s as [|d s IH]; simpl; [reflexivity|].
  rewrite IH. now destruct (d =? 1)%nat.
Qed.

Lemma broadcast_shape_nil_l (s : shape) : broadcast_shape [] s = s.
Proof. unfold broadcast_shape. simpl. apply rev_involutive. Qed.

Lemma broadcast_shape_nil_r (s : shape) : broadcast_shape s [] = s.
Proof. unfold broadcast_shape. simpl. rewrite bshape_r_nil_r. apply rev_involutive. Qed.

Lemma broadcast_shape_same (s : shape) : broadcast_shape s s = s.
Proof. unfold broadcast_shape. rewrite bshape_r_same. apply rev_involutive. Qed.

Lemma in_bounds_length (s : shape) (i : index) :
  in_bounds s i -> length i = length s.
Proof.
  revert i; induction s as [|d s IH]; intros [|k i]; simpl; try tauto.
  intros [_ Hb]. f_equal. now apply IH.
Qed.

Lemma in_bounds_set_nth (s : shape) (i : index) (ax k : nat) :
  in_bounds s i -> (k < nth ax s O)%nat -> in_bounds s (set_nth ax k i).
Proof.
  revert i ax; induction s as [|d s IH]; intros [|x i] ax; simpl; try tauto.
  intros [Hx Hb] Hk. destruct ax as [|ax]; simpl in *; split; auto.
Qed.

Lemma set_nth_set_nth (ax k k' : nat) (i : index) :
  set_nth ax k (set_nth ax k' i) = set_nth ax k i.
Proof.
  revert ax; induction i as [|x i IH]; intros [|ax]; simpl; try reflexivity.
  now rewrite IH.
Qed.

Lemma set_nth_nth (ax : nat) (i : index) : set_nth ax (nth ax i O) i = i.
Proof.
  revert ax; induction i as [|x i IH]; intros [|ax]; simpl; try reflexivity.
  now rewrite IH.
Qed.


(** ** One row of masked logits *)

Lemma masked_row_valid (x : nat -> R) (mk : nat -> Z) (k : nat) :
  mk k = 1%Z -> masked_row x mk k = x k.
Proof. unfold masked_row. intros ->. lra. Qed.

Lemma masked_row_padded (x : nat -> R) (mk : nat -> Z) (k : nat) :
  mk k = 0%Z -> masked_row x mk k = x k - 1e30.
Proof. unfold masked_row. intros ->. lra. Qed.

Lemma softmax_row_pos (n : nat) (x : nat -> R) (k : nat) :
  (0 < n)%nat -> 0 < softmax_row n x k.
Proof.
  intros Hn. unfold softmax_row.
  apply Rdiv_lt_0_compat; [apply exp_pos | now apply nsum_exp_pos].
Qed.

Lemma softmax_row_total (n : nat) (x : nat -> R) :
  (0 < n)%nat -> nsum n (softmax_row n x) = 1.
Proof. intros Hn. unfold softmax_row. now apply softmax_row_sum. Qed.

(** Two entries of one softmax row differ by the exponential of the
    difference of their logits. *)
Lemma softmax_row_ratio (n : nat) (x : nat -> R) (j k : nat) :
  (0 < n)%nat ->
  softmax_row n x j = softmax_row n x k * exp (x j - x k).
Proof.
  intros Hn. unfold softmax_row.
  pose proof (nsum_exp_pos n x Hn). pose proof (exp_pos (x k)).
  unfold Rminus. rewrite exp_plus, exp_Ropp. field. split; lra.
Qed.

Lemma softmax_row_le_1 (n : nat) (x : nat -> R) (k : nat) :
  (k < n)%nat -> softmax_row n x k <= 1.
Proof.
  intros Hk. unfold softmax_row.
  assert (Hn : (0 < n)%nat) by lia.
  pose proof (nsum_exp_pos n x Hn) as Hpos.
  apply Rmult_le_reg_r with (nsum n (fun j => exp (x j))); [assumption|].
  unfold Rdiv. rewrite Rmult_assoc, Rinv_l by lra. rewrite Rmult_1_r, Rmult_1_l.
  apply (nsum_ge_term n (fun j => exp (x j)) k); [|assumption].
  intros; left; apply exp_pos.
Qed.

(** A padded entry of a row that has a valid entry [u]: its probability
    is the one of [u] scaled by [exp (x p - x u - 1e30)]. *)
Lemma masked_row_padded_ratio (n : nat) (x : nat -> R) (mk : nat -> Z) (p u : nat) :
  (0 < n)%nat -> mk p = 0%Z -> mk u = 1%Z ->
  softmax_row n (masked_row x mk) p
  = softmax_row n (masked_row x mk) u * exp (x p - x u - 1e30).
Proof.
  intros Hn Hp Hu. rewrite (softmax_row_ratio n _ p u Hn).
  rewrite (masked_row_padded x mk p Hp), (masked_row_valid x mk u Hu).
  do 2 f_equal. lra.
Qed.

Lemma masked_row_padded_bound (n : nat) (x : nat -> R) (mk : nat -> Z)
    (p u : nat) (B : R) :
  (u < n)%nat -> mk p = 0%Z -> mk u = 1%Z ->
  Rabs (x p) <= B -> Rabs (x u) <= B ->
  softmax_row n (masked_row x mk) p <= exp (2 * B - 1e30).
Proof.
  intros Hu Hp Hmu Hbp Hbu.
  rewrite (masked_row_padded_ratio n x mk p u) by (assumption || lia).
  pose proof (softmax_row_le_1 n (masked_row x mk) u Hu) as H1.
  pose proof (exp_pos (x p - x u - 1e30)) as He.
  apply Rle_trans with (exp (x p - x u - 1e30)).
  - rewrite <- (Rmult_1_l (exp (x p - x u - 1e30))) at 2.
    apply Rmult_le_compat_r; lra.
  - apply Rabs_le_both in Hbp, Hbu.
    destruct (Req_dec (x p - x u - 1e30) (2 * B - 1e30)) as [->|Hne]; [lra|].
    left. apply exp_increasing. lra.
Qed.


(** ** masked_softmax, entry by entry *)

Lemma masked_softmax_shape (logits : Tensor R) (mask : Tensor Z) (dim : Z) :
  tshape (fst (masked_softmax logits mask dim))
  = broadcast_shape (tshape logits) (tshape mask)
  /\ tshape (snd (masked_softmax logits mask dim))
     = broadcast_shape (tshape logits) (tshape mask).
Proof.
  unfold masked_softmax; simpl.
  now rewrite broadcast_shape_nil_l, broadcast_shape_nil_r.
Qed.

Lemma masked_logits_data (logits : Tensor R) (mask : Tensor Z) (dim : Z) (i : index) :
  let sm := tshape mask in
  tdata (fst (masked_softmax logits mask dim)) i
  = tdata logits (bidx (tshape logits) i)
    + (1 - IZR (tdata mask (bidx sm (bidx sm (bidx sm i))))) * (-1e30).
Proof.
  unfold masked_softmax; simpl.
  now rewrite broadcast_shape_nil_l, broadcast_shape_nil_r.
Qed.

Lemma masked_softmax_data (logits : Tensor R) (mask : Tensor Z) (dim : Z) (i : index) :
  let ml := fst (masked_softmax logits mask dim) in
  let ax := norm_axis (length (tshape ml)) dim in
  tdata (snd (masked_softmax logits mask dim)) i
  = softmax_row (nth ax (tshape ml) O) (fun k => tdata ml (set_nth ax k i))
                (nth ax i O).
Proof.
  unfold masked_softmax, softmax_row; simpl.
  now rewrite set_nth_nth.
Qed.

(** With a mask of the shape of the logits, each row is a [masked_row]. *)
Lemma masked_logits_same_shape (logits : Tensor R) (mask : Tensor Z) (dim : Z)
    (i : index) :
  tshape mask = tshape logits -> in_bounds (tshape logits) i ->
  tdata (fst (masked_softmax logits mask dim)) i
  = tdata logits i + (1 - IZR (tdata mask i)) * (-1e30).
Proof.
  intros Hs Hb. rewrite masked_logits_data. cbv zeta. rewrite Hs.
  repeat rewrite (bidx_same _ i) by assumption. reflexivity.
Qed.

Lemma softmax_row_ext (n : nat) (x y : nat -> R) (k : nat) :
  (forall j, (j < n)%nat -> x j = y j) -> (k < n)%nat ->
  softmax_row n x k = softmax_row n y k.
Proof.
  intros Hxy Hk. unfold softmax_row. rewrite (Hxy k Hk).
  f_equal. apply nsum_ext. intros j Hj. now rewrite Hxy.
Qed.

Lemma nth_set_nth (ax k : nat) (i : index) :
  (ax < length i)%nat -> nth ax (set_nth ax k i) O = k.
Proof.
  revert ax; induction i as [|x i IH]; intros [|ax]; simpl; try lia.
  intros Hax. apply IH. lia.
Qed.

Section MaskedSoftmaxRows.

Variable logits : Tensor R.
Variable mask : Tensor Z.
Variable dim : Z.
Variable i : index.

Let s := tshape logits.
Let ax := norm_axis (length s) dim.
Let n := nth ax s O.

Local Abbreviation row_of := (row_of logits dim i) (only parsing).
Local Abbreviation row_logits := (row_logits logits dim i) (only parsing).
Local Abbreviation row_mask := (row_mask logits mask dim i) (only parsing).

Hypothesis Hshape : tshape mask = tshape logits.
Hypothesis Hax : (ax < length s)%nat.
Hypothesis Hi : in_bounds s i.

Lemma row_of_in_bounds (k : nat) : (k < n)%nat -> in_bounds s (row_of k).
Proof. intros Hk. now apply in_bounds_set_nth. Qed.


Lemma masked_logits_row (k : nat) :
  (k < n)%nat ->
  tdata (fst (masked_softmax logits mask dim)) (row_of k)
  = masked_row row_logits row_mask k.
Proof.
  intros Hk. rewrite masked_logits_same_shape; auto.
  now apply row_of_in_bounds.
Qed.

Lemma masked_softmax_row (k : nat) :
  (k < n)%nat ->
  tdata (snd (masked_softmax logits mask dim)) (row_of k)
  = softmax_row n (masked_row row_logits row_mask) k.
Proof.
  intros Hk. rewrite masked_softmax_data. cbv zeta.
  destruct (masked_softmax_shape logits mask dim) as [Hs1 _].
  rewrite Hs1, Hshape, broadcast_shape_same.
  fold s ax n. unfold row_of at 2. fold s ax.
  rewrite nth_set_nth by (rewrite (in_bounds_length s i Hi); exact Hax).
  apply softmax_row_ext; [|assumption].
  intros j Hj. unfold row_of at 1. fold s ax.
  rewrite set_nth_set_nth. now apply masked_logits_row.
Qed.

End MaskedSoftmaxRows.







(** The exponential is monotone. *)
Lemma exp_le (x y : R) : x <= y -> exp x <= exp y.
Proof. intros [Hlt | ->]; [left; now apply exp_increasing | lra]. Qed.






(** ** Reshaping *)

Lemma ravel_lt (s : shape) (i : index) :
  in_bounds s i -> (ravel s i < numel s)%nat.
Proof.
  revert i; induction s as [|d s IH]; intros [|k i]; simpl; try tauto; try lia.
  intros [Hk Hb]. specialize (IH i Hb).
  change (fold_right Nat.mul 1%nat s) with (numel s). nia.
Qed.

(** Row-major offsets identify the entries of a tensor. *)
Lemma unravel_ravel (s : shape) (i : index) :
  in_bounds s i -> unravel s (ravel s i) = i.
Proof.
  revert i; induction s as [|d s IH]; intros [|k i]; simpl; try tauto.
  intros [Hk Hb]. pose proof (ravel_lt s i Hb) as Hlt.
  rewrite Nat.div_add_l by lia.
  rewrite Nat.div_small, Nat.add_0_r by assumption.
  rewrite Nat.add_comm, Nat.Div0.mod_add, Nat.mod_small by assumption.
  now rewrite IH.
Qed.

Lemma Z_of_nat_ltb0 (n : nat) : (Z.of_nat n <? 0)%Z = false.
Proof. apply Z.ltb_ge. lia. Qed.

Lemma infer_shape_known (total : nat) (ds : list nat) :
  tf.infer_shape total (List.map Z.of_nat ds) = ds.
Proof.
  unfold tf.infer_shape. rewrite map_map.
  rewrite <- (map_id ds) at 2. apply map_ext.
  intros d. now rewrite Z_of_nat_ltb0, Nat2Z.id.
Qed.

Lemma infer_shape_head (total : nat) (ds : list nat) :
  tf.infer_shape total ((-1)%Z :: List.map Z.of_nat ds)
  = (total / numel ds)%nat :: ds.
Proof.
  unfold tf.infer_shape. simpl. f_equal.
  - f_equal. induction ds as [|d ds IH]; simpl; [reflexivity|].
    now rewrite Z_of_nat_ltb0, Nat2Z.id, IH.
  - rewrite map_map. rewrite <- (map_id ds) at 2. apply map_ext.
    intros d. now rewrite Z_of_nat_ltb0, Nat2Z.id.
Qed.

Lemma infer_shape_last (total a : nat) :
  tf.infer_shape total [Z.of_nat a; (-1)%Z] = [a; (total / a)%nat].
Proof.
  unfold tf.infer_shape. simpl.
  now rewrite Z_of_nat_ltb0, Nat2Z.id, Nat.mul_1_r.
Qed.

(** An entry of a reshaped tensor is the entry of the same offset. *)
Lemma reshape_at {A} (t : Tensor A) (dims : list Z) (i' i : index) :
  in_bounds (tshape t) i ->
  ravel (tf.infer_shape (numel (tshape t)) dims) i' = ravel (tshape t) i ->
  tdata (tf.reshape t dims) i' = tdata t i.
Proof.
  intros Hb Hr. unfold tf.reshape. simpl. rewrite Hr.
  now rewrite unravel_ravel.
Qed.

Lemma bsel_lt (d k : nat) : (k < d)%nat -> (if (d =? 1)%nat then O else k) = k.
Proof. intros Hk. destruct (Nat.eqb_spec d 1); lia. Qed.

Lemma bsel_same (a : nat) : (if (a =? 1)%nat then a else a) = a.
Proof. now destruct (a =? 1)%nat. Qed.

Lemma bsel_one (a : nat) : (if (a =? 1)%nat then 1%nat else a) = a.
Proof. destruct (Nat.eqb_spec a 1); congruence. Qed.

(** ** Shapes and entries of composite operations *)

Ltac div_exact q :=
match goal with
| |- context [Nat.div ?a ?b] =>
    replace (Nat.div a b) with q
      by (apply Nat.div_unique_exact; cbn [numel fold_right]; [lia | ring])
end.

Ltac norm_ax :=
repeat match goal with
| |- context [norm_axis ?r ?a] =>
    let v := eval vm_compute in (norm_axis r a) in
    change (norm_axis r a) with v
end.

(** ** The similarity matrix of BidirectionAttn *)

Section SimilarityMatrix.
Variable self : BidirectionAttn.t.
Variable vars : Variables.
Variable scope : string.
Variables questions contexts : Tensor R.
Variables B N M D : nat.
Hypothesis HD : (2 * BidirectionAttn.hidden_size self)%nat = D.
Hypothesis Hq : tshape questions = [B; M; D].
Hypothesis Hc : tshape contexts = [B; N; D].
Hypothesis HN : (0 < N)%nat.
Hypothesis HM : (0 < M)%nat.
Hypothesis HDpos : (0 < D)%nat.

Lemma merge_rows_shape (t : Tensor R) (L : nat) :
  tshape t = [B; L; D] ->
  tshape (tf.reshape t [Z.of_nat (B * L); Z.of_nat D]) = [(B * L)%nat; D].
Proof. intros Ht. unfold tf.reshape. cbn [tshape]. apply (infer_shape_known _ [(B*L)%nat; D]). Qed.

Lemma merge_rows_data (t : Tensor R) (L b i k : nat) :
  tshape t = [B; L; D] -> (b < B)%nat -> (i < L)%nat -> (k < D)%nat ->
  tdata (tf.reshape t [Z.of_nat (B * L); Z.of_nat D]) [(b * L + i)%nat; k] = tdata t [b; i; k].
Proof.
  intros Ht Hb Hi Hk. apply reshape_at.
  - rewrite Ht. simpl. tauto.
  - rewrite (infer_shape_known _ [(B*L)%nat; D]), Ht. simpl. ring.
Qed.

Local Abbreviation proj := (proj vars scope B D) (only parsing).

Lemma proj_mm_shape t L w : tshape t = [B; L; D] ->
  tshape (tf.matmul (tf.reshape t [Z.of_nat (B * L); Z.of_nat D])
                        (tf.expand_dims (get_variable vars scope w [D]) (-1))) = [(B*L)%nat; 1%nat].
Proof.
  intros Ht.  unfold tf.matmul. cbn [tshape]. rewrite merge_rows_shape by assumption.
  unfold tf.expand_dims, get_variable. cbn [tshape length]. norm_ax. reflexivity.
Qed.

Lemma proj_shape t L w : tshape t = [B; L; D] -> (0 < L)%nat -> tshape (proj t L w) = [B; L].
Proof.
  intros Ht HL. unfold proj, tf.reshape at 1. cbn [tshape].
  rewrite (infer_shape_head _ [L]). rewrite proj_mm_shape by assumption.
  div_exact B. reflexivity.
Qed.

Lemma proj_data t L w b i : tshape t = [B; L; D] -> (b < B)%nat -> (i < L)%nat ->
  tdata (proj t L w) [b; i] = nsum D (fun k => tdata t [b; i; k] * vars (scope ++ "/" ++ w)%string [k]).
Proof.
  intros Ht Hb Hi. unfold proj.
  rewrite (reshape_at _ _ [b; i] [(b * L + i)%nat; O]).
  - unfold tf.matmul at 1. cbn [tdata rev app]. rewrite merge_rows_shape by assumption.
    cbn [last]. apply nsum_ext. intros k Hk. cbn [nmul Num_R].
    rewrite merge_rows_data by assumption.
    unfold tf.expand_dims, get_variable. cbn [tshape tdata length]. norm_ax. reflexivity.
  - rewrite proj_mm_shape by assumption. simpl. split; [nia | lia].
  - rewrite proj_mm_shape by assumption. rewrite (infer_shape_head _ [L]).
    cbn. lia.
Qed.

Local Abbreviation w3e := (w3e vars scope D) (only parsing).
Local Abbreviation flat := (flat contexts D) (only parsing).
Local Abbreviation CW := (CW vars scope contexts N D) (only parsing).

Lemma flat_shape : tshape flat = [(B * N)%nat; D].
Proof.
  unfold flat, tf.reshape. cbn [tshape]. rewrite (infer_shape_head _ [D]), Hc.
  div_exact (B * N)%nat. reflexivity.
Qed.

Lemma flat_data b i k : (b < B)%nat -> (i < N)%nat -> (k < D)%nat ->
  tdata flat [(b * N + i)%nat; k] = tdata contexts [b; i; k].
Proof.
  intros Hb Hi Hk. apply reshape_at.
  - rewrite Hc. simpl. tauto.
  - fold flat. change (tf.infer_shape _ _) with (tshape flat). rewrite flat_shape, Hc. simpl. ring.
Qed.

Lemma scaled_shape : tshape (tf.multiply flat w3e) = [(B * N)%nat; D].
Proof.
  unfold tf.multiply, tf.binop. cbn [tshape]. rewrite flat_shape.
  unfold w3e, tf.expand_dims, get_variable. cbn [tshape length]. norm_ax.
  unfold broadcast_shape. cbn. now rewrite bsel_same, bsel_one.
Qed.

Lemma scaled_data r k : (r < B * N)%nat -> (k < D)%nat ->
  tdata (tf.multiply flat w3e) [r; k] = tdata flat [r; k] * vars (scope ++ "/" ++ "w_sim_3")%string [k].
Proof.
  intros Hr Hk. unfold tf.multiply, tf.binop. cbn [tdata]. rewrite flat_shape.
  unfold w3e, tf.expand_dims, get_variable. cbn [tshape tdata length]. norm_ax.
  unfold bidx. cbn. now rewrite !bsel_lt by assumption.
Qed.

Lemma CW_shape : tshape CW = [B; N; D].
Proof.
  unfold CW, tf.reshape at 1. cbn [tshape]. rewrite (infer_shape_head _ [N; D]), scaled_shape.
  div_exact B. reflexivity.
Qed.

Lemma CW_data b i k : (b < B)%nat -> (i < N)%nat -> (k < D)%nat ->
  tdata CW [b; i; k] = tdata contexts [b; i; k] * vars (scope ++ "/" ++ "w_sim_3")%string [k].
Proof.
  intros Hb Hi Hk. unfold CW.
  rewrite (reshape_at _ _ [b; i; k] [(b * N + i)%nat; k]).
  - rewrite scaled_data by (assumption || nia). now rewrite flat_data.
  - rewrite scaled_shape. simpl. split; [nia | tauto].
  - fold CW. change (tf.infer_shape _ _) with (tshape CW). rewrite CW_shape, scaled_shape. simpl. ring.
Qed.

Local Abbreviation term3 := (term3 vars scope questions contexts N D) (only parsing).

Lemma term3_shape : tshape term3 = [B; N; M].
Proof.
  unfold term3, tf.matmul. cbn [tshape]. rewrite CW_shape.
  unfold tf.transpose. cbn [tshape]. rewrite Hq. reflexivity.
Qed.

Lemma term3_data b i j : (b < B)%nat -> (i < N)%nat -> (j < M)%nat ->
  tdata term3 [b; i; j]
  = nsum D (fun k => tdata contexts [b; i; k] * vars (scope ++ "/" ++ "w_sim_3")%string [k]
                     * tdata questions [b; j; k]).
Proof.
  intros Hb Hi Hj. unfold term3, tf.matmul. cbn [tdata rev app]. rewrite CW_shape.
  cbn [last]. apply nsum_ext. intros k Hk. cbn [nmul Num_R].
  now rewrite CW_data by assumption.
Qed.

Lemma sim_eq : BidirectionAttn.build_similarity_matrix self vars scope questions contexts
  = tf.add (tf.add (tf.reshape (proj contexts N "w_sim_1") [(-1)%Z; Z.of_nat N; 1%Z]) term3)
           (tf.reshape (proj questions M "w_sim_2") [(-1)%Z; 1%Z; Z.of_nat M]).
Proof.
  unfold BidirectionAttn.build_similarity_matrix. rewrite HD.
  unfold tf.shape. rewrite Hq, Hc. reflexivity.
Qed.

Lemma col_shape : tshape (tf.reshape (proj contexts N "w_sim_1") [(-1)%Z; Z.of_nat N; 1%Z]) = [B; N; 1%nat].
Proof.
  unfold tf.reshape at 1. cbn [tshape]. rewrite (infer_shape_head _ [N; 1%nat]), proj_shape by assumption.
  div_exact B. reflexivity.
Qed.

Lemma row_shape : tshape (tf.reshape (proj questions M "w_sim_2") [(-1)%Z; 1%Z; Z.of_nat M]) = [B; 1%nat; M].
Proof.
  unfold tf.reshape at 1. cbn [tshape]. rewrite (infer_shape_head _ [1%nat; M]), proj_shape by assumption.
  div_exact B. reflexivity.
Qed.

Lemma col_data b i : (b < B)%nat -> (i < N)%nat ->
  tdata (tf.reshape (proj contexts N "w_sim_1") [(-1)%Z; Z.of_nat N; 1%Z]) [b; i; O]
  = tdata (proj contexts N "w_sim_1") [b; i].
Proof.
  intros Hb Hi. apply reshape_at.
  - rewrite proj_shape by assumption. simpl. tauto.
  - change (tf.infer_shape _ _) with (tshape (tf.reshape (proj contexts N "w_sim_1") [(-1)%Z; Z.of_nat N; 1%Z])).
    rewrite col_shape, proj_shape by assumption. simpl. ring.
Qed.

Lemma row_data b j : (b < B)%nat -> (j < M)%nat ->
  tdata (tf.reshape (proj questions M "w_sim_2") [(-1)%Z; 1%Z; Z.of_nat M]) [b; O; j]
  = tdata (proj questions M "w_sim_2") [b; j].
Proof.
  intros Hb Hj. apply reshape_at.
  - rewrite proj_shape by assumption. simpl. tauto.
  - change (tf.infer_shape _ _) with (tshape (tf.reshape (proj questions M "w_sim_2") [(-1)%Z; 1%Z; Z.of_nat M])).
    rewrite row_shape, proj_shape by assumption. simpl. ring.
Qed.

Let S := BidirectionAttn.build_similarity_matrix self vars scope questions contexts.

Lemma S_shape : tshape S = [B; N; M].
Proof.
  unfold S. rewrite sim_eq. unfold tf.add, tf.binop. cbn [tshape].
  rewrite col_shape, row_shape, term3_shape. unfold broadcast_shape. cbn.
  now rewrite !bsel_same, !bsel_one.
Qed.

Lemma S_data b i j : (b < B)%nat -> (i < N)%nat -> (j < M)%nat ->
  tdata S [b; i; j]
  = tdata (proj contexts N "w_sim_1") [b; i] + tdata term3 [b; i; j]
    + tdata (proj questions M "w_sim_2") [b; j].
Proof.
  intros Hb Hi Hj.
  unfold S. rewrite sim_eq. unfold tf.add, tf.binop. cbn [tshape tdata].
  rewrite col_shape, row_shape, term3_shape. unfold broadcast_shape, bidx.
  cbn [rev app bidx_r bshape_r Nat.eqb].
  rewrite ?bsel_same, ?bsel_one. cbn [rev app bidx_r bshape_r Nat.eqb].
  repeat (rewrite ?(bsel_lt B b), ?(bsel_lt N i), ?(bsel_lt M j) by assumption).
  now rewrite col_data, row_data by assumption.
Qed.
End SimilarityMatrix.

(** C4: for questions of shape (B, M, 2H) and contexts of shape (B, N, 2H),
    the similarity matrix has shape (B, N, M) and its entry (b, i, j) is
    <w1, c_i> + <w2, q_j> + <w3 o c_i, q_j>, with w1, w2, w3 the learned
    vectors of width 2H. *)
Theorem build_similarity_matrix_trilinear
    (self : BidirectionAttn.t) (vars : Variables) (scope : string)
    (questions contexts : Tensor R) (B N M : nat) :
  let D := (2 * BidirectionAttn.hidden_size self)%nat in
  let S := BidirectionAttn.build_similarity_matrix self vars scope questions contexts in
  let w1 := weight vars scope "w_sim_1" in
  let w2 := weight vars scope "w_sim_2" in
  let w3 := weight vars scope "w_sim_3" in
  tshape questions = [B; M; D] -> tshape contexts = [B; N; D] ->
  (0 < N)%nat -> (0 < M)%nat -> (0 < D)%nat ->
  tshape S = [B; N; M]
  /\ forall b i j, (b < B)%nat -> (i < N)%nat -> (j < M)%nat ->
       let c_i := vec_at contexts b i in
       let q_j := vec_at questions b j in
       tdata S [b; i; j]
       = dot D w1 c_i + dot D w2 q_j + dot D (fun k => w3 k * c_i k) q_j.
Proof.
  intros D S w1 w2 w3 Hq Hc HN HM HD. split.
  - exact (S_shape self vars scope questions contexts B N M D eq_refl Hq Hc HN HM HD).
  - intros b i j Hb Hi Hj c_i q_j. unfold S.
    rewrite (S_data self vars scope questions contexts B N M D eq_refl Hq Hc HN HM HD
               b i j Hb Hi Hj).
    rewrite (proj_data self vars scope B N M D eq_refl HN HM HD contexts N "w_sim_1"
               b i Hc Hb Hi).
    rewrite (proj_data self vars scope B N M D eq_refl HN HM HD questions M "w_sim_2"
               b j Hq Hb Hj).
    rewrite (term3_data self vars scope questions contexts B N M D eq_refl Hc HN HM HD
               b i j Hb Hi Hj).
    unfold dot, w1, w2, w3, weight, c_i, q_j, vec_at.
    rewrite (nsum_ext D (fun k => tdata contexts [b; i; k] * _)
                        (fun k => vars (scope ++ "/" ++ "w_sim_1")%string [k]
                                  * tdata contexts [b; i; k]))
      by (intros; apply Rmult_comm).
    rewrite (nsum_ext D (fun k => tdata questions [b; j; k] * _)
                        (fun k => vars (scope ++ "/" ++ "w_sim_2")%string [k]
                                  * tdata questions [b; j; k]))
      by (intros; apply Rmult_comm).
    rewrite (nsum_ext D (fun k => tdata contexts [b; i; k] * _ * _)
                        (fun k => vars (scope ++ "/" ++ "w_sim_3")%string [k]
                                  * tdata contexts [b; i; k]
                                  * tdata questions [b; j; k]))
      by (intros; ring).
    ring.
Qed.

Lemma build_similarity_matrix_trilinear_witness :
  let S := BidirectionAttn.build_similarity_matrix Examples.bidaf Examples.unit_vars
             "BidirectionAttn" (Examples.ones3 1 1 2) (Examples.ones3 1 1 2) in
  tshape S = [1; 1; 1]%nat /\ tdata S [O; O; O] = 6.
Proof.
  destruct (build_similarity_matrix_trilinear Examples.bidaf Examples.unit_vars
              "BidirectionAttn" (Examples.ones3 1 1 2) (Examples.ones3 1 1 2)
              1 1 1) as [Hs Hd];
    [reflexivity | reflexivity | lia | lia | simpl; lia |].
  split; [exact Hs|].
  rewrite (Hd O O O) by lia.
  unfold dot, weight, vec_at, Examples.unit_vars, Examples.ones3. simpl. lra.
Defined.

(** ** The graph of BidirectionAttn *)

Section BidirectionAttnGraph.
Variable self : BidirectionAttn.t.
Variable vars : Variables.
Variable noise : index -> R.
Variables questions contexts : Tensor R.
Variables questions_mask contexts_mask : Tensor Z.
Variables B N M D : nat.
Hypothesis HD : (2 * BidirectionAttn.hidden_size self)%nat = D.
Hypothesis Hq : tshape questions = [B; M; D].
Hypothesis Hqm : tshape questions_mask = [B; M].
Hypothesis Hc : tshape contexts = [B; N; D].
Hypothesis Hcm : tshape contexts_mask = [B; N].
Hypothesis HN : (0 < N)%nat.
Hypothesis HM : (0 < M)%nat.
Hypothesis HDpos : (0 < D)%nat.

Let g := BidirectionAttn.nodes self vars noise questions questions_mask contexts contexts_mask.

Lemma g_S0 : BidirectionAttn.S0 g
  = BidirectionAttn.build_similarity_matrix self vars "BidirectionAttn" questions contexts.
Proof. reflexivity. Qed.

Lemma g_S_mask : BidirectionAttn.S_mask g
  = tf.matmul (tf.expand_dims contexts_mask (-1))
              (tf.transpose (tf.expand_dims questions_mask (-1)) [0; 2; 1]%nat).
Proof. reflexivity. Qed.

Lemma g_S : BidirectionAttn.S g
  = fst (masked_softmax (BidirectionAttn.S0 g) (BidirectionAttn.S_mask g) 2).
Proof. reflexivity. Qed.

Lemma g_alpha : BidirectionAttn.alpha g
  = snd (masked_softmax (BidirectionAttn.S0 g) (BidirectionAttn.S_mask g) 2).
Proof. reflexivity. Qed.

Lemma g_S0_shape : tshape (BidirectionAttn.S0 g) = [B; N; M].
Proof. rewrite g_S0. exact (S_shape self vars _ questions contexts B N M D HD Hq Hc HN HM HDpos). Qed.

Lemma g_S_mask_shape : tshape (BidirectionAttn.S_mask g) = [B; N; M].
Proof.
  rewrite g_S_mask. unfold tf.matmul, tf.transpose, tf.expand_dims. cbn [tshape].
  rewrite Hqm, Hcm. cbn [length]. norm_ax. reflexivity.
Qed.

Lemma g_S_mask_data b i j : 
  tdata (BidirectionAttn.S_mask g) [b; i; j]
  = (tdata contexts_mask [b; i] * tdata questions_mask [b; j])%Z.
Proof.
  rewrite g_S_mask. unfold tf.matmul, tf.transpose, tf.expand_dims. cbn [tshape tdata].
  rewrite Hqm, Hcm. cbn [length]. norm_ax. cbn. lia.
Qed.

Lemma g_row_of b i k :
  row_of (BidirectionAttn.S0 g) 2 [b; i; O] k = [b; i; k].
Proof. unfold row_of. rewrite g_S0_shape. reflexivity. Qed.

Lemma g_alpha_row b i k : (b < B)%nat -> (i < N)%nat -> (k < M)%nat ->
  tdata (BidirectionAttn.alpha g) [b; i; k]
  = softmax_row M (masked_row (fun j => tdata (BidirectionAttn.S0 g) [b; i; j])
                              (fun j => (tdata contexts_mask [b; i] * tdata questions_mask [b; j])%Z)) k.
Proof.
  intros Hb Hi Hk. rewrite g_alpha, <- (g_row_of b i k).
  rewrite masked_softmax_row.
  - rewrite g_S0_shape. change (nth (norm_axis 3 2) [B; N; M] O) with M.
    apply softmax_row_ext; [|assumption].
    intros j Hj. unfold masked_row, row_logits, row_mask.
    now rewrite g_row_of, g_S_mask_data.
  - now rewrite g_S0_shape, g_S_mask_shape.
  - rewrite g_S0_shape. vm_compute. lia.
  - rewrite g_S0_shape. simpl. tauto.
  - rewrite g_S0_shape. exact Hk.
Qed.

Lemma g_S_data b i j : (b < B)%nat -> (i < N)%nat -> (j < M)%nat ->
  tdata (BidirectionAttn.S g) [b; i; j]
  = masked_row (fun j => tdata (BidirectionAttn.S0 g) [b; i; j])
               (fun j => (tdata contexts_mask [b; i] * tdata questions_mask [b; j])%Z) j.
Proof.
  intros Hb Hi Hj. rewrite g_S, masked_logits_same_shape.
  - now rewrite g_S_mask_data.
  - now rewrite g_S0_shape, g_S_mask_shape.
  - rewrite g_S0_shape. simpl. tauto.
Qed.

Lemma g_alpha_shape : tshape (BidirectionAttn.alpha g) = [B; N; M].
Proof.
  rewrite g_alpha.
  destruct (masked_softmax_shape (BidirectionAttn.S0 g) (BidirectionAttn.S_mask g) 2) as [_ ->].
  now rewrite g_S0_shape, g_S_mask_shape, broadcast_shape_same.
Qed.

Lemma g_S_shape : tshape (BidirectionAttn.S g) = [B; N; M].
Proof.
  rewrite g_S.
  destruct (masked_softmax_shape (BidirectionAttn.S0 g) (BidirectionAttn.S_mask g) 2) as [-> _].
  now rewrite g_S0_shape, g_S_mask_shape, broadcast_shape_same.
Qed.

Lemma g_sum_alpha_shape : tshape (BidirectionAttn.sum_alpha g) = [B; N].
Proof.
  change (BidirectionAttn.sum_alpha g) with (tf.reduce_sum (BidirectionAttn.alpha g) 2).
  unfold tf.reduce_sum. cbn [tshape]. rewrite g_alpha_shape. reflexivity.
Qed.

Lemma g_sum_alpha_data b i : (b < B)%nat -> (i < N)%nat ->
  tdata (BidirectionAttn.sum_alpha g) [b; i] = 1.
Proof.
  intros Hb Hi.
  change (BidirectionAttn.sum_alpha g) with (tf.reduce_sum (BidirectionAttn.alpha g) 2).
  unfold tf.reduce_sum. cbn [tdata]. rewrite g_alpha_shape.
  change (nth (norm_axis (length [B; N; M]) 2) [B; N; M] O) with M.
  change (norm_axis (length [B; N; M]) 2) with 2%nat. cbn [insert_nth].
  rewrite (nsum_ext M _ _ (fun k Hk => g_alpha_row b i k Hb Hi Hk)).
  now apply softmax_row_total.
Qed.

Lemma g_m_shape : tshape (BidirectionAttn.m g) = [B; N].
Proof.
  change (BidirectionAttn.m g) with (tf.reduce_max (BidirectionAttn.S g) 2).
  unfold tf.reduce_max. cbn [tshape]. rewrite g_S_shape. reflexivity.
Qed.

Lemma g_m_data b i :
  tdata (BidirectionAttn.m g) [b; i] = rmax M (fun j => tdata (BidirectionAttn.S g) [b; i; j]).
Proof.
  change (BidirectionAttn.m g) with (tf.reduce_max (BidirectionAttn.S g) 2).
  unfold tf.reduce_max. cbn [tdata]. rewrite g_S_shape. reflexivity.
Qed.

Lemma g_beta_t_shape : tshape (BidirectionAttn.beta_t g) = [B; 1%nat; N].
Proof.
  change (BidirectionAttn.beta_t g)
    with (tf.transpose (tf.expand_dims (tf.softmax (BidirectionAttn.m g) (-1)) (-1)) [0; 2; 1]%nat).
  unfold tf.transpose, tf.expand_dims, tf.softmax. cbn [tshape]. rewrite g_m_shape.
  reflexivity.
Qed.

Lemma g_beta_t_data b i :
  tdata (BidirectionAttn.beta_t g) [b; O; i]
  = softmax_row N (fun i' => tdata (BidirectionAttn.m g) [b; i']) i.
Proof.
  change (BidirectionAttn.beta_t g)
    with (tf.transpose (tf.expand_dims (tf.softmax (BidirectionAttn.m g) (-1)) (-1)) [0; 2; 1]%nat).
  unfold tf.transpose, tf.expand_dims, tf.softmax. cbn [tshape tdata]. rewrite g_m_shape.
  reflexivity.
Qed.

Lemma g_q2c_output_shape : tshape (BidirectionAttn.q2c_output g) = [B; 1%nat; D].
Proof.
  change (BidirectionAttn.q2c_output g) with (tf.matmul (BidirectionAttn.beta_t g) contexts).
  unfold tf.matmul. cbn [tshape]. rewrite g_beta_t_shape, Hc. reflexivity.
Qed.

Lemma g_q2c_output_data b k :
  tdata (BidirectionAttn.q2c_output g) [b; O; k]
  = nsum N (fun i' => tdata (BidirectionAttn.beta_t g) [b; O; i'] * tdata contexts [b; i'; k]).
Proof.
  change (BidirectionAttn.q2c_output g) with (tf.matmul (BidirectionAttn.beta_t g) contexts).
  unfold tf.matmul. cbn [tdata]. rewrite g_beta_t_shape. reflexivity.
Qed.

Lemma g_q2c_tiled_shape : tshape (BidirectionAttn.q2c_tiled g) = [B; N; D].
Proof.
  change (BidirectionAttn.q2c_tiled g)
    with (tf.tile (BidirectionAttn.q2c_output g) [1; nth 1 (tf.shape contexts) O; 1]%nat).
  unfold tf.tile, tf.shape. cbn [tshape]. rewrite g_q2c_output_shape, Hc.
  cbn [nth tf.tile_shape]. f_equal; [lia | f_equal; [lia | f_equal; lia]].
Qed.

Lemma g_q2c_tiled_data b i k : (b < B)%nat -> (k < D)%nat ->
  tdata (BidirectionAttn.q2c_tiled g) [b; i; k] = tdata (BidirectionAttn.q2c_output g) [b; O; k].
Proof.
  intros Hb Hk.
  change (BidirectionAttn.q2c_tiled g)
    with (tf.tile (BidirectionAttn.q2c_output g) [1; nth 1 (tf.shape contexts) O; 1]%nat).
  unfold tf.tile. cbn [tdata]. rewrite g_q2c_output_shape. cbn [tf.tile_idx].
  now rewrite Nat.mod_1_r, !Nat.mod_small by assumption.
Qed.

Lemma g_c2q_shape : tshape (BidirectionAttn.c2q_output g) = [B; N; D].
Proof.
  change (BidirectionAttn.c2q_output g) with (tf.matmul (BidirectionAttn.alpha g) questions).
  unfold tf.matmul. cbn [tshape]. rewrite g_alpha_shape, Hq. reflexivity.
Qed.

Lemma g_fused_eq : BidirectionAttn.fused g
  = tf.concat [BidirectionAttn.c2q_output g;
               tf.multiply (BidirectionAttn.c2q_output g) contexts;
               tf.multiply (BidirectionAttn.q2c_tiled g) contexts] 2.
Proof. reflexivity. Qed.

Lemma mul_contexts_shape (t : Tensor R) :
  tshape t = [B; N; D] -> tshape (tf.multiply t contexts) = [B; N; D].
Proof.
  intros Ht. unfold tf.multiply, tf.binop. cbn [tshape].
  now rewrite Ht, Hc, broadcast_shape_same.
Qed.

Lemma mul_contexts_data (t : Tensor R) b i k :
  tshape t = [B; N; D] -> (b < B)%nat -> (i < N)%nat -> (k < D)%nat ->
  tdata (tf.multiply t contexts) [b; i; k] = tdata t [b; i; k] * tdata contexts [b; i; k].
Proof.
  intros Ht Hb Hi Hk. unfold tf.multiply, tf.binop. cbn [tdata].
  rewrite Ht, Hc, bidx_same by (simpl; tauto). reflexivity.
Qed.

Lemma g_fused_shape : tshape (BidirectionAttn.fused g) = [B; N; (3 * D)%nat].
Proof.
  rewrite g_fused_eq. unfold tf.concat. cbn [tshape fold_right].
  rewrite !mul_contexts_shape by (apply g_c2q_shape || apply g_q2c_tiled_shape).
  rewrite g_c2q_shape. cbn [nth set_nth].
  replace (3 * D)%nat with (D + (D + (D + 0)))%nat by lia. reflexivity.
Qed.

Lemma g_fused_q2c b i k : (b < B)%nat -> (i < N)%nat -> (k < D)%nat ->
  tdata (BidirectionAttn.fused g) [b; i; (2 * D + k)%nat]
  = tdata (BidirectionAttn.q2c_tiled g) [b; i; k] * tdata contexts [b; i; k].
Proof.
  intros Hb Hi Hk. rewrite g_fused_eq. unfold tf.concat. cbn [tdata tf.concat_data].
  rewrite !mul_contexts_shape by (apply g_c2q_shape || apply g_q2c_tiled_shape).
  rewrite g_c2q_shape. cbn [nth set_nth].
  replace (2 * D + k <? D)%nat with false by (symmetry; apply Nat.ltb_ge; lia).
  replace (2 * D + k - D <? D)%nat with false by (symmetry; apply Nat.ltb_ge; lia).
  replace (2 * D + k - D - D <? D)%nat with true by (symmetry; apply Nat.ltb_lt; lia).
  replace (2 * D + k - D - D)%nat with k by lia.
  now rewrite mul_contexts_data by (assumption || apply g_q2c_tiled_shape).
Qed.

Lemma g_beta_out_shape :
  tshape (snd (fst (BidirectionAttn.build_graph self vars noise questions questions_mask
                       contexts contexts_mask))) = [B; N].
Proof.
  unfold BidirectionAttn.build_graph. cbn [fst snd]. fold g.
  unfold tf.reshape, tf.shape. cbn [tshape]. rewrite Hc. cbn [nth].
  rewrite (infer_shape_head _ [N]), g_beta_t_shape. div_exact B. reflexivity.
Qed.

Lemma g_beta_out_data b i : (b < B)%nat -> (i < N)%nat ->
  tdata (snd (fst (BidirectionAttn.build_graph self vars noise questions questions_mask
                       contexts contexts_mask))) [b; i]
  = tdata (BidirectionAttn.beta_t g) [b; O; i].
Proof.
  intros Hb Hi. unfold BidirectionAttn.build_graph. cbn [fst snd]. fold g.
  unfold tf.shape. rewrite Hc. cbn [nth].
  apply reshape_at.
  - rewrite g_beta_t_shape. simpl. lia.
  - rewrite (infer_shape_head _ [N]), g_beta_t_shape. simpl. ring.
Qed.

End BidirectionAttnGraph.

(** C5: [beta] is the plain softmax, over the context axis, of the
    maximum over the question axis of the masked similarity matrix; the
    question-to-context summary is one tensor of shape (B, 1, 2H), the
    [beta]-weighted sum of the contexts, which is tiled unchanged to every
    context position and enters the fused output multiplied by the
    contexts. *)
Theorem beta_softmax_of_row_max
    (self : BidirectionAttn.t) (vars : Variables) (noise : index -> R)
    (questions : Tensor R) (questions_mask : Tensor Z)
    (contexts : Tensor R) (contexts_mask : Tensor Z) (B N M : nat) :
  let D := (2 * BidirectionAttn.hidden_size self)%nat in
  let g := BidirectionAttn.nodes self vars noise questions questions_mask
                                 contexts contexts_mask in
  let beta := snd (fst (BidirectionAttn.build_graph self vars noise questions
                          questions_mask contexts contexts_mask)) in
  let S := BidirectionAttn.S g in
  let q2c := BidirectionAttn.q2c_output g in
  tshape questions = [B; M; D] -> tshape questions_mask = [B; M] ->
  tshape contexts = [B; N; D] -> tshape contexts_mask = [B; N] ->
  (0 < N)%nat -> (0 < M)%nat -> (0 < D)%nat ->
  (forall b i j, (b < B)%nat -> (i < N)%nat -> (j < M)%nat ->
     tdata S [b; i; j]
     = tdata (BidirectionAttn.S0 g) [b; i; j]
       + (1 - IZR (tdata contexts_mask [b; i] * tdata questions_mask [b; j]))
         * (-1e30))
  /\ tshape beta = [B; N]
  /\ (forall b i, (b < B)%nat -> (i < N)%nat ->
        tdata beta [b; i]
        = softmax_row N (fun i' => rmax M (fun j => tdata S [b; i'; j])) i)
  /\ tshape q2c = [B; 1%nat; D]
  /\ (forall b k, (b < B)%nat -> (k < D)%nat ->
        tdata q2c [b; O; k]
        = nsum N (fun i' => tdata beta [b; i'] * tdata contexts [b; i'; k]))
  /\ (forall b i k, (b < B)%nat -> (i < N)%nat -> (k < D)%nat ->
        tdata (BidirectionAttn.q2c_tiled g) [b; i; k] = tdata q2c [b; O; k]
        /\ tdata (BidirectionAttn.fused g) [b; i; (2 * D + k)%nat]
           = tdata q2c [b; O; k] * tdata contexts [b; i; k]).
Proof.
  intros D g beta S q2c Hq Hqm Hc Hcm HN HM HD.
  assert (Hbeta : forall b i, (b < B)%nat -> (i < N)%nat ->
            tdata beta [b; i] = tdata (BidirectionAttn.beta_t g) [b; O; i]).
  all: subst q2c S beta g.
  { intros b i Hb Hi.
    exact (g_beta_out_data self vars noise questions contexts questions_mask
             contexts_mask B N M D eq_refl Hq Hqm Hc Hcm HN HM HD b i Hb Hi). }
  split; [|split; [|split; [|split; [|split]]]].
  - intros b i j Hb Hi Hj.
    exact (g_S_data self vars noise questions contexts questions_mask
             contexts_mask B N M D eq_refl Hq Hqm Hc Hcm HN HM HD b i j Hb Hi Hj).
  - exact (g_beta_out_shape self vars noise questions contexts questions_mask
             contexts_mask B N M D eq_refl Hq Hqm Hc Hcm HN HM HD).
  - intros b i Hb Hi. rewrite (Hbeta b i Hb Hi).
    rewrite (g_beta_t_data self vars noise questions contexts questions_mask
               contexts_mask B N M D eq_refl Hq Hqm Hc Hcm HN HM HD b i).
    apply softmax_row_ext; [|assumption].
    intros i' Hi'.
    exact (g_m_data self vars noise questions contexts questions_mask
             contexts_mask B N M D eq_refl Hq Hqm Hc Hcm HN HM HD b i').
  - exact (g_q2c_output_shape self vars noise questions contexts questions_mask
             contexts_mask B N M D eq_refl Hq Hqm Hc Hcm HN HM HD).
  - intros b k Hb Hk.
    rewrite (g_q2c_output_data self vars noise questions contexts questions_mask
               contexts_mask B N M D eq_refl Hq Hqm Hc Hcm HN HM HD b k).
    apply nsum_ext. intros i' Hi'. now rewrite (Hbeta b i' Hb Hi').
  - intros b i k Hb Hi Hk.
    pose proof (g_q2c_tiled_data self vars noise questions contexts questions_mask
                  contexts_mask B N M D eq_refl Hq Hqm Hc Hcm HN HM HD b i k Hb Hk)
      as Ht.
    split; [exact Ht|].
    rewrite <- Ht.
    exact (g_fused_q2c self vars noise questions contexts questions_mask
             contexts_mask B N M D eq_refl Hq Hqm Hc Hcm HN HM HD b i k Hb Hi Hk).
Qed.

Lemma beta_softmax_of_row_max_witness :
  let beta := snd (fst (BidirectionAttn.build_graph Examples.bidaf Examples.unit_vars
                          Examples.no_noise (Examples.ones3 1 1 2)
                          (Examples.zeros2 1 1) (Examples.ones3 1 1 2)
                          (Examples.zeros2 1 1))) in
  tshape beta = [1; 1]%nat.
Proof.
  destruct (beta_softmax_of_row_max Examples.bidaf Examples.unit_vars
              Examples.no_noise (Examples.ones3 1 1 2) (Examples.zeros2 1 1)
              (Examples.ones3 1 1 2) (Examples.zeros2 1 1) 1 1 1)
    as [_ [Hs _]];
    [reflexivity | reflexivity | reflexivity | reflexivity | lia | lia | simpl; lia |].
  exact Hs.
Defined.

(** ** Dropout *)

Lemma Int_part_unit (u : R) : 0 <= u < 1 -> Int_part (1 + u) = 1%Z.
Proof. intros Hu. symmetry. apply Int_part_spec. simpl. lra. Qed.

Lemma dropout_shape (x : Tensor R) (kp : R) (noise : index -> R) :
  tshape (tf.dropout x kp noise) = tshape x.
Proof. reflexivity. Qed.

(** With keep probability 1 every entry is kept, unscaled. *)
Lemma dropout_keep_all (x : Tensor R) (noise : index -> R) (i : index) :
  0 <= noise i < 1 -> tdata (tf.dropout x 1 noise) i = tdata x i.
Proof.
  intros Hu. unfold tf.dropout. cbn [tdata].
  rewrite Int_part_unit by assumption. simpl. field.
Qed.

(** ** The graph of BasicAttn *)

Section BasicAttnGraph.
Variable self : BasicAttn.t.
Variable noise : index -> R.
Variables values keys : Tensor R.
Variable values_mask : Tensor Z.
Variables B K V D : nat.
Hypothesis Hv : tshape values = [B; V; D].
Hypothesis Hvm : tshape values_mask = [B; V].
Hypothesis Hk : tshape keys = [B; K; D].

Let g := BasicAttn.nodes self noise values values_mask keys.

Lemma ba_logits_shape : tshape (BasicAttn.attn_logits g) = [B; K; V].
Proof.
  change (BasicAttn.attn_logits g) with (tf.matmul keys (tf.transpose values [0; 2; 1]%nat)).
  unfold tf.matmul, tf.transpose. cbn [tshape]. rewrite Hk, Hv. reflexivity.
Qed.

Lemma ba_logits_data b i j :
  tdata (BasicAttn.attn_logits g) [b; i; j]
  = dot D (vec_at keys b i) (vec_at values b j).
Proof.
  change (BasicAttn.attn_logits g) with (tf.matmul keys (tf.transpose values [0; 2; 1]%nat)).
  unfold tf.matmul, tf.transpose. cbn [tshape tdata]. rewrite Hk. reflexivity.
Qed.

Lemma ba_mask_shape : tshape (BasicAttn.attn_logits_mask g) = [B; 1%nat; V].
Proof.
  change (BasicAttn.attn_logits_mask g) with (tf.expand_dims values_mask 1).
  unfold tf.expand_dims. cbn [tshape]. rewrite Hvm. reflexivity.
Qed.

Lemma ba_mask_data b x j :
  tdata (BasicAttn.attn_logits_mask g) [b; x; j] = tdata values_mask [b; j].
Proof.
  change (BasicAttn.attn_logits_mask g) with (tf.expand_dims values_mask 1).
  unfold tf.expand_dims. cbn [tdata]. rewrite Hvm. reflexivity.
Qed.

Lemma ba_dist_eq : BasicAttn.attn_dist g
  = snd (masked_softmax (BasicAttn.attn_logits g) (BasicAttn.attn_logits_mask g) 2).
Proof. reflexivity. Qed.

Lemma ba_dist_shape : tshape (BasicAttn.attn_dist g) = [B; K; V].
Proof.
  rewrite ba_dist_eq.
  destruct (masked_softmax_shape (BasicAttn.attn_logits g) (BasicAttn.attn_logits_mask g) 2)
    as [_ ->].
  rewrite ba_logits_shape, ba_mask_shape. unfold broadcast_shape.
  cbn [rev app bshape_r Nat.eqb]. now rewrite !bsel_same, bsel_one.
Qed.

Lemma ba_masked_logits b i j : (b < B)%nat -> (i < K)%nat -> (j < V)%nat ->
  tdata (fst (masked_softmax (BasicAttn.attn_logits g) (BasicAttn.attn_logits_mask g) 2))
        [b; i; j]
  = masked_row (fun j' => tdata (BasicAttn.attn_logits g) [b; i; j'])
               (fun j' => tdata values_mask [b; j']) j.
Proof.
  intros Hb Hi Hj. rewrite masked_logits_data. cbv zeta.
  rewrite ba_logits_shape, ba_mask_shape.
  rewrite (bidx_same [B; K; V]) by (simpl; tauto).
  unfold bidx. cbn [rev app bidx_r Nat.eqb].
  repeat (rewrite ?(bsel_lt B b), ?(bsel_lt V j) by assumption;
          cbn [rev app bidx_r Nat.eqb]).
  now rewrite ba_mask_data.
Qed.

Lemma ba_dist_row b i j : (b < B)%nat -> (i < K)%nat -> (j < V)%nat ->
  tdata (BasicAttn.attn_dist g) [b; i; j]
  = softmax_row V (masked_row (fun j' => tdata (BasicAttn.attn_logits g) [b; i; j'])
                              (fun j' => tdata values_mask [b; j'])) j.
Proof.
  intros Hb Hi Hj. rewrite ba_dist_eq, masked_softmax_data. cbv zeta.
  destruct (masked_softmax_shape (BasicAttn.attn_logits g) (BasicAttn.attn_logits_mask g) 2)
    as [-> _].
  rewrite ba_logits_shape, ba_mask_shape. unfold broadcast_shape.
  cbn [rev app bshape_r Nat.eqb]. rewrite !bsel_same, bsel_one.
  change (norm_axis (length [B; K; V]) 2) with 2%nat. cbn [nth set_nth].
  apply softmax_row_ext; [|assumption].
  intros j' Hj'. now apply ba_masked_logits.
Qed.

Lemma ba_out_shape : tshape (BasicAttn.attn_out g) = [B; K; D].
Proof.
  change (BasicAttn.attn_out g) with (tf.matmul (BasicAttn.attn_dist g) values).
  unfold tf.matmul. cbn [tshape]. rewrite ba_dist_shape, Hv. reflexivity.
Qed.

Lemma ba_out_data b i k :
  tdata (BasicAttn.attn_out g) [b; i; k]
  = nsum V (fun j => tdata (BasicAttn.attn_dist g) [b; i; j] * tdata values [b; j; k]).
Proof.
  change (BasicAttn.attn_out g) with (tf.matmul (BasicAttn.attn_dist g) values).
  unfold tf.matmul. cbn [tdata]. rewrite ba_dist_shape. reflexivity.
Qed.

Lemma ba_output_eq : BasicAttn.output g
  = tf.dropout (BasicAttn.attn_out g) (BasicAttn.keep_prob self) noise.
Proof. reflexivity. Qed.

Lemma ba_output_data b i k :
  tdata (BasicAttn.output g) [b; i; k]
  = nsum V (fun j => tdata (BasicAttn.attn_dist g) [b; i; j] * tdata values [b; j; k])
    / BasicAttn.keep_prob self
    * IZR (Int_part (BasicAttn.keep_prob self + noise [b; i; k])).
Proof.
  rewrite ba_output_eq. unfold tf.dropout. cbn [tdata]. now rewrite ba_out_data.
Qed.

End BasicAttnGraph.

Lemma softmax_row_2_dominant (x : nat -> R) :
  x O <= x 1%nat -> 1 / 2 <= softmax_row 2 x 1.
Proof.
  intros Hx. unfold softmax_row. simpl.
  assert (He : exp (x O) <= exp (x 1%nat)).
  { destruct Hx as [Hlt | ->]; [left; now apply exp_increasing | lra]. }
  pose proof (exp_pos (x O)) as H0.
  set (e0 := exp (x O)) in *. set (e1 := exp (x 1%nat)) in *.
  apply Rmult_le_reg_r with (0 + e0 + e1); [lra|].
  replace (e1 / (0 + e0 + e1) * (0 + e0 + e1)) with e1 by (field; lra).
  lra.
Qed.

(** C7, amended: the distribution of BasicAttn has shape (B, K, V); when
    every batch element has a valid value position, each key's row sums
    to 1 and gives a padded value position a weight of at most
    [exp (2 * L - 1e30)], numerically 0, for attention logits bounded in
    magnitude by [L]; the output is the dropout of the
    distribution-weighted sum of the values, and is that weighted sum
    itself when the keep probability is 1. *)
Theorem basic_attn_distribution
    (self : BasicAttn.t) (noise : index -> R)
    (values : Tensor R) (values_mask : Tensor Z) (keys : Tensor R)
    (B K V D : nat) (L : R) :
  let attn_dist := fst (BasicAttn.build_graph self noise values values_mask keys) in
  let output := snd (BasicAttn.build_graph self noise values values_mask keys) in
  let weighted b i k :=
    nsum V (fun j => tdata attn_dist [b; i; j] * tdata values [b; j; k]) in
  tshape values = [B; V; D] -> tshape values_mask = [B; V] ->
  tshape keys = [B; K; D] ->
  (forall b, (b < B)%nat ->
     exists u, (u < V)%nat /\ tdata values_mask [b; u] = 1%Z) ->
  (forall b i j, (b < B)%nat -> (i < K)%nat -> (j < V)%nat ->
     Rabs (dot D (vec_at keys b i) (vec_at values b j)) <= L) ->
  tshape attn_dist = [B; K; V]
  /\ (forall b i, (b < B)%nat -> (i < K)%nat ->
        nsum V (fun j => tdata attn_dist [b; i; j]) = 1
        /\ forall j, (j < V)%nat -> tdata values_mask [b; j] = 0%Z ->
             0 <= tdata attn_dist [b; i; j] <= exp (2 * L - 1e30))
  /\ tshape output = [B; K; D]
  /\ (forall b i k,
        tdata output [b; i; k]
        = weighted b i k / BasicAttn.keep_prob self
          * IZR (Int_part (BasicAttn.keep_prob self + noise [b; i; k])))
  /\ (BasicAttn.keep_prob self = 1 ->
      forall b i k, 0 <= noise [b; i; k] < 1 ->
        tdata output [b; i; k] = weighted b i k).
Proof.
  intros attn_dist output weighted Hv Hvm Hk Hvalid HL.
  pose proof (ba_dist_row self noise values keys values_mask B K V D Hv Hvm Hk) as Hrow.
  pose proof (ba_logits_data self noise values keys values_mask B K D Hk) as Hlog.
  pose proof (ba_output_data self noise values keys values_mask B K V D Hv Hvm Hk)
    as Hraw.
  change (BasicAttn.attn_dist _) with attn_dist in Hrow, Hraw.
  change (BasicAttn.output _) with output in Hraw.
  split; [|split; [|split; [|split]]].
  - exact (ba_dist_shape self noise values keys values_mask B K V D Hv Hvm Hk).
  - intros b i Hb Hi. split.
    + rewrite (nsum_ext V _ _ (fun j Hj => Hrow b i j Hb Hi Hj)).
      destruct (Hvalid b Hb) as [u [Hu _]].
      apply softmax_row_total. lia.
    + intros j Hj Hm. rewrite (Hrow b i j Hb Hi Hj).
      destruct (Hvalid b Hb) as [u [Hu Hmu]]. split.
      * left. apply softmax_row_pos. lia.
      * apply masked_row_padded_bound with (u := u); auto;
          rewrite Hlog; now apply HL.
  - exact (ba_out_shape self noise values keys values_mask B K V D Hv Hvm Hk).
  - exact Hraw.
  - intros Hkp b i k Hu. rewrite Hraw, Hkp.
    rewrite Int_part_unit by assumption.
    unfold Rdiv. rewrite Rinv_1, !Rmult_1_r. reflexivity.
Qed.

Lemma basic_attn_distribution_witness :
  let attn_dist := fst (BasicAttn.build_graph Examples.ba_full Examples.no_noise
                          Examples.ba_plain_values Examples.ba_mask Examples.ba_keys) in
  tshape attn_dist = [1; 1; 2]%nat
  /\ nsum 2 (fun j => tdata attn_dist [O; O; j]) = 1
  /\ 0 <= tdata attn_dist [O; O; 1%nat] <= exp (2 * 2 - 1e30).
Proof.
  destruct (basic_attn_distribution Examples.ba_full Examples.no_noise
              Examples.ba_plain_values Examples.ba_mask Examples.ba_keys 1 1 2 1 2)
    as [Hs [Hrows _]].
  - reflexivity.
  - reflexivity.
  - reflexivity.
  - intros b Hb. exists O. split; [lia|].
    destruct b as [|b]; [reflexivity | lia].
  - intros b i j Hb Hi Hj. unfold dot, vec_at. simpl.
    destruct j as [|[|j]]; try lia; rewrite Rabs_pos_eq; lra.
  - destruct (Hrows O O) as [Hsum Hpad]; [lia | lia |].
    split; [exact Hs | split; [exact Hsum|]].
    apply (Hpad 1%nat); [lia | reflexivity].
Defined.

(** C7 as stated fails: with values [[0; 2e30]], mask [[1; 0]], the key 1,
    keep probability 1/2 and the draw 0, the padded value keeps more than
    half of the weight, and the output is 0, not the weighted sum. *)
Lemma basic_attn_padded_weight_and_dropout :
  let r := BasicAttn.build_graph Examples.ba_half Examples.no_noise
             Examples.ba_values Examples.ba_mask Examples.ba_keys in
  tdata Examples.ba_mask [O; O] = 1%Z
  /\ tdata Examples.ba_mask [O; 1%nat] = 0%Z
  /\ 1 / 2 <= tdata (fst r) [O; O; 1%nat]
  /\ tdata (snd r) [O; O; O]
     <> nsum 2 (fun j => tdata (fst r) [O; O; j] * tdata Examples.ba_values [O; j; O]).
Proof.
  cbv zeta.
  assert (Hd1 : 1 / 2 <= tdata (fst (BasicAttn.build_graph Examples.ba_half
                    Examples.no_noise Examples.ba_values Examples.ba_mask
                    Examples.ba_keys)) [O; O; 1%nat]).
  { unfold BasicAttn.build_graph. cbn [fst].
    rewrite (ba_dist_row Examples.ba_half Examples.no_noise Examples.ba_values
               Examples.ba_keys Examples.ba_mask 1 1 2 1) by (reflexivity || lia).
    apply softmax_row_2_dominant. unfold masked_row. cbv beta.
    rewrite !(ba_logits_data Examples.ba_half Examples.no_noise Examples.ba_values
                Examples.ba_keys Examples.ba_mask 1 1 1 eq_refl).
    unfold dot, vec_at. simpl. lra. }
  split; [reflexivity | split; [reflexivity | split; [exact Hd1|]]].
  pose proof (ba_output_data Examples.ba_half Examples.no_noise Examples.ba_values
                Examples.ba_keys Examples.ba_mask 1 1 2 1 eq_refl eq_refl eq_refl
                O O O) as Hraw.
  unfold BasicAttn.build_graph in *. cbn [fst snd] in *.
  rewrite Hraw.
  - change (BasicAttn.keep_prob Examples.ba_half) with (1 / 2).
    change (Examples.no_noise [O; O; O]) with 0.
    replace (Int_part (1 / 2 + 0)) with 0%Z
      by (apply Int_part_spec; simpl; lra).
    cbn [nsum nadd nzero Num_R].
    change (tdata Examples.ba_values [O; O; O]) with 0.
    change (tdata Examples.ba_values [O; 1%nat; O]) with 2e30.
    lra.
Qed.

(** ** Bounds on the scores of SelfAttn *)



(** ** The graph of SelfAttn *)

Section SelfAttnGraph.
Variable self : SelfAttn.t.
Variable vars : Variables.
Variable noise : index -> R.
Variable contexts : Tensor R.
Variable contexts_mask : Tensor Z.
Variables B N Hd : nat.
Hypothesis Hc : tshape contexts = [B; N; Hd].
Hypothesis Hcm : tshape contexts_mask = [B; N].
Hypothesis HN : (0 < N)%nat.

Let g := SelfAttn.nodes self vars noise contexts contexts_mask.
Let C := SelfAttn.attention_size self.

Lemma sa_E_mask_eq : SelfAttn.E_mask g
  = tf.multiply (tf.expand_dims contexts_mask 2)
                (tf.transpose (tf.expand_dims contexts_mask 2) [0; 2; 1]%nat).
Proof. reflexivity. Qed.

Lemma sa_E_mask_shape : tshape (SelfAttn.E_mask g) = [B; N; N].
Proof.
  rewrite sa_E_mask_eq. unfold tf.multiply, tf.binop, tf.transpose, tf.expand_dims.
  cbn [tshape]. rewrite Hcm. cbn [length]. norm_ax.
  unfold broadcast_shape. cbn. now rewrite !bsel_same, bsel_one.
Qed.


Lemma sa_E_eq : SelfAttn.E g
  = tf.reshape (SelfAttn.E0 g) [(-1)%Z; Z.of_nat N; Z.of_nat N].
Proof.
  unfold g, SelfAttn.nodes. cbn [SelfAttn.E SelfAttn.E0].
  unfold tf.shape. rewrite Hc. reflexivity.
Qed.

Lemma sa_E0_eq : SelfAttn.E0 g
  = tf.matmul (tf.reshape (SelfAttn.additive_value g)
                          [Z.of_nat (B * N * N); Z.of_nat C])
              (get_variable vars "SelfAttn" "v" [C; 1%nat]).
Proof.
  unfold g, SelfAttn.nodes. cbn [SelfAttn.E0 SelfAttn.additive_value].
  unfold tf.shape. rewrite Hc. reflexivity.
Qed.

Lemma sa_E0_shape : tshape (SelfAttn.E0 g) = [(B * N * N)%nat; 1%nat].
Proof.
  rewrite sa_E0_eq. unfold tf.matmul, tf.reshape. cbn [tshape].
  rewrite (infer_shape_known _ [(B * N * N)%nat; C]). reflexivity.
Qed.

Lemma sa_E_shape : tshape (SelfAttn.E g) = [B; N; N].
Proof.
  rewrite sa_E_eq. unfold tf.reshape at 1. cbn [tshape].
  rewrite (infer_shape_head _ [N; N]), sa_E0_shape. div_exact B. reflexivity.
Qed.


Lemma sa_flat_shape : 
  tshape (tf.reshape (SelfAttn.additive_value g) [Z.of_nat (B * N * N); Z.of_nat C])
  = [(B * N * N)%nat; C].
Proof. unfold tf.reshape. cbn [tshape]. apply (infer_shape_known _ [(B * N * N)%nat; C]). Qed.



Lemma sa_attn_p_eq : SelfAttn.attn_p g
  = snd (masked_softmax (SelfAttn.E g) (SelfAttn.E_mask g) 2).
Proof. reflexivity. Qed.



Lemma sa_attn_p_shape : tshape (SelfAttn.attn_p g) = [B; N; N].
Proof.
  rewrite sa_attn_p_eq.
  destruct (masked_softmax_shape (SelfAttn.E g) (SelfAttn.E_mask g) 2) as [_ ->].
  now rewrite sa_E_shape, sa_E_mask_shape, broadcast_shape_same.
Qed.

Lemma sa_output_eq : SelfAttn.output g
  = tf.dropout (tf.matmul (SelfAttn.attn_p g) contexts) (SelfAttn.keep_prob self) noise.
Proof. reflexivity. Qed.

End SelfAttnGraph.




(** ** The constructor of RNNEncoder *)

Lemma init_cells_unsupported (n hidden_size : nat) (keep_prob : R) (mode : string)
    (fw bw : list rnn_cell) :
  mode <> "GRU"%string -> mode <> "LSTM"%string ->
  RNNEncoder.init_cells n hidden_size keep_prob mode fw bw = (fw, bw).
Proof.
  intros Hg Hl. apply String.eqb_neq in Hg, Hl.
  induction n as [|n IH]; simpl; [reflexivity|].
  now rewrite Hg, Hl.
Qed.

(** C9: for a mode other than 'GRU' and 'LSTM' the constructor returns an
    encoder, both of whose cell lists are empty; with [num_layers = 1],
    [build_graph] then raises the IndexError of [rnn_cells_fw[0]]. *)
Theorem unsupported_mode_surfaces_at_build
    (hidden_size : nat) (keep_prob : R) (num_layers : Z) (mode : string)
    (name : option string) (K : Kernels) (noise : Noise)
    (inputs : Tensor R) (masks : Tensor Z) :
  mode <> "GRU"%string -> mode <> "LSTM"%string ->
  exists self,
    RNNEncoder.init hidden_size keep_prob num_layers mode name = Ok self
    /\ RNNEncoder.rnn_cells_fw self = []
    /\ RNNEncoder.rnn_cells_bw self = []
    /\ (num_layers = 1%Z ->
        RNNEncoder.build_graph self K noise inputs masks = Raise IndexError).
Proof.
  intros Hg Hl. unfold RNNEncoder.init. cbv zeta.
  rewrite (init_cells_unsupported _ _ _ _ [] [] Hg Hl). cbn [fst snd].
  eexists. split; [reflexivity|].
  split; [reflexivity | split; [reflexivity|]].
  intros ->. reflexivity.
Qed.

Lemma unsupported_mode_surfaces_at_build_witness :
  exists self,
    RNNEncoder.init 200 1 1 "RNN" None = Ok self
    /\ RNNEncoder.rnn_cells_fw self = []
    /\ RNNEncoder.build_graph self Examples.id_kernels Examples.noise_zero
         (Examples.ones3 1 1 1) Examples.one_mask = Raise IndexError.
Proof.
  destruct (unsupported_mode_surfaces_at_build 200 1 1 "RNN" None
              Examples.id_kernels Examples.noise_zero (Examples.ones3 1 1 1)
              Examples.one_mask) as [self [Hi [Hfw [_ Hb]]]];
    [discriminate | discriminate |].
  exists self. split; [exact Hi | split; [exact Hfw | now apply Hb]].
Defined.

(** C3: the constructor does not validate the mode.  Asked for the cell
    family 'RNN' it returns, with no error, an encoder without cells. *)
Lemma unsupported_mode_not_rejected (keep_prob : R) :
  RNNEncoder.init 200 keep_prob 1 "RNN" None
  = Ok (RNNEncoder.mk 200 keep_prob 1 "RNN" None [] []).
Proof. reflexivity. Qed.

(** ** Dropout with keep probability 1 *)

Lemma tensor_ext {A} (a b : Tensor A) :
  tshape a = tshape b -> (forall i, tdata a i = tdata b i) -> a = b.
Proof.
  destruct a as [sa da], b as [sb db]. simpl. intros -> Hd.
  f_equal. apply functional_extensionality. exact Hd.
Qed.

Lemma dropout_one (x : Tensor R) (u : index -> R) :
  valid_draws u -> tf.dropout x 1 u = x.
Proof.
  intros Hu. apply tensor_ext; [reflexivity|].
  intros i. apply dropout_keep_all, Hu.
Qed.

Lemma cell_call_keeps_all (K : Kernels) (c : rnn_cell) (scope : string)
    (u1 u2 : index -> R) (x : Tensor R) (st : State) :
  keeps_all c -> valid_draws u1 -> valid_draws u2 ->
  cell_call K c scope u1 x st = cell_call K c scope u2 x st.
Proof.
  intros Hc H1 H2. revert x.
  induction c as [n | n | c IH kp]; intros x; simpl; try reflexivity.
  destruct Hc as [-> Hc]. rewrite !dropout_one by assumption. now apply IH.
Qed.

Section RecurrentDeterminism.

Variable K : Kernels.
Variables n1 n2 : nat -> index -> R.
Hypothesis Hn1 : forall t, valid_draws (n1 t).
Hypothesis Hn2 : forall t, valid_draws (n2 t).

Lemma rnn_state_keeps_all (c : rnn_cell) (scope : string)
    (inputs : Tensor R) (lens : Tensor Z) (t : nat) :
  keeps_all c ->
  rnn_state K c scope n1 inputs lens t = rnn_state K c scope n2 inputs lens t.
Proof.
  intros Hc. induction t as [|t IH]; simpl; [reflexivity|].
  rewrite IH. now rewrite (cell_call_keeps_all K c scope (n1 t) (n2 t)).
Qed.

Lemma dynamic_rnn_keeps_all (c : rnn_cell) (scope : string)
    (inputs : Tensor R) (lens : Tensor Z) :
  keeps_all c ->
  dynamic_rnn K c scope n1 inputs lens = dynamic_rnn K c scope n2 inputs lens.
Proof.
  intros Hc. apply tensor_ext; [reflexivity|].
  intros [|b [|t [|k [|x l]]]]; simpl; try reflexivity.
  rewrite (rnn_state_keeps_all c scope inputs lens t Hc).
  now rewrite (cell_call_keeps_all K c scope (n1 t) (n2 t)).
Qed.

End RecurrentDeterminism.

Lemma bidirectional_keeps_all (K : Kernels) (cell_fw cell_bw : rnn_cell)
    (scope : string) (N1 N2 : Noise) (key : list nat)
    (inputs : Tensor R) (lens : Tensor Z) :
  valid_noise N1 -> valid_noise N2 -> keeps_all cell_fw -> keeps_all cell_bw ->
  bidirectional_dynamic_rnn K cell_fw cell_bw scope N1 key inputs lens
  = bidirectional_dynamic_rnn K cell_fw cell_bw scope N2 key inputs lens.
Proof.
  intros H1 H2 Hfw Hbw. unfold bidirectional_dynamic_rnn.
  rewrite (dynamic_rnn_keeps_all K (fun t => N1 (O :: key ++ [t]))
             (fun t => N2 (O :: key ++ [t]))) by (intros; auto).
  rewrite (dynamic_rnn_keeps_all K (fun t => N1 (1%nat :: key ++ [t]))
             (fun t => N2 (1%nat :: key ++ [t]))) by (intros; auto).
  reflexivity.
Qed.

Lemma stack_layers_keeps_all (K : Kernels) (cells : list (rnn_cell * rnn_cell))
    (scope : string) (N1 N2 : Noise) (layer : nat)
    (prev : Tensor R) (lens : Tensor Z) :
  valid_noise N1 -> valid_noise N2 ->
  Forall (fun p => keeps_all (fst p) /\ keeps_all (snd p)) cells ->
  stack_layers K cells scope N1 layer prev lens
  = stack_layers K cells scope N2 layer prev lens.
Proof.
  intros H1 H2 Hc. revert layer prev.
  induction Hc as [|[cf cb] cells [Hf Hb] _ IH]; intros layer prev;
    cbn [stack_layers]; [reflexivity|].
  rewrite (bidirectional_keeps_all K cf cb scope N1 N2) by assumption.
  apply IH.
Qed.

Lemma init_cells_keeps_all (n hidden_size : nat) (mode : string)
    (fw bw : list rnn_cell) :
  Forall keeps_all fw -> Forall keeps_all bw ->
  Forall keeps_all (fst (RNNEncoder.init_cells n hidden_size 1 mode fw bw))
  /\ Forall keeps_all (snd (RNNEncoder.init_cells n hidden_size 1 mode fw bw)).
Proof.
  revert fw bw. induction n as [|n IH]; intros fw bw Hf Hb; simpl; [now split|].
  destruct (mode =? "GRU")%string; [|destruct (mode =? "LSTM")%string].
  - apply IH; apply Forall_app; (split; [assumption|]);
      repeat constructor.
  - apply IH; apply Forall_app; (split; [assumption|]);
      repeat constructor.
  - now apply IH.
Qed.

Lemma Forall_combine_keeps_all (fw bw : list rnn_cell) :
  Forall keeps_all fw -> Forall keeps_all bw ->
  Forall (fun p => keeps_all (fst p) /\ keeps_all (snd p)) (combine fw bw).
Proof.
  intros Hf. revert bw. induction Hf as [|c fw Hc _ IH]; intros bw Hb; simpl;
    [constructor|].
  destruct Hb as [|d bw Hd Hb]; constructor; [now split | now apply IH].
Qed.

Lemma list_get_Forall {A} (P : A -> Prop) (l : list A) (n : nat) (a : A) :
  Forall P l -> list_get l n = Ok a -> P a.
Proof.
  intros Hl. unfold list_get. destruct (nth_error l n) as [x|] eqn:Hn; [|discriminate].
  intros [= <-]. rewrite Forall_forall in Hl. apply Hl.
  eapply nth_error_In, Hn.
Qed.

(** An encoder whose cells keep all their inputs and whose own keep
    probability is 1 computes the same result from any two sources of
    draws. *)
Lemma encoder_keeps_all (self : RNNEncoder.t) (K : Kernels) (N1 N2 : Noise)
    (inputs : Tensor R) (masks : Tensor Z) :
  valid_noise N1 -> valid_noise N2 ->
  RNNEncoder.keep_prob self = 1 ->
  Forall keeps_all (RNNEncoder.rnn_cells_fw self) ->
  Forall keeps_all (RNNEncoder.rnn_cells_bw self) ->
  RNNEncoder.build_graph self K N1 inputs masks
  = RNNEncoder.build_graph self K N2 inputs masks.
Proof.
  intros H1 H2 Hkp Hfw Hbw. unfold RNNEncoder.build_graph. rewrite Hkp.
  destruct (RNNEncoder.num_layers self =? 1)%Z.
  - destruct (list_get (RNNEncoder.rnn_cells_fw self) 0) as [cf|e] eqn:Ef;
      [|reflexivity].
    destruct (list_get (RNNEncoder.rnn_cells_bw self) 0) as [cb|e] eqn:Eb;
      [|reflexivity].
    cbn [bind].
    pose proof (list_get_Forall keeps_all _ O cf Hfw Ef) as Hcf.
    pose proof (list_get_Forall keeps_all _ O cb Hbw Eb) as Hcb.
    rewrite (bidirectional_keeps_all K cf cb _ N1 N2) by assumption.
    now rewrite !dropout_one by auto.
  - unfold stack_bidirectional_dynamic_rnn.
    destruct (RNNEncoder.rnn_cells_fw self) as [|cf fw] eqn:Ef; [reflexivity|].
    destruct (RNNEncoder.rnn_cells_bw self) as [|cb bw] eqn:Eb; [reflexivity|].
    destruct (length (cf :: fw) =? length (cb :: bw))%nat; [|reflexivity].
    cbn [bind].
    rewrite (stack_layers_keeps_all K _ _ N1 N2)
      by (assumption || now apply Forall_combine_keeps_all).
    now rewrite !dropout_one by auto.
Qed.

(** C8: with keep probability 1, the outputs of BasicAttn, SelfAttn,
    BidirectionAttn and of an RNNEncoder built with that keep probability
    do not depend on the dropout draws: two runs on the same inputs and
    learned parameters give the same result. *)
Theorem keep_prob_one_deterministic (u1 u2 : index -> R) (N1 N2 : Noise) :
  valid_draws u1 -> valid_draws u2 -> valid_noise N1 -> valid_noise N2 ->
  (forall self values values_mask keys,
     BasicAttn.keep_prob self = 1 ->
     BasicAttn.build_graph self u1 values values_mask keys
     = BasicAttn.build_graph self u2 values values_mask keys)
  /\ (forall self vars contexts contexts_mask,
        SelfAttn.keep_prob self = 1 ->
        SelfAttn.build_graph self vars u1 contexts contexts_mask
        = SelfAttn.build_graph self vars u2 contexts contexts_mask)
  /\ (forall self vars questions questions_mask contexts contexts_mask,
        BidirectionAttn.keep_prob self = 1 ->
        BidirectionAttn.build_graph self vars u1 questions questions_mask
                                    contexts contexts_mask
        = BidirectionAttn.build_graph self vars u2 questions questions_mask
                                      contexts contexts_mask)
  /\ (forall hidden_size num_layers mode name self K inputs masks,
        RNNEncoder.init hidden_size 1 num_layers mode name = Ok self ->
        RNNEncoder.build_graph self K N1 inputs masks
        = RNNEncoder.build_graph self K N2 inputs masks).
Proof.
  intros Hu1 Hu2 HN1 HN2. split; [|split; [|split]].
  - intros self values values_mask keys Hkp.
    unfold BasicAttn.build_graph, BasicAttn.nodes.
    cbn [BasicAttn.attn_dist BasicAttn.output]. rewrite Hkp.
    now rewrite !dropout_one by assumption.
  - intros self vars contexts contexts_mask Hkp.
    unfold SelfAttn.build_graph, SelfAttn.nodes.
    cbn [SelfAttn.attn_p SelfAttn.output]. rewrite Hkp.
    now rewrite !dropout_one by assumption.
  - intros self vars questions questions_mask contexts contexts_mask Hkp.
    unfold BidirectionAttn.build_graph, BidirectionAttn.nodes, masked_softmax.
    cbn [BidirectionAttn.alpha BidirectionAttn.beta_t BidirectionAttn.output].
    rewrite Hkp. now rewrite !dropout_one by assumption.
  - intros hidden_size num_layers mode name self K inputs masks Hinit.
    unfold RNNEncoder.init in Hinit. injection Hinit as <-.
    destruct (init_cells_keeps_all (Z.to_nat num_layers) hidden_size mode [] [])
      as [Hfw Hbw]; [constructor | constructor |].
    now apply encoder_keeps_all.
Qed.

Lemma keep_prob_one_deterministic_witness :
  BasicAttn.build_graph Examples.ba_full (Examples.noise_zero [])
    Examples.ba_values Examples.ba_mask Examples.ba_keys
  = BasicAttn.build_graph Examples.ba_full (Examples.noise_half [])
      Examples.ba_values Examples.ba_mask Examples.ba_keys
  /\ forall self,
       RNNEncoder.init 2 1 1 "GRU" None = Ok self ->
       RNNEncoder.build_graph self Examples.id_kernels Examples.noise_zero
         (Examples.ones3 1 1 1) Examples.one_mask
       = RNNEncoder.build_graph self Examples.id_kernels Examples.noise_half
           (Examples.ones3 1 1 1) Examples.one_mask.
Proof.
  destruct (keep_prob_one_deterministic (Examples.noise_zero [])
              (Examples.noise_half []) Examples.noise_zero Examples.noise_half)
    as [Hbasic [_ [_ Henc]]].
  - intros i. unfold Examples.noise_zero. lra.
  - intros i. unfold Examples.noise_half. lra.
  - intros key i. unfold Examples.noise_zero. lra.
  - intros key i. unfold Examples.noise_half. lra.
  - split.
    + apply Hbasic. reflexivity.
    + intros self Hself. exact (Henc 2%nat 1%Z "GRU"%string None self _ _ _ Hself).
Defined.

(** Below keep probability 1 the draws do matter: at 1/2 the draw 0 drops
    the only output entry of the example and the draw 1/2 keeps it. *)
Remark dropout_depends_on_draws :
  tdata (snd (BasicAttn.build_graph Examples.ba_half (Examples.noise_zero [])
                Examples.ba_values Examples.ba_mask Examples.ba_keys)) [O; O; O]
  <> tdata (snd (BasicAttn.build_graph Examples.ba_half (Examples.noise_half [])
                   Examples.ba_values Examples.ba_mask Examples.ba_keys)) [O; O; O].
Proof.
  unfold BasicAttn.build_graph. cbn [snd].
  rewrite !(ba_output_data Examples.ba_half _ Examples.ba_values
              Examples.ba_keys Examples.ba_mask 1 1 2 1 eq_refl eq_refl eq_refl).
  change (BasicAttn.keep_prob Examples.ba_half) with (1 / 2).
  change (Examples.noise_zero [] [O; O; O]) with 0.
  change (Examples.noise_half [] [O; O; O]) with (1 / 2).
  replace (Int_part (1 / 2 + 0)) with 0%Z by (apply Int_part_spec; simpl; lra).
  replace (Int_part (1 / 2 + 1 / 2)) with 1%Z by (apply Int_part_spec; simpl; lra).
  cbn [nsum nadd nzero Num_R].
  change (tdata Examples.ba_values [O; O; O]) with 0.
  change (tdata Examples.ba_values [O; 1%nat; O]) with 2e30.
  assert (Hd : 1 / 2 <= tdata (BasicAttn.attn_dist
                 (BasicAttn.nodes Examples.ba_half (Examples.noise_half [])
                    Examples.ba_values Examples.ba_mask Examples.ba_keys))
                 [O; O; 1%nat]).
  { rewrite (ba_dist_row Examples.ba_half _ Examples.ba_values
               Examples.ba_keys Examples.ba_mask 1 1 2 1) by (reflexivity || lia).
    apply softmax_row_2_dominant. unfold masked_row. cbv beta.
    rewrite !(ba_logits_data Examples.ba_half _ Examples.ba_values
                Examples.ba_keys Examples.ba_mask 1 1 1 eq_refl).
    unfold dot, vec_at. simpl. lra. }
  change (BasicAttn.attn_dist
            (BasicAttn.nodes Examples.ba_half (Examples.noise_zero [])
               Examples.ba_values Examples.ba_mask Examples.ba_keys))
    with (BasicAttn.attn_dist
            (BasicAttn.nodes Examples.ba_half (Examples.noise_half [])
               Examples.ba_values Examples.ba_mask Examples.ba_keys)).
  simpl IZR. lra.
Qed.

(** ** The cells made by the constructor *)

Lemma init_cells_GRU (n hidden_size : nat) (keep_prob : R) (fw bw : list rnn_cell) :
  RNNEncoder.init_cells n hidden_size keep_prob "GRU" fw bw
  = (fw ++ repeat (DropoutWrapper (GRUCell hidden_size) keep_prob) n,
     bw ++ repeat (DropoutWrapper (GRUCell hidden_size) keep_prob) n).
Proof.
  revert fw bw. induction n as [|n IH]; intros fw bw.
  - simpl. now rewrite !app_nil_r.
  - cbn [RNNEncoder.init_cells]. cbn [String.eqb Ascii.eqb Bool.eqb].
    rewrite IH, <- !app_assoc. reflexivity.
Qed.

Lemma init_cells_LSTM (n hidden_size : nat) (keep_prob : R) (fw bw : list rnn_cell) :
  RNNEncoder.init_cells n hidden_size keep_prob "LSTM" fw bw
  = (fw ++ repeat (DropoutWrapper (BasicLSTMCell hidden_size) keep_prob) n,
     bw ++ repeat (DropoutWrapper (BasicLSTMCell hidden_size) keep_prob) n).
Proof.
  revert fw bw. induction n as [|n IH]; intros fw bw.
  - simpl. now rewrite !app_nil_r.
  - cbn [RNNEncoder.init_cells]. cbn [String.eqb Ascii.eqb Bool.eqb].
    rewrite IH, <- !app_assoc. reflexivity.
Qed.

Lemma init_cells_supported (n hidden_size : nat) (keep_prob : R) (mode : string) :
  mode = "GRU"%string \/ mode = "LSTM"%string ->
  RNNEncoder.init_cells n hidden_size keep_prob mode [] []
  = (repeat (DropoutWrapper (basic_cell mode hidden_size) keep_prob) n,
     repeat (DropoutWrapper (basic_cell mode hidden_size) keep_prob) n).
Proof.
  intros [-> | ->]; [apply init_cells_GRU | apply init_cells_LSTM].
Qed.

(** The encoder that the constructor returns for a supported mode. *)
Lemma init_supported
    (hidden_size : nat) (keep_prob : R) (num_layers : Z) (mode : string)
    (name : option string) :
  mode = "GRU"%string \/ mode = "LSTM"%string ->
  let cells := repeat (DropoutWrapper (basic_cell mode hidden_size) keep_prob)
                      (Z.to_nat num_layers) in
  RNNEncoder.init hidden_size keep_prob num_layers mode name
  = Ok (RNNEncoder.mk hidden_size keep_prob num_layers mode name cells cells).
Proof.
  intros Hm cells. unfold RNNEncoder.init. cbv zeta.
  now rewrite (init_cells_supported _ _ _ _ Hm).
Qed.

(** X1: for mode 'GRU' or 'LSTM' the constructor of RNNEncoder returns an
    encoder whose forward and backward lists each hold one cell per layer
    (Z.to_nat num_layers of them, none when num_layers <= 0), every cell
    a DropoutWrapper with the keep probability of the encoder around a
    GRU cell, respectively a basic LSTM cell, of the hidden size. *)
Theorem init_supported_mode_cells
    (hidden_size : nat) (keep_prob : R) (num_layers : Z) (mode : string)
    (name : option string) :
  mode = "GRU"%string \/ mode = "LSTM"%string ->
  let cell := DropoutWrapper (basic_cell mode hidden_size) keep_prob in
  exists self,
    RNNEncoder.init hidden_size keep_prob num_layers mode name = Ok self
    /\ RNNEncoder.rnn_cells_fw self = repeat cell (Z.to_nat num_layers)
    /\ RNNEncoder.rnn_cells_bw self = repeat cell (Z.to_nat num_layers)
    /\ ((num_layers <= 0)%Z -> RNNEncoder.rnn_cells_fw self = []).
Proof.
  intros Hm cell. unfold RNNEncoder.init. cbv zeta.
  rewrite (init_cells_supported _ _ _ _ Hm). cbn [fst snd].
  eexists. split; [reflexivity|]. cbn [RNNEncoder.rnn_cells_fw RNNEncoder.rnn_cells_bw].
  repeat split. intros Hle.
  replace (Z.to_nat num_layers) with O by lia. reflexivity.
Qed.

(** ** Shape and padding of the encoder output *)

Lemma output_size_wrapped (mode : string) (hidden_size : nat) (kp : R) :
  output_size (DropoutWrapper (basic_cell mode hidden_size) kp) = hidden_size.
Proof. unfold basic_cell. now destruct (mode =? "GRU")%string. Qed.

Lemma bidirectional_concat_shape (K : Kernels) (cf cb : rnn_cell) (scope : string)
    (noise : Noise) (key : list nat) (x : Tensor R) (lens : Tensor Z) :
  let outs := bidirectional_dynamic_rnn K cf cb scope noise key x lens in
  tshape (tf.concat [fst outs; snd outs] 2)
  = [nth 0 (tshape x) O; nth 1 (tshape x) O; (output_size cf + output_size cb)%nat].
Proof.
  cbv zeta. unfold bidirectional_dynamic_rnn, tf.concat, dynamic_rnn, reverse_sequence.
  cbn [fst snd tshape fold_right nth set_nth]. now rewrite Nat.add_0_r.
Qed.

Lemma dynamic_rnn_zero_past (K : Kernels) (c : rnn_cell) (scope : string)
    (noise : nat -> index -> R) (x : Tensor R) (lens : Tensor Z) :
  zero_past lens (dynamic_rnn K c scope noise x lens).
Proof.
  intros b t k Hle. unfold dynamic_rnn, finished. cbn [tdata].
  now rewrite (proj2 (Z.leb_le _ _) Hle).
Qed.

Lemma reverse_sequence_zero_past (x : Tensor R) (lens : Tensor Z) :
  zero_past lens x -> zero_past lens (reverse_sequence x lens).
Proof.
  intros Hx b t k Hle. unfold reverse_sequence, finished. cbn [tdata].
  rewrite (proj2 (Z.leb_le _ _) Hle). now apply Hx.
Qed.

Lemma concat2_zero_past (lens : Tensor Z) (x y : Tensor R) :
  zero_past lens x -> zero_past lens y -> zero_past lens (tf.concat [x; y] 2).
Proof.
  intros Hx Hy b t k Hle. unfold tf.concat. cbn [tdata tf.concat_data nth set_nth].
  destruct (k <? nth 2 (tshape x) 0)%nat; [now apply Hx|].
  destruct (k - nth 2 (tshape x) 0 <? nth 2 (tshape y) 0)%nat; [now apply Hy|].
  reflexivity.
Qed.

Lemma bidirectional_zero_past (K : Kernels) (cf cb : rnn_cell) (scope : string)
    (noise : Noise) (key : list nat) (x : Tensor R) (lens : Tensor Z) :
  let outs := bidirectional_dynamic_rnn K cf cb scope noise key x lens in
  zero_past lens (tf.concat [fst outs; snd outs] 2).
Proof.
  cbv zeta. unfold bidirectional_dynamic_rnn. cbn [fst snd].
  apply concat2_zero_past.
  - apply dynamic_rnn_zero_past.
  - apply reverse_sequence_zero_past, dynamic_rnn_zero_past.
Qed.

Lemma dropout_zero_past (lens : Tensor Z) (x : Tensor R) (kp : R) (u : index -> R) :
  zero_past lens x -> zero_past lens (tf.dropout x kp u).
Proof.
  intros Hx b t k Hle. unfold tf.dropout. cbn [tdata].
  rewrite (Hx b t k Hle). unfold Rdiv. now rewrite !Rmult_0_l.
Qed.

Lemma stack_layers_zero_past (K : Kernels) (cells : list (rnn_cell * rnn_cell))
    (scope : string) (noise : Noise) (layer : nat) (prev : Tensor R) (lens : Tensor Z) :
  cells <> [] \/ zero_past lens prev ->
  zero_past lens (stack_layers K cells scope noise layer prev lens).
Proof.
  revert layer prev. induction cells as [|[cf cb] cells IH]; intros layer prev H.
  - destruct H as [H | H]; [congruence | exact H].
  - cbn [stack_layers]. apply IH. right. apply bidirectional_zero_past.
Qed.

Lemma stack_layers_shape (K : Kernels) (c : rnn_cell) (n : nat)
    (scope : string) (noise : Noise) (layer : nat) (prev : Tensor R) (lens : Tensor Z) :
  tshape (stack_layers K (combine (repeat c (S n)) (repeat c (S n))) scope noise layer
            prev lens)
  = [nth 0 (tshape prev) O; nth 1 (tshape prev) O; (output_size c + output_size c)%nat].
Proof.
  revert layer prev. induction n as [|n IH]; intros layer prev.
  - cbn [repeat combine stack_layers]. apply bidirectional_concat_shape.
  - change (combine (repeat c (S (S n))) (repeat c (S (S n))))
      with ((c, c) :: combine (repeat c (S n)) (repeat c (S n))).
    cbn [stack_layers]. rewrite IH, bidirectional_concat_shape. reflexivity.
Qed.

(** The sequence length is the sum of the row of the mask. *)
Lemma input_lens_data (masks : Tensor Z) (B T b : nat) :
  tshape masks = [B; T] ->
  tdata (tf.reduce_sum masks 1) [b] = nsum T (fun j => tdata masks [b; j]).
Proof.
  intros Hm. unfold tf.reduce_sum. cbn [tdata]. rewrite Hm. reflexivity.
Qed.

(** X2: an RNNEncoder built for mode 'GRU' or 'LSTM' with at least one
    layer builds its graph without an error on inputs of shape
    (batch_size, seq_len, input_size), and the output has shape
    (batch_size, seq_len, 2 * hidden_size), for one layer as for several. *)
Theorem encoder_output_shape
    (hidden_size : nat) (keep_prob : R) (num_layers : Z) (mode : string)
    (name : option string) (K : Kernels) (noise : Noise)
    (inputs : Tensor R) (masks : Tensor Z) (B T D : nat) :
  mode = "GRU"%string \/ mode = "LSTM"%string ->
  (1 <= num_layers)%Z ->
  tshape inputs = [B; T; D] ->
  exists self out,
    RNNEncoder.init hidden_size keep_prob num_layers mode name = Ok self
    /\ RNNEncoder.build_graph self K noise inputs masks = Ok out
    /\ tshape out = [B; T; (2 * hidden_size)%nat].
Proof.
  intros Hm Hl Hs.
  pose proof (init_supported hidden_size keep_prob num_layers mode name Hm) as Hinit.
  cbv zeta in Hinit.
  set (self := RNNEncoder.mk hidden_size keep_prob num_layers mode name _ _) in Hinit.
  exists self.
  assert (Hnl : RNNEncoder.num_layers self = num_layers) by reflexivity.
  assert (Hfw : RNNEncoder.rnn_cells_fw self
                = repeat (DropoutWrapper (basic_cell mode hidden_size) keep_prob)
                         (Z.to_nat num_layers)) by reflexivity.
  assert (Hbw : RNNEncoder.rnn_cells_bw self
                = repeat (DropoutWrapper (basic_cell mode hidden_size) keep_prob)
                         (Z.to_nat num_layers)) by reflexivity.
  assert (Hkp : RNNEncoder.keep_prob self = keep_prob) by reflexivity.
  assert (Hname : RNNEncoder.name self = name) by reflexivity.
  clearbody self.
  destruct (Z.to_nat num_layers) as [|n] eqn:En; [lia|].
  unfold RNNEncoder.build_graph. rewrite Hnl, Hfw, Hbw.
  destruct (num_layers =? 1)%Z.
  - cbn [repeat list_get nth_error bind].
    eexists. split; [exact Hinit | split; [reflexivity|]].
    rewrite dropout_shape, bidirectional_concat_shape, Hs, !output_size_wrapped.
    cbn [nth]. do 3 f_equal. lia.
  - unfold stack_bidirectional_dynamic_rnn. cbn [repeat]. rewrite Nat.eqb_refl.
    cbn [bind]. eexists. split; [exact Hinit | split; [reflexivity|]].
    rewrite dropout_shape.
    set (c := DropoutWrapper (basic_cell mode hidden_size) keep_prob).
    change (c :: repeat c n) with (repeat c (S n)).
    rewrite stack_layers_shape, Hs. unfold c. rewrite !output_size_wrapped.
    cbn [nth]. do 3 f_equal. lia.
Qed.

Lemma encoder_output_shape_witness :
  exists self out,
    RNNEncoder.init 3 1 2 "LSTM" None = Ok self
    /\ RNNEncoder.build_graph self Examples.id_kernels Examples.noise_zero
         (Examples.ones3 1 4 5) (Examples.zeros2 1 4) = Ok out
    /\ tshape out = [1; 4; 6]%nat.
Proof.
  destruct (encoder_output_shape 3 1 2 "LSTM" None Examples.id_kernels
              Examples.noise_zero (Examples.ones3 1 4 5) (Examples.zeros2 1 4) 1 4 5)
    as [self [out H]]; [right; reflexivity | lia | reflexivity |].
  exists self, out. exact H.
Defined.

(** X3: whenever RNNEncoder.build_graph returns, its output is zero at
    every time step at or after the length of the sequence, the length
    being the sum of the row of the mask: through the forward and the
    reversed backward pass, the concatenation, every stacked layer and
    the final dropout. *)
Theorem encoder_output_zero_at_padding
    (self : RNNEncoder.t) (K : Kernels) (noise : Noise)
    (inputs : Tensor R) (masks : Tensor Z) (out : Tensor R) (B T : nat) :
  tshape masks = [B; T] ->
  RNNEncoder.build_graph self K noise inputs masks = Ok out ->
  forall b t k,
    (nsum T (fun j => tdata masks [b; j]) <= Z.of_nat t)%Z ->
    tdata out [b; t; k] = 0.
Proof.
  intros Hm Hb b t k Hle.
  rewrite <- (input_lens_data masks B T b Hm) in Hle.
  revert b t k Hle. change (zero_past (tf.reduce_sum masks 1) out).
  unfold RNNEncoder.build_graph in Hb.
  destruct (RNNEncoder.num_layers self =? 1)%Z.
  - destruct (list_get (RNNEncoder.rnn_cells_fw self) 0) as [cf|e]; [|discriminate].
    destruct (list_get (RNNEncoder.rnn_cells_bw self) 0) as [cb|e]; [|discriminate].
    cbn [bind] in Hb. injection Hb as <-.
    apply dropout_zero_past.
    exact (bidirectional_zero_past K cf cb _ noise [O] inputs (tf.reduce_sum masks 1)).
  - unfold stack_bidirectional_dynamic_rnn in Hb.
    destruct (RNNEncoder.rnn_cells_fw self) as [|cf fw]; [discriminate|].
    destruct (RNNEncoder.rnn_cells_bw self) as [|cb bw]; [discriminate|].
    destruct (length (cf :: fw) =? length (cb :: bw))%nat; [|discriminate].
    cbn [bind] in Hb. injection Hb as <-.
    apply dropout_zero_past, stack_layers_zero_past. right.
    exact (bidirectional_zero_past K cf cb _ noise [O] inputs (tf.reduce_sum masks 1)).
Qed.

Lemma encoder_output_zero_at_padding_witness :
  exists out,
    RNNEncoder.build_graph (RNNEncoder.mk 3 1 1 "GRU" None
                              [DropoutWrapper (GRUCell 3) 1]
                              [DropoutWrapper (GRUCell 3) 1])
      Examples.id_kernels Examples.noise_zero
      (Examples.ones3 1 4 5) (Examples.zeros2 1 4) = Ok out
    /\ tdata out [O; 2%nat; O] = 0.
Proof.
  eexists. split; [reflexivity|].
  apply (encoder_output_zero_at_padding
           (RNNEncoder.mk 3 1 1 "GRU" None [DropoutWrapper (GRUCell 3) 1]
                          [DropoutWrapper (GRUCell 3) 1])
           Examples.id_kernels Examples.noise_zero
           (Examples.ones3 1 4 5) (Examples.zeros2 1 4) _ 1 4);
    [reflexivity | reflexivity | simpl; lia].
Defined.

(** X4: when num_layers <= 0 or the mode is neither 'GRU' nor 'LSTM', and
    num_layers is not 1, the constructor returns an encoder without cells
    and build_graph fails with the ValueError of
    stack_bidirectional_dynamic_rnn on an empty list of cells. *)
Theorem encoder_without_cells_fails
    (hidden_size : nat) (keep_prob : R) (num_layers : Z) (mode : string)
    (name : option string) (K : Kernels) (noise : Noise)
    (inputs : Tensor R) (masks : Tensor Z) :
  (num_layers <= 0)%Z \/ (mode <> "GRU"%string /\ mode <> "LSTM"%string) ->
  num_layers <> 1%Z ->
  exists self,
    RNNEncoder.init hidden_size keep_prob num_layers mode name = Ok self
    /\ RNNEncoder.rnn_cells_fw self = []
    /\ RNNEncoder.rnn_cells_bw self = []
    /\ RNNEncoder.build_graph self K noise inputs masks = Raise ValueError.
Proof.
  intros H Hne.
  assert (Hc : RNNEncoder.init_cells (Z.to_nat num_layers) hidden_size keep_prob
                 mode [] [] = ([], [])).
  { destruct H as [Hle | [Hg Hl]].
    - replace (Z.to_nat num_layers) with O by lia. reflexivity.
    - now apply init_cells_unsupported. }
  unfold RNNEncoder.init. cbv zeta. rewrite Hc. cbn [fst snd].
  eexists. split; [reflexivity|].
  split; [reflexivity | split; [reflexivity|]].
  unfold RNNEncoder.build_graph.
  cbn [RNNEncoder.num_layers RNNEncoder.rnn_cells_fw RNNEncoder.rnn_cells_bw].
  apply Z.eqb_neq in Hne. rewrite Hne. reflexivity.
Qed.

Lemma encoder_without_cells_fails_witness :
  exists self,
    RNNEncoder.init 200 1 0 "GRU" None = Ok self
    /\ RNNEncoder.build_graph self Examples.id_kernels Examples.noise_zero
         (Examples.ones3 1 1 1) Examples.one_mask = Raise ValueError.
Proof.
  destruct (encoder_without_cells_fails 200 1 0 "GRU" None Examples.id_kernels
              Examples.noise_zero (Examples.ones3 1 1 1) Examples.one_mask)
    as [self [Hi [_ [_ Hb]]]]; [left; lia | lia |].
  exists self. split; assumption.
Defined.

Lemma init_supported_mode_cells_witness :
  exists self,
    RNNEncoder.init 200 1 2 "GRU" None = Ok self
    /\ RNNEncoder.rnn_cells_fw self
       = [DropoutWrapper (GRUCell 200) 1; DropoutWrapper (GRUCell 200) 1].
Proof.
  destruct (init_supported_mode_cells 200 1 2 "GRU" None) as [self [Hi [Hfw _]]];
    [left; reflexivity |].
  exists self. split; [exact Hi | exact Hfw].
Defined.

(** ** The scores of SelfAttn *)

Section SelfAttnScores.
Variable self : SelfAttn.t.
Variable vars : Variables.
Variable noise : index -> R.
Variable contexts : Tensor R.
Variable contexts_mask : Tensor Z.
Variables B N Hd C : nat.
Hypothesis HC : SelfAttn.attention_size self = C.
Hypothesis Hc : tshape contexts = [B; N; Hd].
Hypothesis HB : (0 < B)%nat.
Hypothesis HN : (0 < N)%nat.
Hypothesis HCpos : (0 < C)%nat.

Let g := SelfAttn.nodes self vars noise contexts contexts_mask.

Local Abbreviation rows := (tf.reshape contexts [Z.of_nat (B * N); (-1)%Z]) (only parsing).
Local Abbreviation W name :=
  (get_variable vars "SelfAttn" name [SelfAttn.hidden_size self; C]) (only parsing).
Local Abbreviation val name :=
  (tf.reshape (tf.matmul rows (W name)) [(-1)%Z; Z.of_nat N; Z.of_nat C])
  (only parsing).

Lemma sa_rows_shape : tshape rows = [(B * N)%nat; Hd].
Proof.
  unfold tf.reshape. cbn [tshape]. rewrite infer_shape_last, Hc.
  replace (numel [B; N; Hd] / (B * N))%nat with Hd; [reflexivity|].
  apply Nat.div_unique_exact; cbn [numel fold_right]; [nia | ring].
Qed.

Lemma sa_rows_data b i h : (b < B)%nat -> (i < N)%nat -> (h < Hd)%nat ->
  tdata rows [(b * N + i)%nat; h] = tdata contexts [b; i; h].
Proof.
  intros Hb Hi Hh. apply reshape_at.
  - rewrite Hc. simpl. tauto.
  - change (tf.infer_shape _ _) with (tshape rows). rewrite sa_rows_shape, Hc.
    simpl. ring.
Qed.

Lemma sa_mm_shape name : tshape (tf.matmul rows (W name)) = [(B * N)%nat; C].
Proof. unfold tf.matmul. cbn [tshape]. rewrite sa_rows_shape. reflexivity. Qed.

Lemma sa_val_shape name : tshape (val name) = [B; N; C].
Proof.
  unfold tf.reshape at 1. cbn [tshape].
  rewrite (infer_shape_head _ [N; C]), sa_mm_shape.
  replace (numel [(B * N)%nat; C] / numel [N; C])%nat with B; [reflexivity|].
  apply Nat.div_unique_exact; cbn [numel fold_right]; [nia | ring].
Qed.

Lemma sa_val_data name b i c : (b < B)%nat -> (i < N)%nat -> (c < C)%nat ->
  tdata (val name) [b; i; c]
  = nsum Hd (fun h => tdata contexts [b; i; h]
                      * vars ("SelfAttn/" ++ name)%string [h; c]).
Proof.
  intros Hb Hi Hcc.
  rewrite (reshape_at _ _ [b; i; c] [(b * N + i)%nat; c]).
  - unfold tf.matmul at 1. cbn [tdata rev app]. rewrite sa_rows_shape. cbn [last].
    apply nsum_ext. intros h Hh. cbn [nmul Num_R].
    now rewrite sa_rows_data by assumption.
  - rewrite sa_mm_shape. simpl. split; [nia | tauto].
  - change (tf.infer_shape _ _) with (tshape (val name)).
    rewrite sa_val_shape, sa_mm_shape. simpl. ring.
Qed.

Lemma sa_values_1_eq : SelfAttn.values_1 g = val "W1".
Proof.
  unfold g, SelfAttn.nodes. cbn [SelfAttn.values_1]. unfold tf.shape.
  rewrite Hc, HC. reflexivity.
Qed.

Lemma sa_values_2_eq : SelfAttn.values_2 g = val "W2".
Proof.
  unfold g, SelfAttn.nodes. cbn [SelfAttn.values_2]. unfold tf.shape.
  rewrite Hc, HC. reflexivity.
Qed.

Lemma sa_additive_eq : SelfAttn.additive_value g
  = tf.tanh (tf.add (tf.expand_dims (SelfAttn.values_1 g) 1)
                    (tf.expand_dims (SelfAttn.values_2 g) 2)).
Proof. reflexivity. Qed.

Lemma sa_additive_shape : tshape (SelfAttn.additive_value g) = [B; N; N; C].
Proof.
  rewrite sa_additive_eq, sa_values_1_eq, sa_values_2_eq.
  unfold tf.tanh, tf.map, tf.add, tf.binop, tf.expand_dims. cbn [tshape].
  rewrite !sa_val_shape. cbn [length]. norm_ax.
  unfold broadcast_shape. cbn [insert_nth rev app bshape_r Nat.eqb].
  now rewrite !bsel_same, bsel_one.
Qed.

Lemma sa_additive_data b i j c :
  (b < B)%nat -> (i < N)%nat -> (j < N)%nat -> (c < C)%nat ->
  tdata (SelfAttn.additive_value g) [b; i; j; c]
  = Rtrigo_def.tanh (tdata (val "W1") [b; j; c] + tdata (val "W2") [b; i; c]).
Proof.
  intros Hb Hi Hj Hcc.
  rewrite sa_additive_eq, sa_values_1_eq, sa_values_2_eq.
  unfold tf.tanh, tf.map, tf.add, tf.binop, tf.expand_dims. cbn [tshape tdata].
  rewrite !sa_val_shape. cbn [length]. norm_ax.
  unfold bidx. cbn [insert_nth rev app bidx_r Nat.eqb remove_nth].
  repeat (rewrite ?(bsel_lt B b), ?(bsel_lt N i), ?(bsel_lt N j), ?(bsel_lt C c)
            by assumption).
  reflexivity.
Qed.

Lemma sa_flat_data b i j c :
  (b < B)%nat -> (i < N)%nat -> (j < N)%nat -> (c < C)%nat ->
  tdata (tf.reshape (SelfAttn.additive_value g) [Z.of_nat (B * N * N); Z.of_nat C])
        [((b * N + i) * N + j)%nat; c]
  = tdata (SelfAttn.additive_value g) [b; i; j; c].
Proof.
  intros Hb Hi Hj Hcc. apply reshape_at.
  - rewrite sa_additive_shape. simpl. tauto.
  - rewrite (infer_shape_known _ [(B * N * N)%nat; C]), sa_additive_shape.
    simpl. ring.
Qed.

Lemma sa_E_data b i j : (b < B)%nat -> (i < N)%nat -> (j < N)%nat ->
  tdata (SelfAttn.E g) [b; i; j]
  = nsum C (fun c => tdata (SelfAttn.additive_value g) [b; i; j; c]
                     * vars "SelfAttn/v"%string [c; O]).
Proof.
  intros Hb Hi Hj. unfold g.
  rewrite (sa_E_eq self vars noise contexts contexts_mask B N Hd Hc).
  rewrite (reshape_at _ _ [b; i; j] [((b * N + i) * N + j)%nat; O]).
  - rewrite (sa_E0_eq self vars noise contexts contexts_mask B N Hd Hc).
    unfold tf.matmul at 1. cbn [tdata rev app].
    rewrite sa_flat_shape, HC. cbn [last].
    apply nsum_ext. intros c Hcc. cbn [nmul Num_R]. fold g.
    now rewrite sa_flat_data by assumption.
  - rewrite (sa_E0_shape self vars noise contexts contexts_mask B N Hd Hc).
    simpl. split; [nia | lia].
  - rewrite (infer_shape_head _ [N; N]),
      (sa_E0_shape self vars noise contexts contexts_mask B N Hd Hc).
    replace (numel [(B * N * N)%nat; 1%nat] / numel [N; N])%nat with B
      by (apply Nat.div_unique_exact; cbn [numel fold_right]; [nia | ring]).
    simpl. ring.
Qed.

Lemma sa_output_shape :
  tshape contexts_mask = [B; N] ->
  tshape (SelfAttn.output g) = [B; N; Hd].
Proof.
  intros Hcm. unfold g. rewrite sa_output_eq, dropout_shape.
  unfold tf.matmul. cbn [tshape].
  rewrite (sa_attn_p_shape self vars noise contexts contexts_mask B N Hd Hc Hcm HN), Hc.
  reflexivity.
Qed.

End SelfAttnScores.

(** X5: for contexts of shape (B, N, Hd) and a mask of shape (B, N), with
    B, N and the attention size C positive, the two projections of
    SelfAttn have shape (B, N, C), the additive values (B, N, N, C), the
    scores and the returned distribution (B, N, N), and the returned
    output has the shape of the contexts. *)
Theorem self_attn_shapes
    (self : SelfAttn.t) (vars : Variables) (noise : index -> R)
    (contexts : Tensor R) (contexts_mask : Tensor Z) (B N Hd : nat) :
  let g := SelfAttn.nodes self vars noise contexts contexts_mask in
  let C := SelfAttn.attention_size self in
  tshape contexts = [B; N; Hd] -> tshape contexts_mask = [B; N] ->
  (0 < B)%nat -> (0 < N)%nat -> (0 < C)%nat ->
  tshape (SelfAttn.values_1 g) = [B; N; C]
  /\ tshape (SelfAttn.values_2 g) = [B; N; C]
  /\ tshape (SelfAttn.additive_value g) = [B; N; N; C]
  /\ tshape (SelfAttn.E g) = [B; N; N]
  /\ tshape (fst (SelfAttn.build_graph self vars noise contexts contexts_mask))
     = [B; N; N]
  /\ tshape (snd (SelfAttn.build_graph self vars noise contexts contexts_mask))
     = tshape contexts.
Proof.
  intros g C Hc Hcm HB HN HC. subst g C.
  repeat split.
  - rewrite (sa_values_1_eq self vars noise contexts contexts_mask B N Hd _ eq_refl Hc).
    exact (sa_val_shape self vars contexts B N Hd _ eq_refl Hc HB HN HC "W1"%string).
  - rewrite (sa_values_2_eq self vars noise contexts contexts_mask B N Hd _ eq_refl Hc).
    exact (sa_val_shape self vars contexts B N Hd _ eq_refl Hc HB HN HC "W2"%string).
  - exact (sa_additive_shape self vars noise contexts contexts_mask B N Hd _ eq_refl
             Hc HB HN HC).
  - exact (sa_E_shape self vars noise contexts contexts_mask B N Hd Hc HN).
  - exact (sa_attn_p_shape self vars noise contexts contexts_mask B N Hd Hc Hcm HN).
  - rewrite Hc.
    exact (sa_output_shape self vars noise contexts contexts_mask B N Hd Hc HN Hcm).
Qed.

(** X6: the score that SelfAttn gives to the pair (i, j) of positions
    before masking is the additive attention
    sum over c of tanh((x_j W1)[c] + (x_i W2)[c]) * v[c],
    with the first projection taken at the second position of the pair. *)
Theorem self_attn_additive_scores
    (self : SelfAttn.t) (vars : Variables) (noise : index -> R)
    (contexts : Tensor R) (contexts_mask : Tensor Z) (B N Hd : nat) :
  let g := SelfAttn.nodes self vars noise contexts contexts_mask in
  let C := SelfAttn.attention_size self in
  let p1 := sa_projection vars "W1" contexts Hd in
  let p2 := sa_projection vars "W2" contexts Hd in
  tshape contexts = [B; N; Hd] ->
  (0 < B)%nat -> (0 < N)%nat -> (0 < C)%nat ->
  forall b i j, (b < B)%nat -> (i < N)%nat -> (j < N)%nat ->
    tdata (SelfAttn.E g) [b; i; j]
    = nsum C (fun c => Rtrigo_def.tanh (p1 b j c + p2 b i c)
                       * sa_weight vars "v" c O).
Proof.
  intros g C p1 p2 Hc HB HN HC b i j Hb Hi Hj. subst g C p1 p2.
  rewrite (sa_E_data self vars noise contexts contexts_mask B N Hd _ eq_refl
             Hc HB HN HC b i j Hb Hi Hj).
  apply nsum_ext. intros c Hcc. f_equal.
  rewrite (sa_additive_data self vars noise contexts contexts_mask B N Hd _ eq_refl
             Hc HB HN HC b i j c Hb Hi Hj Hcc).
  rewrite !(sa_val_data self vars contexts B N Hd _ eq_refl Hc HB HN HC) by assumption.
  reflexivity.
Qed.

Lemma self_attn_shapes_witness :
  tshape (fst (SelfAttn.build_graph Examples.sa_layer Examples.unit_vars
                 Examples.no_noise Examples.sa_contexts Examples.sa_real))
  = [1; 1; 1]%nat
  /\ tshape (snd (SelfAttn.build_graph Examples.sa_layer Examples.unit_vars
                    Examples.no_noise Examples.sa_contexts Examples.sa_real))
     = tshape Examples.sa_contexts.
Proof.
  destruct (self_attn_shapes Examples.sa_layer Examples.unit_vars Examples.no_noise
              Examples.sa_contexts Examples.sa_real 1 1 1)
    as [_ [_ [_ [_ [Hp Ho]]]]];
    [reflexivity | reflexivity | lia | lia | simpl; lia |].
  split; assumption.
Defined.

Lemma self_attn_additive_scores_witness :
  tdata (SelfAttn.E (SelfAttn.nodes Examples.sa_layer Examples.unit_vars
                       Examples.no_noise Examples.sa_contexts Examples.sa_real))
        [O; O; O]
  = 0 + Rtrigo_def.tanh (0 + 1 * 1 + (0 + 1 * 1)) * 1.
Proof.
  rewrite (self_attn_additive_scores Examples.sa_layer Examples.unit_vars
             Examples.no_noise Examples.sa_contexts Examples.sa_real 1 1 1)
    by (reflexivity || lia || (simpl; lia)).
  reflexivity.
Defined.

(** ** The fused output and the question-to-context weights of BidirectionAttn *)

Lemma rmax_le (n : nat) (f : nat -> R) (c : R) :
  (0 < n)%nat -> (forall k, (k < n)%nat -> f k <= c) -> rmax n f <= c.
Proof.
  intros Hn Hf. destruct (rmax_attained n f Hn) as [k [Hk ->]]. now apply Hf.
Qed.

Section BidirectionAttnFusion.
Variable self : BidirectionAttn.t.
Variable vars : Variables.
Variable noise : index -> R.
Variables questions contexts : Tensor R.
Variables questions_mask contexts_mask : Tensor Z.
Variables B N M D : nat.
Hypothesis HD : (2 * BidirectionAttn.hidden_size self)%nat = D.
Hypothesis Hq : tshape questions = [B; M; D].
Hypothesis Hqm : tshape questions_mask = [B; M].
Hypothesis Hc : tshape contexts = [B; N; D].
Hypothesis Hcm : tshape contexts_mask = [B; N].
Hypothesis HN : (0 < N)%nat.
Hypothesis HM : (0 < M)%nat.
Hypothesis HDpos : (0 < D)%nat.

Let g := BidirectionAttn.nodes self vars noise questions questions_mask contexts contexts_mask.

Let c2q_shape : tshape (BidirectionAttn.c2q_output g) = [B; N; D] :=
  g_c2q_shape self vars noise questions contexts questions_mask contexts_mask
              B N M D HD Hq Hqm Hc Hcm HN HM HDpos.

Lemma g_c2q_data b i k :
  tdata (BidirectionAttn.c2q_output g) [b; i; k]
  = nsum M (fun j => tdata (BidirectionAttn.alpha g) [b; i; j]
                     * tdata questions [b; j; k]).
Proof.
  change (BidirectionAttn.c2q_output g) with (tf.matmul (BidirectionAttn.alpha g) questions).
  unfold tf.matmul. cbn [tdata rev app].
  unfold g. rewrite (g_alpha_shape self vars noise questions contexts questions_mask
                       contexts_mask B N M D HD Hq Hqm Hc Hcm HN HM HDpos).
  reflexivity.
Qed.

Lemma g_fused_first b i k : (k < D)%nat ->
  tdata (BidirectionAttn.fused g) [b; i; k] = tdata (BidirectionAttn.c2q_output g) [b; i; k].
Proof.
  intros Hk. unfold g at 1. rewrite g_fused_eq. fold g.
  unfold tf.concat. cbn [tdata tf.concat_data]. rewrite c2q_shape. cbn [nth].
  now rewrite (proj2 (Nat.ltb_lt k D) Hk).
Qed.

Lemma g_fused_second b i k : (b < B)%nat -> (i < N)%nat -> (k < D)%nat ->
  tdata (BidirectionAttn.fused g) [b; i; (D + k)%nat]
  = tdata (BidirectionAttn.c2q_output g) [b; i; k] * tdata contexts [b; i; k].
Proof.
  intros Hb Hi Hk. unfold g at 1. rewrite g_fused_eq. fold g.
  unfold tf.concat. cbn [tdata tf.concat_data].
  rewrite (mul_contexts_shape contexts B N D Hc _ c2q_shape).
  rewrite c2q_shape. cbn [nth set_nth].
  replace (D + k <? D)%nat with false by (symmetry; apply Nat.ltb_ge; lia).
  replace (D + k - D)%nat with k by lia.
  rewrite (proj2 (Nat.ltb_lt k D) Hk).
  now rewrite (mul_contexts_data contexts B N D Hc _ b i k c2q_shape Hb Hi Hk).
Qed.

End BidirectionAttnFusion.

(** X7: BidirectionAttn returns alpha of shape (B, N, M) and an output of
    shape (B, N, 6H); before dropout the first 2H entries of the output
    at a context position are the alpha-weighted sum of the question
    vectors, and the next 2H entries are that sum multiplied entry by
    entry with the context vector. *)
Theorem bidaf_fused_output
    (self : BidirectionAttn.t) (vars : Variables) (noise : index -> R)
    (questions : Tensor R) (questions_mask : Tensor Z)
    (contexts : Tensor R) (contexts_mask : Tensor Z) (B N M : nat) :
  let H := BidirectionAttn.hidden_size self in
  let g := BidirectionAttn.nodes self vars noise questions questions_mask
                                 contexts contexts_mask in
  let r := BidirectionAttn.build_graph self vars noise questions questions_mask
                                       contexts contexts_mask in
  let c2q b i k :=
    nsum M (fun j => tdata (fst (fst r)) [b; i; j] * tdata questions [b; j; k]) in
  tshape questions = [B; M; (2 * H)%nat] -> tshape questions_mask = [B; M] ->
  tshape contexts = [B; N; (2 * H)%nat] -> tshape contexts_mask = [B; N] ->
  (0 < N)%nat -> (0 < M)%nat -> (0 < H)%nat ->
  tshape (fst (fst r)) = [B; N; M]
  /\ tshape (snd r) = [B; N; (6 * H)%nat]
  /\ forall b i k, (b < B)%nat -> (i < N)%nat -> (k < 2 * H)%nat ->
       tdata (BidirectionAttn.fused g) [b; i; k] = c2q b i k
       /\ tdata (BidirectionAttn.fused g) [b; i; (2 * H + k)%nat]
          = c2q b i k * tdata contexts [b; i; k].
Proof.
  intros H g r c2q Hq Hqm Hc Hcm HN HM HH.
  assert (HD : (0 < 2 * H)%nat) by lia.
  subst c2q r g. cbv beta.
  split; [|split].
  - exact (g_alpha_shape self vars noise questions contexts questions_mask
             contexts_mask B N M (2 * H) eq_refl Hq Hqm Hc Hcm HN HM HD).
  - unfold BidirectionAttn.build_graph. cbn [snd].
    change (BidirectionAttn.output ?x)
      with (tf.dropout (BidirectionAttn.fused x) (BidirectionAttn.keep_prob self) noise).
    rewrite dropout_shape.
    rewrite (g_fused_shape self vars noise questions contexts questions_mask
               contexts_mask B N M (2 * H) eq_refl Hq Hqm Hc Hcm HN HM HD).
    do 3 f_equal. lia.
  - intros b i k Hb Hi Hk. split.
    + rewrite (g_fused_first self vars noise questions contexts questions_mask
                 contexts_mask B N M (2 * H) eq_refl Hq Hqm Hc Hcm HN HM HD b i k Hk).
      exact (g_c2q_data self vars noise questions contexts questions_mask
               contexts_mask B N M (2 * H) eq_refl Hq Hqm Hc Hcm HN HM HD b i k).
    + rewrite (g_fused_second self vars noise questions contexts questions_mask
                 contexts_mask B N M (2 * H) eq_refl Hq Hqm Hc Hcm HN HM HD
                 b i k Hb Hi Hk).
      f_equal.
      exact (g_c2q_data self vars noise questions contexts questions_mask
               contexts_mask B N M (2 * H) eq_refl Hq Hqm Hc Hcm HN HM HD b i k).
Qed.

Lemma bidaf_fused_output_witness :
  tshape (snd (BidirectionAttn.build_graph Examples.bidaf Examples.unit_vars
                 Examples.no_noise (Examples.ones3 1 1 2) (Examples.zeros2 1 1)
                 (Examples.ones3 1 1 2) (Examples.zeros2 1 1)))
  = [1; 1; 6]%nat.
Proof.
  destruct (bidaf_fused_output Examples.bidaf Examples.unit_vars
              Examples.no_noise (Examples.ones3 1 1 2) (Examples.zeros2 1 1)
              (Examples.ones3 1 1 2) (Examples.zeros2 1 1) 1 1 1)
    as [_ [Hs _]];
    [reflexivity | reflexivity | reflexivity | reflexivity | lia | lia | simpl; lia |].
  exact Hs.
Defined.

Lemma beta_rows
    (self : BidirectionAttn.t) (vars : Variables) (noise : index -> R)
    (questions : Tensor R) (questions_mask : Tensor Z)
    (contexts : Tensor R) (contexts_mask : Tensor Z) (B N M D : nat) :
  let g := BidirectionAttn.nodes self vars noise questions questions_mask
                                 contexts contexts_mask in
  let beta := snd (fst (BidirectionAttn.build_graph self vars noise questions
                          questions_mask contexts contexts_mask)) in
  (2 * BidirectionAttn.hidden_size self)%nat = D ->
  tshape questions = [B; M; D] -> tshape questions_mask = [B; M] ->
  tshape contexts = [B; N; D] -> tshape contexts_mask = [B; N] ->
  (0 < N)%nat -> (0 < M)%nat -> (0 < D)%nat ->
  (forall b i j, (b < B)%nat -> (i < N)%nat -> (j < M)%nat ->
     tdata (BidirectionAttn.S g) [b; i; j]
     = tdata (BidirectionAttn.S0 g) [b; i; j]
       + (1 - IZR (tdata contexts_mask [b; i] * tdata questions_mask [b; j]))
         * (-1e30))
  /\ (forall b i, (b < B)%nat -> (i < N)%nat ->
        tdata beta [b; i]
        = softmax_row N (fun i' => rmax M (fun j =>
                           tdata (BidirectionAttn.S g) [b; i'; j])) i).
Proof.
  intros g beta HD Hq Hqm Hc Hcm HN HM HDpos. subst beta g. split.
  - intros b i j Hb Hi Hj.
    exact (g_S_data self vars noise questions contexts questions_mask
             contexts_mask B N M D HD Hq Hqm Hc Hcm HN HM HDpos b i j Hb Hi Hj).
  - intros b i Hb Hi.
    rewrite (g_beta_out_data self vars noise questions contexts questions_mask
               contexts_mask B N M D HD Hq Hqm Hc Hcm HN HM HDpos b i Hb Hi).
    rewrite (g_beta_t_data self vars noise questions contexts questions_mask
               contexts_mask B N M D HD Hq Hqm Hc Hcm HN HM HDpos b i).
    apply softmax_row_ext; [|assumption].
    intros i' Hi'.
    exact (g_m_data self vars noise questions contexts questions_mask
             contexts_mask B N M D HD Hq Hqm Hc Hcm HN HM HDpos b i').
Qed.

(** X8: the question-to-context weights beta of BidirectionAttn sum to 1
    over the context positions of every batch element, and a padded
    context position gets a weight of at most exp(2L - 1e30), numerically
    0, when the batch element has a real context position and a real
    question position and L bounds the magnitude of the similarities. *)
Theorem beta_suppresses_padding
    (self : BidirectionAttn.t) (vars : Variables) (noise : index -> R)
    (questions : Tensor R) (questions_mask : Tensor Z)
    (contexts : Tensor R) (contexts_mask : Tensor Z) (B N M : nat) (L : R) :
  let H := BidirectionAttn.hidden_size self in
  let S0 := BidirectionAttn.build_similarity_matrix self vars "BidirectionAttn"
              questions contexts in
  let beta := snd (fst (BidirectionAttn.build_graph self vars noise questions
                          questions_mask contexts contexts_mask)) in
  tshape questions = [B; M; (2 * H)%nat] -> tshape questions_mask = [B; M] ->
  tshape contexts = [B; N; (2 * H)%nat] -> tshape contexts_mask = [B; N] ->
  (0 < N)%nat -> (0 < M)%nat -> (0 < H)%nat ->
  forall b, (b < B)%nat ->
    nsum N (fun i => tdata beta [b; i]) = 1
    /\ forall i i' j',
         (i < N)%nat -> (i' < N)%nat -> (j' < M)%nat ->
         tdata contexts_mask [b; i] = 0%Z ->
         tdata contexts_mask [b; i'] = 1%Z -> tdata questions_mask [b; j'] = 1%Z ->
         (forall i0 j0, (i0 < N)%nat -> (j0 < M)%nat ->
            Rabs (tdata S0 [b; i0; j0]) <= L) ->
         0 <= tdata beta [b; i] <= exp (2 * L - 1e30).
Proof.
  intros H S0 beta Hq Hqm Hc Hcm HN HM HH b Hb.
  assert (HD : (0 < 2 * H)%nat) by lia.
  destruct (beta_rows self vars noise questions questions_mask
              contexts contexts_mask B N M (2 * H) eq_refl Hq Hqm Hc Hcm HN HM HD)
    as [HS Hbeta].
  set (m := fun i' => rmax M (fun j =>
              tdata (BidirectionAttn.S (BidirectionAttn.nodes self vars noise
                       questions questions_mask contexts contexts_mask)) [b; i'; j])).
  assert (Hrow : forall i, (i < N)%nat -> tdata beta [b; i] = softmax_row N m i).
  { intros i Hi. now apply Hbeta. }
  split.
  - rewrite (nsum_ext N _ _ Hrow). now apply softmax_row_total.
  - intros i i' j' Hi Hi' Hj' Hmi Hmi' Hmj' HL.
    rewrite (Hrow i Hi). split; [left; now apply softmax_row_pos|].
    rewrite (softmax_row_ratio N m i i' HN).
    pose proof (softmax_row_le_1 N m i' Hi') as H1.
    pose proof (softmax_row_pos N m i' HN) as H0.
    assert (Hlo : m i <= L - 1e30).
    { apply rmax_le; [assumption|]. intros j Hj.
      rewrite (HS b i j Hb Hi Hj), Hmi.
      pose proof (Rabs_le_both _ _ (HL i j Hi Hj)).
      change (BidirectionAttn.S0 _) with S0. rewrite Z.mul_0_l. lra. }
    assert (Hhi : - L <= m i').
    { eapply Rle_trans; [|apply (rmax_upper M _ j' Hj')]. cbv beta.
      rewrite (HS b i' j' Hb Hi' Hj'), Hmi', Hmj'.
      pose proof (Rabs_le_both _ _ (HL i' j' Hi' Hj')).
      change (BidirectionAttn.S0 _) with S0. change (1 * 1)%Z with 1%Z. lra. }
    pose proof (exp_pos (m i - m i')) as He.
    apply Rle_trans with (exp (m i - m i')).
    + rewrite <- (Rmult_1_l (exp (m i - m i'))) at 2.
      apply Rmult_le_compat_r; lra.
    + apply exp_le. lra.
Qed.

Lemma unit_similarity (i j : nat) :
  (i < 2)%nat -> (j < 1)%nat ->
  tdata (BidirectionAttn.build_similarity_matrix Examples.bidaf Examples.unit_vars
           "BidirectionAttn" (Examples.ones3 1 1 2) (Examples.ones3 1 2 2))
        [O; i; j] = 6.
Proof.
  intros Hi Hj.
  rewrite (S_data Examples.bidaf Examples.unit_vars "BidirectionAttn"
             (Examples.ones3 1 1 2) (Examples.ones3 1 2 2) 1 2 1 2
             eq_refl eq_refl eq_refl ltac:(lia) ltac:(lia) ltac:(lia)
             O i j ltac:(lia) Hi Hj).
  rewrite (proj_data Examples.bidaf Examples.unit_vars "BidirectionAttn" 1 2 1 2
             eq_refl ltac:(lia) ltac:(lia) ltac:(lia) (Examples.ones3 1 2 2) 2
             "w_sim_1" O i eq_refl ltac:(lia) Hi).
  rewrite (proj_data Examples.bidaf Examples.unit_vars "BidirectionAttn" 1 2 1 2
             eq_refl ltac:(lia) ltac:(lia) ltac:(lia) (Examples.ones3 1 1 2) 1
             "w_sim_2" O j eq_refl ltac:(lia) Hj).
  rewrite (term3_data Examples.bidaf Examples.unit_vars "BidirectionAttn"
             (Examples.ones3 1 1 2) (Examples.ones3 1 2 2) 1 2 1 2
             eq_refl eq_refl ltac:(lia) ltac:(lia) ltac:(lia)
             O i j ltac:(lia) Hi Hj).
  unfold Examples.unit_vars, Examples.ones3. simpl. lra.
Qed.

Lemma beta_suppresses_padding_witness :
  let beta := snd (fst (BidirectionAttn.build_graph Examples.bidaf Examples.unit_vars
                          Examples.no_noise (Examples.ones3 1 1 2) Examples.one_mask
                          (Examples.ones3 1 2 2) Examples.ba_mask)) in
  nsum 2 (fun i => tdata beta [O; i]) = 1
  /\ 0 <= tdata beta [O; 1%nat] <= exp (2 * 6 - 1e30).
Proof.
  destruct (beta_suppresses_padding Examples.bidaf Examples.unit_vars
              Examples.no_noise (Examples.ones3 1 1 2) Examples.one_mask
              (Examples.ones3 1 2 2) Examples.ba_mask 1 2 1 6)
    with (b := O) as [Hsum Hpad];
    [reflexivity | reflexivity | reflexivity | reflexivity | lia | lia
    | simpl; lia | lia |].
  split; [exact Hsum|].
  apply (Hpad 1%nat O O); try lia; try reflexivity.
  intros i0 j0 Hi0 Hj0. rewrite unit_similarity by assumption.
  rewrite Rabs_pos_eq; lra.
Defined.

(** ** The output layer *)

Section SimpleSoftmaxLayerGraph.
Variable vars : Variables.
Variable inputs : Tensor R.
Variable masks : Tensor Z.
Variables B T D : nat.
Hypothesis Hin : tshape inputs = [B; T; D].
Hypothesis Hm : tshape masks = [B; T].
Hypothesis HT : (0 < T)%nat.

Local Abbreviation logits :=
  (tf.squeeze (contrib.fully_connected vars "SimpleSoftmaxLayer" inputs 1) 2)
  (only parsing).

Lemma ssl_logits_shape : tshape logits = [B; T].
Proof.
  unfold tf.squeeze, contrib.fully_connected. cbn [tshape]. rewrite Hin. reflexivity.
Qed.

Lemma ssl_logits_data b t : tdata logits [b; t] = position_score vars inputs D b t.
Proof.
  unfold tf.squeeze, contrib.fully_connected, position_score. cbn [tshape tdata].
  rewrite Hin. reflexivity.
Qed.

Lemma ssl_build_graph_eq :
  SimpleSoftmaxLayer.build_graph vars inputs masks = masked_softmax logits masks 1.
Proof. reflexivity. Qed.

Lemma ssl_row_of b k : row_of logits 1 [b; O] k = [b; k].
Proof. unfold row_of. rewrite ssl_logits_shape. reflexivity. Qed.

Lemma ssl_masked_logits_data b t : (b < B)%nat -> (t < T)%nat ->
  tdata (fst (SimpleSoftmaxLayer.build_graph vars inputs masks)) [b; t]
  = masked_row (position_score vars inputs D b) (fun t' => tdata masks [b; t']) t.
Proof.
  intros Hb Ht. rewrite ssl_build_graph_eq, masked_logits_same_shape.
  - now rewrite ssl_logits_data.
  - now rewrite ssl_logits_shape.
  - rewrite ssl_logits_shape. simpl. tauto.
Qed.

Lemma ssl_prob_row b t : (b < B)%nat -> (t < T)%nat ->
  tdata (snd (SimpleSoftmaxLayer.build_graph vars inputs masks)) [b; t]
  = softmax_row T (masked_row (position_score vars inputs D b)
                              (fun t' => tdata masks [b; t'])) t.
Proof.
  intros Hb Ht. rewrite ssl_build_graph_eq, <- (ssl_row_of b t).
  rewrite masked_softmax_row.
  - rewrite ssl_logits_shape. change (nth (norm_axis 2 1) [B; T] O) with T.
    apply softmax_row_ext; [|assumption].
    intros t' Ht'. unfold masked_row, row_logits, row_mask.
    now rewrite ssl_row_of, ssl_logits_data.
  - now rewrite ssl_logits_shape.
  - rewrite ssl_logits_shape. vm_compute. lia.
  - rewrite ssl_logits_shape. simpl. tauto.
  - rewrite ssl_logits_shape. exact Ht.
Qed.

Lemma ssl_shapes :
  tshape (fst (SimpleSoftmaxLayer.build_graph vars inputs masks)) = [B; T]
  /\ tshape (snd (SimpleSoftmaxLayer.build_graph vars inputs masks)) = [B; T].
Proof.
  rewrite ssl_build_graph_eq.
  destruct (masked_softmax_shape logits masks 1) as [-> ->].
  now rewrite ssl_logits_shape, Hm, broadcast_shape_same.
Qed.

End SimpleSoftmaxLayerGraph.

(** X9: SimpleSoftmaxLayer returns logits and a distribution of shape
    (B, T); the distribution sums to 1 over each sequence, the logit of a
    real position is the learned linear score of its hidden vector, and a
    padded position gets a probability of at most exp(2L - 1e30),
    numerically 0, when the sequence has a real position and L bounds
    the scores. *)
Theorem simple_softmax_layer_distribution
    (vars : Variables) (inputs : Tensor R) (masks : Tensor Z) (B T D : nat) :
  let logits := fst (SimpleSoftmaxLayer.build_graph vars inputs masks) in
  let prob_dist := snd (SimpleSoftmaxLayer.build_graph vars inputs masks) in
  let score := position_score vars inputs D in
  tshape inputs = [B; T; D] -> tshape masks = [B; T] -> (0 < T)%nat ->
  tshape logits = [B; T] /\ tshape prob_dist = [B; T]
  /\ forall b, (b < B)%nat ->
       nsum T (fun t => tdata prob_dist [b; t]) = 1
       /\ (forall t, (t < T)%nat -> tdata masks [b; t] = 1%Z ->
             tdata logits [b; t] = score b t)
       /\ (forall t u L, (t < T)%nat -> (u < T)%nat ->
             tdata masks [b; t] = 0%Z -> tdata masks [b; u] = 1%Z ->
             (forall t', (t' < T)%nat -> Rabs (score b t') <= L) ->
             0 <= tdata prob_dist [b; t] <= exp (2 * L - 1e30)).
Proof.
  intros logits prob_dist score Hin Hm HT. subst logits prob_dist score.
  destruct (ssl_shapes vars inputs masks B T D Hin Hm) as [Hs1 Hs2].
  split; [exact Hs1 | split; [exact Hs2|]].
  intros b Hb.
  pose proof (ssl_prob_row vars inputs masks B T D Hin Hm HT b) as Hrow.
  split; [|split].
  - rewrite (nsum_ext T _ _ (fun t Ht => Hrow t Hb Ht)). now apply softmax_row_total.
  - intros t Ht Hmt.
    rewrite (ssl_masked_logits_data vars inputs masks B T D Hin Hm b t Hb Ht).
    now apply masked_row_valid.
  - intros t u L Ht Hu Hmt Hmu HL. rewrite (Hrow t Hb Ht). split.
    + left. now apply softmax_row_pos.
    + apply masked_row_padded_bound with (u := u); auto.
Qed.

Lemma simple_softmax_layer_distribution_witness :
  let prob_dist := snd (SimpleSoftmaxLayer.build_graph Examples.unit_vars
                          (Examples.ones3 1 2 1) Examples.ba_mask) in
  nsum 2 (fun t => tdata prob_dist [O; t]) = 1
  /\ 0 <= tdata prob_dist [O; 1%nat] <= exp (2 * 2 - 1e30).
Proof.
  destruct (simple_softmax_layer_distribution Examples.unit_vars
              (Examples.ones3 1 2 1) Examples.ba_mask 1 2 1)
    as [_ [_ Hb]]; [reflexivity | reflexivity | lia |].
  destruct (Hb O) as [Hsum [_ Hpad]]; [lia|].
  split; [exact Hsum|].
  apply (Hpad 1%nat O 2); try lia; try reflexivity.
  intros t' Ht'. unfold position_score, Examples.unit_vars, Examples.ones3.
  simpl. rewrite Rabs_pos_eq; lra.
Defined.

(** ** The entry point *)

Import Main.

Lemma seq_raises {A B} (r : Run A) (k : A -> Run B) (e : error) :
  snd r = Raises e -> seq r k = (fst r, Raises e).
Proof. intros H. unfold seq. now rewrite H. Qed.

Lemma seq_returns {A B} (r : Run A) (k : A -> Run B) (a : A) :
  snd r = Returns a -> seq r k = (fst r ++ fst (k a), snd (k a)).
Proof. intros H. unfold seq. now rewrite H. Qed.

Lemma seq_trace_Forall {A B} (P : event -> Prop) (r : Run A) (k : A -> Run B) :
  Forall P (fst r) -> (forall a, Forall P (fst (k a))) -> Forall P (fst (seq r k)).
Proof.
  intros Hr Hk. unfold seq. destruct (snd r) as [a|e]; cbn [fst]; [|assumption].
  apply Forall_app. split; [assumption | apply Hk].
Qed.

(** X10: initialize_model restores the checkpoint that the directory names
    when its file or its .index file exists; otherwise it raises when a
    checkpoint is expected and initialises fresh parameters when not.  It
    never initialises fresh parameters when a checkpoint is expected, and
    never raises when none is. *)
Theorem initialize_model_cases
    (env : Env) (cls : qa_class) (dir : string) (expect_exists : bool) :
  let r := initialize_model env (Some cls) dir expect_exists in
  (forall p, checkpoint_state env dir = Some p -> has_checkpoint env dir = true ->
     r = ([RestoreModel p], Returns tt))
  /\ (has_checkpoint env dir = false -> expect_exists = true ->
      r = ([], Raises (NoCheckpoint dir)))
  /\ (has_checkpoint env dir = false -> expect_exists = false ->
      r = ([InitFreshParams], Returns tt))
  /\ (expect_exists = true -> ~ In InitFreshParams (fst r))
  /\ (expect_exists = false -> snd r = Returns tt).
Proof.
  cbv zeta. unfold has_checkpoint, initialize_model.
  destruct (checkpoint_state env dir) as [p|].
  - destruct (gfile_exists env p || gfile_exists env (p ++ ".index")) eqn:E.
    + repeat split; try discriminate.
      * intros q [= <-] _. reflexivity.
      * intros _ [H | []]. discriminate.
    + repeat split; try discriminate.
      * intros _ ->. reflexivity.
      * intros _ ->. reflexivity.
      * intros -> [].
      * intros ->. reflexivity.
  - repeat split; try discriminate.
    + intros _ ->. reflexivity.
    + intros _ ->. reflexivity.
    + intros -> [].
    + intros ->. reflexivity.
Qed.

Lemma initialize_model_cases_witness :
  initialize_model fresh_env
                   (Some QABidafModel) "experiments/x/best_checkpoint" true
  = ([], Raises (NoCheckpoint "experiments/x/best_checkpoint")).
Proof.
  apply (initialize_model_cases
           fresh_env
           QABidafModel "experiments/x/best_checkpoint" true);
    reflexivity.
Defined.

Lemma eqb_neq_false (s t : string) : s <> t -> (s =? t)%string = false.
Proof. apply String.eqb_neq. Qed.

Lemma checks_pass_guard (argv : list string) (py : Z) (F : Flags) :
  checks_pass argv py F ->
  negb (length argv =? 1)%nat = false /\ negb (py =? 2)%Z = false
  /\ (experiment_name F =? "")%string && (train_dir F =? "")%string
     && negb (mode F =? "official_eval")%string
     && negb (mode F =? "ensemble_write")%string
     && negb (mode F =? "ensemble_predict")%string = false.
Proof.
  intros [Ha [Hp Hn]]. rewrite Ha, Hp. repeat split.
  destruct Hn as [H | [H | [H | [H | H]]]].
  - now rewrite (eqb_neq_false _ _ H).
  - rewrite (eqb_neq_false _ _ H). now rewrite andb_false_r.
  - rewrite H. cbn. now rewrite !andb_false_r.
  - rewrite H. cbn. now rewrite !andb_false_r.
  - rewrite H. cbn. now rewrite !andb_false_r.
Qed.

(** X11: main raises before doing anything when the argument list has not
    exactly one element, else when the major version of Python is not 2,
    else when neither experiment_name nor train_dir is given and the mode
    is none of official_eval, ensemble_write and ensemble_predict. *)
Theorem main_checks_come_first
    (env : Env) (unused_argv : list string) (python_major : Z) (FLAGS : Flags) :
  (length unused_argv <> 1%nat ->
   main env unused_argv python_major FLAGS = ([], Raises (BadFlags unused_argv)))
  /\ (length unused_argv = 1%nat -> python_major <> 2%Z ->
      main env unused_argv python_major FLAGS
      = ([], Raises (WrongPython python_major)))
  /\ (length unused_argv = 1%nat -> python_major = 2%Z ->
      experiment_name FLAGS = ""%string -> train_dir FLAGS = ""%string ->
      mode FLAGS <> "official_eval"%string -> mode FLAGS <> "ensemble_write"%string ->
      mode FLAGS <> "ensemble_predict"%string ->
      main env unused_argv python_major FLAGS = ([], Raises NeedExperimentName)).
Proof.
  repeat split.
  - intros Ha. unfold main. apply Nat.eqb_neq in Ha. now rewrite Ha.
  - intros Ha Hp. unfold main. rewrite Ha. apply Z.eqb_neq in Hp. now rewrite Hp.
  - intros Ha Hp He Ht H1 H2 H3. unfold main. rewrite Ha, Hp, He, Ht.
    now rewrite (eqb_neq_false _ _ H1), (eqb_neq_false _ _ H2), (eqb_neq_false _ _ H3).
Qed.

Lemma main_checks_come_first_witness :
  main fresh_env
       ["main.py"%string] 2
       (mkFlags "train" "" "bidaf" 100 "" "" "data" "" "" "predictions.json" "" "")
  = ([], Raises NeedExperimentName).
Proof.
  apply (main_checks_come_first
           fresh_env
           ["main.py"%string] 2
           (mkFlags "train" "" "bidaf" 100 "" "" "data" "" "" "predictions.json" "" ""));
    (reflexivity || discriminate).
Defined.

Ltac mode_tests :=
  repeat match goal with
         | |- context [(?a =? ?b)%string] =>
             let v := eval vm_compute in (a =? b)%string in
             lazymatch v with
             | true => change (a =? b)%string with true
             | false => change (a =? b)%string with false
             end
         end;
  cbv iota.

(** [main] past the checks, with the paths that it computes folded. *)
Ltac enter_main env F Hc :=
  let G1 := fresh "G" in
  let G2 := fresh "G" in
  let G3 := fresh "G" in
  destruct (checks_pass_guard _ _ F Hc) as [G1 [G2 G3]];
  unfold main; rewrite G1, G2, G3; cbv zeta;
  fold (train_dir_of env F); fold (bestmodel_dir_of env F);
  fold (glove_path_of env F).

Lemma after_loading (env : Env) (F : Flags) (d : Run unit) :
  emit (GetGlove (glove_path_of env F) (embedding_size F)) >>
  match model_of (model_name F) with
  | Some cls => emit (NewModel cls)
  | None => ret tt
  end >> d
  = (loading env F ++ fst d, snd d).
Proof.
  unfold loading, seq at 1. cbn [emit fst snd]. unfold seq at 1.
  destruct (model_of (model_name F)); reflexivity.
Qed.

(** X12: a mode that main does not know is rejected only after the word
    vectors have been loaded and the model has been built: the run
    consists of these actions and ends with the exception that names the
    mode. *)
Theorem unexpected_mode_rejected_after_loading
    (env : Env) (unused_argv : list string) (python_major : Z) (FLAGS : Flags) :
  checks_pass unused_argv python_major FLAGS ->
  ~ known_mode (mode FLAGS) ->
  main env unused_argv python_major FLAGS
  = (loading env FLAGS, Raises (UnexpectedMode (mode FLAGS))).
Proof.
  intros Hc Hk. enter_main env FLAGS Hc. rewrite after_loading.
  unfold known_mode in Hk. cbn [In] in Hk.
  rewrite !eqb_neq_false by (intros E; apply Hk; rewrite E; tauto).
  cbn [fst snd raise]. now rewrite app_nil_r.
Qed.

Lemma unexpected_mode_rejected_after_loading_witness :
  main fresh_env
       ["main.py"%string] 2
       (mkFlags "eval" "run1" "bidaf" 100 "" "" "data" "" "" "predictions.json" "" "")
  = ([GetGlove "./data/glove.6B.100d.txt" 100; NewModel QABidafModel],
     Raises (UnexpectedMode "eval")).
Proof.
  apply (unexpected_mode_rejected_after_loading
           fresh_env
           ["main.py"%string] 2
           (mkFlags "eval" "run1" "bidaf" 100 "" "" "data" "" "" "predictions.json"
                    "" "")).
  - repeat split. left. discriminate.
  - unfold known_mode. cbn [In mode].
    intros [H | [H | [H | [H | [H | [H | [H | []]]]]]]]; discriminate.
Defined.

(** X13: the modes official_eval, ensemble_write and ensemble_predict
    need neither experiment_name nor train_dir, and check their own flags
    in order after the loading and before reading any file: json_in_path
    first, then ckpt_load_dir (not for ensemble_predict), then, for
    ensemble_write, ensemble_name. *)
Theorem required_flags_checked_in_order
    (env : Env) (unused_argv : list string) (python_major : Z) (FLAGS : Flags) :
  length unused_argv = 1%nat -> python_major = 2%Z ->
  let r := main env unused_argv python_major FLAGS in
  (mode FLAGS = "official_eval"%string ->
     (json_in_path FLAGS = ""%string ->
      r = (loading env FLAGS, Raises OfficialEvalNeedsJsonIn))
     /\ (json_in_path FLAGS <> ""%string -> ckpt_load_dir FLAGS = ""%string ->
         r = (loading env FLAGS, Raises OfficialEvalNeedsCkptLoadDir)))
  /\ (mode FLAGS = "ensemble_write"%string ->
     (json_in_path FLAGS = ""%string ->
      r = (loading env FLAGS, Raises EnsembleNeedsJsonIn))
     /\ (json_in_path FLAGS <> ""%string -> ckpt_load_dir FLAGS = ""%string ->
         r = (loading env FLAGS, Raises EnsembleNeedsCkptLoadDir))
     /\ (json_in_path FLAGS <> ""%string -> ckpt_load_dir FLAGS <> ""%string ->
         ensemble_name FLAGS = ""%string ->
         r = (loading env FLAGS, Raises EnsembleNeedsName)))
  /\ (mode FLAGS = "ensemble_predict"%string ->
      json_in_path FLAGS = ""%string ->
      r = (loading env FLAGS, Raises EnsembleNeedsJsonIn)).
Proof.
  intros Ha Hp r. subst r.
  assert (Hc : mode FLAGS = "official_eval"%string
               \/ mode FLAGS = "ensemble_write"%string
               \/ mode FLAGS = "ensemble_predict"%string ->
               checks_pass unused_argv python_major FLAGS)
    by (intros H; repeat split; try assumption; tauto).
  split; [|split]; intros Hm.
  all: assert (Hc' := Hc ltac:(tauto)); clear Hc.
  all: enter_main env FLAGS Hc'; rewrite after_loading; rewrite Hm; mode_tests.
  - split.
    + intros ->. cbn. now rewrite app_nil_r.
    + intros H1 ->. rewrite (eqb_neq_false _ _ H1). cbn. now rewrite app_nil_r.
  - split; [|split].
    + intros ->. cbn. now rewrite app_nil_r.
    + intros H1 ->. rewrite (eqb_neq_false _ _ H1). cbn. now rewrite app_nil_r.
    + intros H1 H2 ->. rewrite (eqb_neq_false _ _ H1), (eqb_neq_false _ _ H2).
      cbn. now rewrite app_nil_r.
  - intros ->. cbn. now rewrite app_nil_r.
Qed.

Lemma required_flags_checked_in_order_witness :
  main fresh_env
       ["main.py"%string] 2
       (mkFlags "official_eval" "" "bidaf" 100 "" "" "data" "" "dev.json"
                "predictions.json" "" "")
  = ([GetGlove "./data/glove.6B.100d.txt" 100; NewModel QABidafModel],
     Raises OfficialEvalNeedsCkptLoadDir).
Proof.
  apply (required_flags_checked_in_order
           fresh_env
           ["main.py"%string] 2
           (mkFlags "official_eval" "" "bidaf" 100 "" "" "data" "" "dev.json"
                    "predictions.json" "" ""));
    (reflexivity || discriminate).
Defined.

Lemma no_training_seq {A B} (r : Run A) (k : A -> Run B) :
  no_training (fst r) -> (forall a, no_training (fst (k a))) ->
  no_training (fst (seq r k)).
Proof. apply seq_trace_Forall. Qed.

Lemma no_training_emit (e : event) :
  training_action e = false -> no_training (fst (emit e)).
Proof. intros H. repeat constructor. exact H. Qed.

Lemma no_training_nil {A} (o : outcome A) : no_training (fst (([], o) : Run A)).
Proof. constructor. Qed.

Lemma no_training_method (model : option qa_class) (attr : string) (e : event) :
  training_action e = false -> no_training (fst (method model attr e)).
Proof.
  intros H. destruct model; [now apply no_training_emit | constructor].
Qed.

Lemma no_training_initialize (env : Env) (model : option qa_class) (dir : string) :
  no_training (fst (initialize_model env model dir true)).
Proof.
  unfold initialize_model.
  destruct (checkpoint_state env dir) as [p|]; [|constructor].
  destruct (_ || _); [|constructor].
  now apply no_training_method.
Qed.

Lemma no_training_read_all (env : Env) (paths : list string) (total_dict : dict) :
  no_training (fst (read_all env total_dict paths)).
Proof.
  revert total_dict. induction paths as [|d rest IH]; intros total_dict.
  - constructor.
  - cbn [read_all]. apply no_training_seq; [now apply no_training_emit|].
    intros _. apply no_training_seq; [constructor | intros a; apply IH].
Qed.

Lemma no_training_loading (env : Env) (F : Flags) : no_training (loading env F).
Proof.
  unfold loading. destruct (model_of (model_name F)); repeat constructor.
Qed.

Ltac no_training_steps :=
  repeat first
    [ apply no_training_initialize
    | apply no_training_read_all
    | apply no_training_nil
    | apply no_training_method; reflexivity
    | apply no_training_emit; reflexivity
    | apply no_training_seq; [|intros ?]
    | match goal with
      | |- no_training (fst (if ?c then _ else _)) => destruct c
      | |- Forall _ (fst (if ?c then _ else _)) => destruct c
      end
    | constructor ].

(** X14: in the modes show_examples, visualize, ensemble_write,
    ensemble_predict and official_eval, whatever the flags and the state
    of the machine, main never creates the directories of an experiment,
    never adds a log file, never records the flags, never initialises
    fresh parameters and never trains. *)
Theorem evaluation_modes_never_train
    (env : Env) (unused_argv : list string) (python_major : Z) (FLAGS : Flags) :
  evaluation_mode (mode FLAGS) ->
  no_training (fst (main env unused_argv python_major FLAGS)).
Proof.
  intros Hm. unfold main.
  destruct (negb (length unused_argv =? 1)%nat); [constructor|].
  destruct (negb (python_major =? 2)%Z); [constructor|].
  destruct (_ && _); [constructor|]. cbv zeta.
  fold (train_dir_of env FLAGS). fold (bestmodel_dir_of env FLAGS).
  fold (glove_path_of env FLAGS). rewrite after_loading. cbn [fst].
  apply Forall_app. split; [apply no_training_loading|].
  unfold evaluation_mode in Hm. cbn [In] in Hm.
  destruct Hm as [H | [H | [H | [H | [H | []]]]]]; rewrite <- H; mode_tests.
  - no_training_steps.
  - no_training_steps.
  - no_training_steps.
  - unfold ensemble_total. no_training_steps.
  - no_training_steps.
Qed.

Lemma evaluation_modes_never_train_witness :
  no_training
    (fst (main trained_env
               ["main.py"%string] 2
               (mkFlags "visualize" "run1" "bidaf" 100 "" "" "data" "" ""
                        "predictions.json" "" ""))).
Proof.
  apply (evaluation_modes_never_train
           trained_env
           ["main.py"%string] 2
           (mkFlags "visualize" "run1" "bidaf" 100 "" "" "data" "" ""
                    "predictions.json" "" "")).
  unfold evaluation_mode. cbn [In mode]. tauto.
Defined.

Lemma model_of_unknown (name : string) :
  ~ In name model_names -> model_of name = None.
Proof.
  intros H. unfold model_names in H. cbn [In] in H. unfold model_of.
  rewrite !eqb_neq_false by (intros E; apply H; rewrite E; tauto).
  reflexivity.
Qed.

Lemma setup_train_dir_returns (env : Env) (td bd : string) :
  snd (setup_train_dir env td bd) = Returns tt.
Proof.
  unfold setup_train_dir.
  destruct (path_exists env td), (path_exists env bd); reflexivity.
Qed.

Lemma initialize_model_None (env : Env) (dir : string) :
  initialize_model env None dir false
  = if has_checkpoint env dir then ([], Raises (NoneAttribute "saver"))
    else ([InitFreshParams], Returns tt).
Proof.
  unfold initialize_model, has_checkpoint.
  destruct (checkpoint_state env dir) as [p|]; [|reflexivity].
  destruct (_ || _); reflexivity.
Qed.

(** X15: a model name that is not one of the five is not rejected: in
    the modes train and test main loads the word vectors, builds no model,
    sets up the training directory, and fails with an attribute error on
    None, at model.saver when the directory holds a checkpoint and
    otherwise, after initialising fresh parameters, at model.train. *)
Theorem unknown_model_name_fails_late
    (env : Env) (unused_argv : list string) (python_major : Z) (FLAGS : Flags) :
  checks_pass unused_argv python_major FLAGS ->
  ~ In (model_name FLAGS) model_names ->
  mode FLAGS = "train"%string \/ mode FLAGS = "test"%string ->
  main env unused_argv python_major FLAGS
  = (GetGlove (glove_path_of env FLAGS) (embedding_size FLAGS)
     :: fst (setup_train_dir env (train_dir_of env FLAGS) (bestmodel_dir_of env FLAGS))
     ++ (if has_checkpoint env (train_dir_of env FLAGS) then []
         else [InitFreshParams]),
     Raises (NoneAttribute (if has_checkpoint env (train_dir_of env FLAGS)
                            then "saver" else "train"))).
Proof.
  intros Hc Hn Hm. enter_main env FLAGS Hc. rewrite after_loading.
  unfold loading. rewrite (model_of_unknown _ Hn).
  destruct Hm as [Hm | Hm]; rewrite Hm; mode_tests.
  all: rewrite (seq_returns _ _ tt (setup_train_dir_returns env _ _)).
  all: rewrite initialize_model_None.
  all: destruct (has_checkpoint env (train_dir_of env FLAGS)); reflexivity.
Qed.

Lemma unknown_model_name_fails_late_witness :
  main fresh_env
       ["main.py"%string] 2
       (mkFlags "train" "run1" "bidaff" 100 "" "" "data" "" "" "predictions.json"
                "" "")
  = ([GetGlove "./data/glove.6B.100d.txt" 100;
      Makedirs "./experiments/run1";
      AddLogFile "./experiments/run1/log.txt";
      DumpFlags "./experiments/run1/flags.json";
      Makedirs "./experiments/run1/best_checkpoint";
      InitFreshParams],
     Raises (NoneAttribute "train")).
Proof.
  apply (unknown_model_name_fails_late
           fresh_env
           ["main.py"%string] 2
           (mkFlags "train" "run1" "bidaff" 100 "" "" "data" "" ""
                    "predictions.json" "" "")).
  - repeat split. left. discriminate.
  - unfold model_names. cbn [In model_name].
    intros [H | [H | [H | [H | [H | []]]]]]; discriminate.
  - left. reflexivity.
Defined.

(** *** The average of the two prediction files *)

Lemma dict_get_set_same (d : dict) (k : string) (v : Tensor R) :
  dict_get (dict_set d k v) k = Some v.
Proof.
  induction d as [|[k0 w] d IH]; cbn [dict_set dict_get].
  - now rewrite String.eqb_refl.
  - destruct (k0 =? k)%string eqn:E; cbn [dict_get]; rewrite E; [reflexivity | exact IH].
Qed.

Lemma dict_get_set_other (d : dict) (k k' : string) (v : Tensor R) :
  k <> k' -> dict_get (dict_set d k v) k' = dict_get d k'.
Proof.
  intros Hne. induction d as [|[k0 w] d IH]; cbn [dict_set dict_get].
  - now rewrite (eqb_neq_false _ _ Hne).
  - destruct (k0 =? k)%string eqn:E; cbn [dict_get].
    + apply String.eqb_eq in E. subst k0. now rewrite (eqb_neq_false _ _ Hne).
    + destruct (k0 =? k')%string; [reflexivity | exact IH].
Qed.

Lemma dict_get_Some_In (d : dict) (k : string) (a : Tensor R) :
  dict_get d k = Some a -> In k (keys d).
Proof.
  induction d as [|[k0 w] d IH]; cbn [dict_get keys List.map fst In]; [discriminate|].
  destruct (k0 =? k)%string eqn:E.
  - apply String.eqb_eq in E. now left.
  - intros H. right. now apply IH.
Qed.

Lemma broadcastable_r_refl (s : list nat) : broadcastable_r s s = true.
Proof.
  induction s as [|d s IH]; cbn [broadcastable_r]; [reflexivity|].
  now rewrite Nat.eqb_refl, IH.
Qed.

Lemma iadd_same_shape (a b : Tensor R) :
  tshape b = tshape a -> iadd a b = Returns (sum_arrays a b).
Proof.
  intros H.
  assert (Hb : broadcastable (tshape b) (tshape a) = true)
    by (unfold broadcastable; rewrite H; apply broadcastable_r_refl).
  unfold iadd. now rewrite Hb.
Qed.

(** The loop over one file: it ends, and gives each key of the file the
    entry of the file, added to what the key had. *)
Lemma accumulate_spec (predictions : dict) :
  forall total_dict : dict,
    NoDup (keys predictions) ->
    (forall k a b, dict_get total_dict k = Some a -> dict_get predictions k = Some b ->
                   tshape b = tshape a) ->
    exists total', accumulate total_dict predictions = Returns total'
      /\ forall k, dict_get total' k =
           match dict_get predictions k, dict_get total_dict k with
           | Some b, Some a => Some (sum_arrays a b)
           | Some b, None => Some b
           | None, x => x
           end.
Proof.
  induction predictions as [|[k0 item] rest IH]; intros total_dict Hnd Hsh.
  - exists total_dict. split; [reflexivity|]. intros k. reflexivity.
  - cbn [keys List.map fst] in Hnd. inversion Hnd as [|? ? Hnotin Hnd']; subst.
    assert (Hrest0 : dict_get rest k0 = None).
    { destruct (dict_get rest k0) eqn:E; [|reflexivity].
      exfalso. apply Hnotin. exact (dict_get_Some_In _ _ _ E). }
    assert (Hstep : forall v,
              (forall a, dict_get total_dict k0 = Some a -> tshape v = tshape a) ->
              forall k a b, dict_get (dict_set total_dict k0 v) k = Some a ->
                            dict_get rest k = Some b -> tshape b = tshape a).
    { intros v Hv k a b Ha Hb.
      destruct (String.eqb_spec k0 k) as [<- | Hne]; [congruence|].
      rewrite dict_get_set_other in Ha by assumption.
      apply (Hsh k a b Ha). cbn [dict_get].
      now rewrite (eqb_neq_false _ _ Hne). }
    cbn [accumulate].
    destruct (dict_get total_dict k0) as [a0|] eqn:E0.
    + rewrite (iadd_same_shape a0 item)
        by (apply (Hsh k0 a0 item E0); cbn [dict_get]; now rewrite String.eqb_refl).
      destruct (IH (dict_set total_dict k0 (sum_arrays a0 item)) Hnd')
        as [total' [Hacc Hget]].
      { apply Hstep. intros a [= <-]. reflexivity. }
      exists total'. split; [exact Hacc|]. intros k. rewrite Hget. cbn [dict_get].
      destruct (String.eqb_spec k0 k) as [<- | Hne].
      * now rewrite Hrest0, dict_get_set_same, E0.
      * now rewrite dict_get_set_other by assumption.
    + destruct (IH (dict_set total_dict k0 item) Hnd') as [total' [Hacc Hget]].
      { apply Hstep. intros a [=]. }
      exists total'. split; [exact Hacc|]. intros k. rewrite Hget. cbn [dict_get].
      destruct (String.eqb_spec k0 k) as [<- | Hne].
      * now rewrite Hrest0, dict_get_set_same, E0.
      * now rewrite dict_get_set_other by assumption.
Qed.

Lemma divide_rows_two (a : Tensor R) :
  (2 <= nth 0 (tshape a) O)%nat -> divide_rows a 2 = Returns (halve_rows a).
Proof.
  intros H. unfold divide_rows.
  destruct (Nat.ltb_spec (nth 0 (tshape a) O) 2); [lia | reflexivity].
Qed.

(** The loop that divides: it ends when every array has two rows. *)
Lemma divide_all_spec (d : dict) :
  two_rows d ->
  exists d', divide_all d 2 = Returns d'
    /\ forall k, dict_get d' k = option_map halve_rows (dict_get d k).
Proof.
  induction d as [|[k0 a] d IH]; intros H.
  - exists []. split; reflexivity.
  - inversion H as [|? ? Ha Hd0]; subst. destruct (IH Hd0) as [d' [Hd Hget]].
    exists ((k0, halve_rows a) :: d'). split.
    + cbn [divide_all]. rewrite divide_rows_two by exact Ha. now rewrite Hd.
    + intros k. cbn [dict_get]. destruct (k0 =? k)%string; [reflexivity | apply Hget].
Qed.

Lemma two_rows_get (d : dict) (k : string) (a : Tensor R) :
  two_rows d -> dict_get d k = Some a -> (2 <= nth 0 (tshape a) O)%nat.
Proof.
  intros H. induction H as [|[k0 w] d Hw _ IH]; cbn [dict_get]; [discriminate|].
  destruct (k0 =? k)%string; [intros [= <-]; exact Hw | exact IH].
Qed.

Lemma two_rows_set (d : dict) (k : string) (v : Tensor R) :
  two_rows d -> (2 <= nth 0 (tshape v) O)%nat -> two_rows (dict_set d k v).
Proof.
  intros H Hv. induction H as [|[k0 w] d Hw Hd IH]; cbn [dict_set].
  - repeat constructor. exact Hv.
  - destruct (k0 =? k)%string; constructor; assumption.
Qed.

Lemma accumulate_two_rows (predictions : dict) :
  forall total_dict total',
    two_rows total_dict -> two_rows predictions ->
    accumulate total_dict predictions = Returns total' -> two_rows total'.
Proof.
  induction predictions as [|[k0 item] rest IH]; intros total_dict total' Ht Hp.
  - intros [= <-]. exact Ht.
  - inversion Hp as [|? ? Hitem Hrest]; subst. cbn [accumulate snd] in *.
    destruct (dict_get total_dict k0) as [a0|] eqn:E0.
    + unfold iadd. destruct (broadcastable _ _); [|discriminate].
      apply IH; [|exact Hrest]. apply two_rows_set; [exact Ht|].
      exact (two_rows_get _ _ _ Ht E0).
    + apply IH; [|exact Hrest]. now apply two_rows_set.
Qed.

(** X16: in the mode ensemble_predict, when each of the two prediction
    files binds a key once, every array has at least two rows and the two
    arrays of a shared key have the same shape, both files are read, in
    the order stack, pointer, and the dictionary that results gives a key
    of both files the sum of its two arrays with rows 0 and 1 halved, and
    a key of one file only the array of that file with rows 0 and 1
    halved; the other rows are not divided. *)
Theorem ensemble_total_averages (env : Env) (ensemble_dir : string) :
  let stack := json_load env (distribution_file ensemble_dir "stack") in
  let pointer := json_load env (distribution_file ensemble_dir "pointer") in
  NoDup (keys stack) -> NoDup (keys pointer) ->
  two_rows stack -> two_rows pointer -> same_shapes stack pointer ->
  exists total_dict,
    ensemble_total env ensemble_dir
    = ([OpenJson (distribution_file ensemble_dir "stack");
        OpenJson (distribution_file ensemble_dir "pointer")], Returns total_dict)
    /\ (forall key,
          dict_get total_dict key
          = averaged (dict_get stack key) (dict_get pointer key))
    /\ (forall key a b, dict_get stack key = Some a -> dict_get pointer key = Some b ->
          exists t, dict_get total_dict key = Some t /\ tshape t = tshape a
            /\ forall r i, in_bounds (tshape a) (r :: i) ->
                  tdata t (r :: i)
                  = if (r <? 2)%nat
                    then (tdata a (r :: i) + tdata b (r :: i)) / 2
                    else tdata a (r :: i) + tdata b (r :: i)).
Proof.
  intros stack pointer Hn1 Hn2 Hr1 Hr2 Hsh.
  destruct (accumulate_spec stack [] Hn1) as [t1 [Ha1 Hg1]]; [intros k a b [=]|].
  assert (Hg1' : forall k, dict_get t1 k = dict_get stack k).
  { intros k. rewrite Hg1. cbn [dict_get]. now destruct (dict_get stack k). }
  destruct (accumulate_spec pointer t1 Hn2) as [t2 [Ha2 Hg2]].
  { intros k a b Ha Hb. rewrite Hg1' in Ha. exact (Hsh k a b Ha Hb). }
  assert (Ht1 : two_rows t1)
    by (apply (accumulate_two_rows stack [] t1); [constructor | exact Hr1 | exact Ha1]).
  assert (Ht2 : two_rows t2) by exact (accumulate_two_rows pointer t1 t2 Ht1 Hr2 Ha2).
  destruct (divide_all_spec t2 Ht2) as [total [Hd Hg]].
  exists total. split.
  - unfold ensemble_total. cbn [List.map read_all length].
    fold (distribution_file ensemble_dir "stack").
    fold (distribution_file ensemble_dir "pointer").
    fold stack. fold pointer. rewrite Ha1.
    unfold seq at 3. cbn [lift fst snd]. rewrite Ha2.
    replace (INR 2) with 2 by (simpl; lra).
    unfold seq, lift, emit, ret; cbn [fst snd app]. rewrite Hd. reflexivity.
  - assert (Hav : forall key, dict_get total key
                    = averaged (dict_get stack key) (dict_get pointer key)).
    { intros key. rewrite Hg, Hg2, Hg1'. unfold averaged.
      destruct (dict_get stack key), (dict_get pointer key); reflexivity. }
    split; [exact Hav|].
    intros key a b Ha Hb. rewrite Hav, Ha, Hb. cbn [averaged].
    eexists. split; [reflexivity|]. split; [reflexivity|].
    intros r i Hin. cbn [halve_rows sum_arrays tdata tshape].
    rewrite (Hsh key a b Ha Hb), (bidx_same _ _ Hin).
    destruct (r <? 2)%nat; reflexivity.
Qed.

Lemma ensemble_total_averages_witness :
  exists total_dict,
    ensemble_total two_files "ens"
    = ([OpenJson "ens/distribution_stack.json";
        OpenJson "ens/distribution_pointer.json"], Returns total_dict)
    /\ (exists t, dict_get total_dict "q1" = Some t /\ tdata t [0; 0]%nat = 1 / 2)
    /\ (exists t, dict_get total_dict "q2" = Some t /\ tdata t [0; 0]%nat = 1 / 2).
Proof.
  destruct (ensemble_total_averages two_files "ens") as [total [Hrun [Hav _]]].
  - repeat constructor. cbn. tauto.
  - repeat constructor; cbn; intuition discriminate.
  - repeat constructor.
  - repeat constructor.
  - intros key a b Ha Hb.
    change (json_load two_files (distribution_file "ens" "stack"))
      with [("q1"%string, mkTensor [2; 1]%nat (fun _ => 1))] in Ha.
    change (json_load two_files (distribution_file "ens" "pointer"))
      with [("q1"%string, mkTensor [2; 1]%nat (fun _ => 0));
            ("q2"%string, mkTensor [2; 1]%nat (fun _ => 1))] in Hb.
    cbn [dict_get] in Ha, Hb.
    destruct (String.eqb "q1" key); [|discriminate].
    injection Ha as <-. injection Hb as <-. reflexivity.
  - exists total. split; [exact Hrun|]. split.
    + rewrite (Hav "q1"%string). eexists. split; [reflexivity|]. cbn. lra.
    + rewrite (Hav "q2"%string). eexists. split; [reflexivity|]. cbn. lra.
Defined.
